(** * XLSX to JSON converter node: the protocol client, embedded and verified

    Source: [src/nodes/XlsxToJson/XlsxToJson.node.ts].

    The node downloads a spreadsheet, drives the conversion service through
    upload, list-sheets, list-fields, set-parameters and fetch-export, and
    emits one output item per exported record.  This file embeds the
    functions of the node one by one, keeping their names, and proves the
    properties the specification states about them.

    Conventions of the embedding.
    - A JavaScript string is the sequence of its code units; the embedding
      covers code units below 256 and writes them as [string].
    - A JavaScript number that the node computes with is an index, a count
      or a size: numbers are integers ([Z]); sizes in megabytes and timer
      delays, which the source obtains by division and by powers of 1.5,
      are exact rationals ([Q]).  [None] stands for NaN where [parseInt]
      is involved.
    - A value read from a service response or from a parsed parameter is a
      [Value]: JSON data, plus [VUndefined] for what a property read gives
      when the property is missing.
    - [throw] and rejected promises are the [Thrown] outcome of a
      computation; [await] is sequencing.
    - [logStep] only writes to the console and is left out; where the
      message it is given is built by converting a service value to a
      string, a conversion that can itself throw, the conversion is kept
      (see [interpolate]). *)

From Stdlib Require Import ZArith QArith Qround Qpower Ascii String List Lia.
From stdpp Require Import base option list gmap sets strings pretty.

Open Scope string_scope.
Open Scope list_scope.
Open Scope Z_scope.

(** ** Values *)

Set Warnings "-register-all,-clear-no-such-hyp".

Inductive Value : Type :=
| VUndefined
| VNull
| VBool (b : bool)
| VNum (n : Z)
| VStr (s : string)
| VArr (items : list Value)
| VObj (props : list (string * Value)).

(** [!!v] of JavaScript: which values count as true. *)
Definition truthy (v : Value) : bool :=
  match v with
  | VUndefined | VNull => false
  | VBool b => b
  | VNum n => negb (n =? 0)%Z
  | VStr s => negb (String.eqb s "")
  | VArr _ | VObj _ => true
  end.

(** [a || b] on values. *)
Definition or_else (a b : Value) : Value := if truthy a then a else b.

(** Own property of an object built by [JSON.parse]: a later binding of a
    key replaces an earlier one. *)
Fixpoint own_prop (k : string) (props : list (string * Value)) : option Value :=
  match props with
  | [] => None
  | (k', v) :: rest =>
      match own_prop k rest with
      | Some v' => Some v'
      | None => if String.eqb k k' then Some v else None
      end
  end.

(** [v.k] for the data keys the node reads ([index], [name], [id], [title],
    [original], [sheets], [fields], [success], [documentId]): arrays and
    primitives have no such property. *)
Definition Get (v : Value) (k : string) : Value :=
  match v with
  | VObj props => default VUndefined (own_prop k props)
  | _ => VUndefined
  end.

(** [Array.isArray]. *)
Definition isArray (v : Value) : bool :=
  match v with VArr _ => true | _ => false end.

(** [typeof v === 'object'] (true of [null], arrays and objects). *)
Definition typeof_object (v : Value) : bool :=
  match v with VNull | VArr _ | VObj _ => true | _ => false end.

(** [arr[i]]: [undefined] outside the array. *)
Definition array_get (arr : list Value) (i : Z) : Value :=
  if i <? 0 then VUndefined else default VUndefined (arr !! Z.to_nat i).

(** [Array.prototype.join] over a conversion of the elements: [null] and
    [undefined] elements give the empty string; the first conversion that
    throws ends the join. *)
Definition join_with (elem : Value -> option string) (sep : string)
  : list Value -> option string :=
  fix go (l : list Value) : option string :=
    match l with
    | [] => Some ""
    | x :: rest =>
        match (match x with
               | VUndefined | VNull => Some ""
               | _ => elem x
               end) with
        | None => None
        | Some s =>
            match rest with
            | [] => Some s
            | _ => match go rest with
                   | None => None
                   | Some r => Some (s +:+ sep +:+ r)
                   end
            end
        end
    end.

(** The abstract operation ToString.  [None] is the TypeError "Cannot
    convert object to primitive value": an object of parsed data that carries
    its own [toString] property hides [Object.prototype.toString] behind a
    value that is not callable.  An array is joined with commas. *)
Fixpoint ToString (v : Value) : option string :=
  match v with
  | VUndefined => Some "undefined"
  | VNull => Some "null"
  | VBool true => Some "true"
  | VBool false => Some "false"
  | VNum n => Some (pretty n)
  | VStr s => Some s
  | VArr items => join_with ToString "," items
  | VObj props =>
      match own_prop "toString" props with
      | Some _ => None
      | None => Some "[object Object]"
      end
  end.

(** [arr.join(sep)]. *)
Definition Array_join (sep : string) (arr : list Value) : option string :=
  join_with ToString sep arr.

(** ** Strings *)

(** The double quote, code unit 34, and a way to write a text that contains
    some: every apostrophe of [s] becomes a double quote. *)
Definition dquote : ascii := Ascii false true false false false true false false.

Fixpoint quoted (s : string) : string :=
  match s with
  | EmptyString => EmptyString
  | String c r => String (if Ascii.eqb c "'" then dquote else c) (quoted r)
  end.

(** White space and line terminators of the language, among the code units
    below 256: TAB, LF, VT, FF, CR, SP, NBSP. *)
Definition is_white (c : ascii) : bool :=
  let n := nat_of_ascii c in
  ((9 <=? n)%nat && (n <=? 13)%nat) || (n =? 32)%nat || (n =? 160)%nat.

Fixpoint trimStart (s : string) : string :=
  match s with
  | String c r => if is_white c then trimStart r else s
  | EmptyString => EmptyString
  end.

Fixpoint trimEnd (s : string) : string :=
  match s with
  | EmptyString => EmptyString
  | String c r =>
      match trimEnd r with
      | EmptyString => if is_white c then EmptyString else String c EmptyString
      | r' => String c r'
      end
  end.

(** [s.trim()]. *)
Definition trim (s : string) : string := trimEnd (trimStart s).

(** [s.startsWith(p)]. *)
Fixpoint startsWith (s p : string) {struct p} : bool :=
  match p with
  | EmptyString => true
  | String a p' =>
      match s with
      | String b s' => Ascii.eqb a b && startsWith s' p'
      | EmptyString => false
      end
  end.

(** [s.replace(/\/+$/, '')]: the slashes at the end of the string go. *)
Fixpoint strip_trailing_slashes (s : string) : string :=
  match s with
  | EmptyString => EmptyString
  | String c r =>
      match strip_trailing_slashes r with
      | EmptyString => if Ascii.eqb c "/" then EmptyString else String c EmptyString
      | r' => String c r'
      end
  end.

(** [s.split(',')]: never empty, the empty string gives one empty piece. *)
Fixpoint split_comma (s : string) : list string :=
  match s with
  | EmptyString => [EmptyString]
  | String c r =>
      if Ascii.eqb c ","
      then EmptyString :: split_comma r
      else match split_comma r with
           | p :: ps => String c p :: ps
           | [] => [String c EmptyString]
           end
  end.

Definition digit_of (c : ascii) : option Z :=
  let n := nat_of_ascii c in
  if ((48 <=? n)%nat && (n <=? 57)%nat)%bool then Some (Z.of_nat n - 48) else None.

(** The longest prefix of decimal digits, read as a number; [None] when the
    string does not start with a digit. *)
Fixpoint digits (s : string) (acc : option Z) : option Z :=
  match s with
  | EmptyString => acc
  | String c r =>
      match digit_of c with
      | Some d => digits r (Some (10 * default 0 acc + d))
      | None => acc
      end
  end.

(** [parseInt(s, 10)] on a string: leading white space, an optional sign,
    then as many digits as there are; [None] is NaN. *)
Definition parseInt_string (s : string) : option Z :=
  match trimStart s with
  | String "-" r => Z.opp <$> digits r None
  | String "+" r => digits r None
  | r => digits r None
  end.

(** ** [parseExportFields] *)

(** Parse export fields string into numerical indices. *)
Definition parseExportFields (exportFieldsRaw : string) : list Z :=
  if String.eqb exportFieldsRaw "" then []
  else
    filter (fun index => 0 <= index)
      (map (fun indexStr => default (-1) (parseInt_string indexStr))
         (filter (fun indexStr => indexStr <> "")
            (map trim (split_comma exportFieldsRaw)))).

(** ** Field Mapper: [createFieldMappings] *)

Record CustomFieldOverride := { index : Z; name : string }.

Record FieldMappings := {
  mapping : gmap string Value;
  exportFieldIndexes : list Z
}.

(** [index.toString()] of a number that is a safe integer (below [2^53] in
    size): JavaScript prints all its digits.  Larger numbers are printed
    rounded, and from [10^21] on in exponent form; the model does not cover
    them. *)
Definition Number_toString (n : Z) : string := pretty n.

(** The lookup table of the overrides: [customMappings.forEach(m =>
    customMappingsMap.set(m.index, m.name))]. *)
Definition customMappingsMap (customMappings : list CustomFieldOverride)
  : gmap Z string :=
  foldl (fun m o => <[index o := name o]> m) ∅ customMappings.

(** The value stored under an index:
    [has(index) ? (get(index) || field) : field]. *)
Definition mapped_field (cm : gmap Z string) (index : Z) (field : Value) : Value :=
  match cm !! index with
  | Some custom => or_else (VStr custom) field
  | None => field
  end.

(** [originalFields.forEach((field, index) => mapping[index.toString()] = ...)],
    from position [index] on. *)
Fixpoint map_all_fields (cm : gmap Z string) (fields : list Value) (index : Z)
    (mapping : gmap string Value) : gmap string Value :=
  match fields with
  | [] => mapping
  | field :: rest =>
      map_all_fields cm rest (index + 1)
        (<[Number_toString index := mapped_field cm index field]> mapping)
  end.

(** [exportFieldIndexes.forEach(index => mapping[index.toString()] = ...)]. *)
Definition map_selected_fields (cm : gmap Z string) (originalFields : list Value)
    (indexes : list Z) (mapping : gmap string Value) : gmap string Value :=
  foldl (fun m index =>
           <[Number_toString index :=
               mapped_field cm index (array_get originalFields index)]> m)
        mapping indexes.

Definition createFieldMappings (originalFields : list Value)
    (exportIndices : list Z) (customMappings : list CustomFieldOverride)
  : FieldMappings :=
  let cm := customMappingsMap customMappings in
  let len := Z.of_nat (length originalFields) in
  match exportIndices with
  | [] =>
      {| mapping := map_all_fields cm originalFields 0 ∅;
         exportFieldIndexes := map Z.of_nat (seq 0 (length originalFields)) |}
  | _ =>
      let selected :=
        filter (fun index => 0 <= index /\ index < len) exportIndices in
      {| mapping := map_selected_fields cm originalFields selected ∅;
         exportFieldIndexes := selected |}
  end.

(** ** Failures and outcomes *)

(** An HTTP response as axios hands it over. *)
Record Response (D : Type) := mkResponse {
  status : Z;
  statusText : string;
  headers : gmap string string;
  data : D
}.
Arguments mkResponse {D}.
Arguments status {D}.
Arguments statusText {D}.
Arguments headers {D}.
Arguments data {D}.

(** The body of a response: bytes when the request asked for an
    [arraybuffer], parsed data otherwise. *)
Inductive Body :=
| Buffer (bytes : list Byte.byte)
| Json (v : Value).

(** What a rejected axios call carries. *)
Record AxiosErr := mkAxiosErr {
  code : option string;
  response : option (Response Body);
  message : string
}.

(** The values the node throws or sees thrown. *)
Inductive JsError :=
| TypeError (msg : string)
| SyntaxError (msg : string)
| Error (msg : string)
| AxiosError (e : AxiosErr)
| NodeOperationError (msg : string)
| NodeApiError (msg : string) (statusCode : Z) (statusTxt : string).

(** [axios.isAxiosError]. *)
Definition isAxiosError (e : JsError) : bool :=
  match e with AxiosError _ => true | _ => false end.

(** [(error as Error).message]. *)
Definition error_message (e : JsError) : string :=
  match e with
  | TypeError m | SyntaxError m | Error m | NodeOperationError m => m
  | AxiosError a => message a
  | NodeApiError m _ _ => m
  end.

Inductive Outcome (A : Type) :=
| Returned (a : A)
| Thrown (e : JsError).
Arguments Returned {A}.
Arguments Thrown {A}.

(** Sequencing of code that can throw. *)
Definition obind {A B} (m : Outcome A) (k : A -> Outcome B) : Outcome B :=
  match m with
  | Returned a => k a
  | Thrown e => Thrown e
  end.

(** [try { m } catch (error) { handler(error) }]. *)
Definition try_catch {A} (m : Outcome A) (handler : JsError -> Outcome A)
  : Outcome A :=
  match m with
  | Returned a => Returned a
  | Thrown e => handler e
  end.

(** [items.filter(p)] where [p] can throw: the items are tested in order. *)
Fixpoint filterM {A} (p : A -> Outcome bool) (l : list A) : Outcome (list A) :=
  match l with
  | [] => Returned []
  | x :: rest =>
      obind (p x) (fun keep =>
      obind (filterM p rest) (fun rest' =>
      Returned (if keep then x :: rest' else rest')))
  end.

(** [items.map(f)] where [f] can throw. *)
Fixpoint mapM_outcome {A B} (f : A -> Outcome B) (l : list A) : Outcome (list B) :=
  match l with
  | [] => Returned []
  | x :: rest =>
      obind (f x) (fun y =>
      obind (mapM_outcome f rest) (fun rest' =>
      Returned (y :: rest')))
  end.

Definition cannot_convert : JsError :=
  TypeError "Cannot convert object to primitive value".

(** A template literal or [String(v)] over a service value. *)
Definition interpolate (v : Value) : Outcome string :=
  match ToString v with
  | Some s => Returned s
  | None => Thrown cannot_convert
  end.

(** [parseInt(v, 10)]: the argument is converted to a string first. *)
Definition parseInt (v : Value) : Outcome (option Z) :=
  obind (interpolate v) (fun s => Returned (parseInt_string s)).

(** A parsed URL, as far as the node looks at it. *)
Record URL := mkURL {
  protocol : string;
  hostname : string
}.

Section Platform.

(** The platform functions the node calls.  [JSON.parse] and [new URL]
    throw on bad input ([None]); [JSON.stringify] only builds messages. *)
Variable JSON_parse : string -> option Value.
Variable URL_parse : string -> option URL.
Variable JSON_stringify : Value -> string.

(** *** [isValidUrl] *)

(** Validates a URL string. *)
Definition isValidUrl (urlString : string) : Outcome bool :=
  if String.eqb urlString "" then Returned false
  else
    try_catch
      (let urlString :=
         if negb (startsWith urlString "http://")
            && negb (startsWith urlString "https://")
         then "http://" +:+ urlString
         else urlString in
       match URL_parse urlString with
       | None => Thrown (TypeError "Invalid URL")
       | Some url =>
           Returned (String.eqb (protocol url) "http:"
                     || String.eqb (protocol url) "https:")
       end)
      (fun _ => Returned false).

(** *** [parseFieldMapping] *)

Definition is_number (v : Value) : bool :=
  match v with VNum _ => true | _ => false end.

Definition is_string (v : Value) : bool :=
  match v with VStr _ => true | _ => false end.

(** The test of the [filter] in [parseFieldMapping]. *)
Definition valid_mapping_item (item : Value) : Outcome bool :=
  if negb (truthy item) || negb (typeof_object item) then Returned false
  else
    obind (if negb (is_number (Get item "index"))
           then obind (parseInt (Get item "index"))
                  (fun n => Returned (negb (bool_decide (is_Some n))))
           else Returned false)
      (fun index_is_bad =>
    if index_is_bad then Returned false
    else if negb (truthy (Get item "name")) || negb (is_string (Get item "name"))
    then Returned false
    else Returned true).

(** The [map] of [parseFieldMapping].  The two defaults stand for NaN and
    for a name that is not a string; [valid_mapping_item] has excluded
    both. *)
Definition to_override (item : Value) : Outcome CustomFieldOverride :=
  obind (match Get item "index" with
         | VNum n => Returned n
         | v => obind (parseInt v) (fun n => Returned (default 0 n))
         end)
    (fun i =>
  Returned {| index := i;
              name := match Get item "name" with VStr s => s | _ => "" end |}).

(** Parse field mapping JSON string. *)
Definition parseFieldMapping (fieldMappingRaw : string)
  : Outcome (list CustomFieldOverride) :=
  if String.eqb fieldMappingRaw "" then Returned []
  else
    try_catch
      (match JSON_parse fieldMappingRaw with
       | None => Thrown (SyntaxError "Unexpected token in JSON")
       | Some parsedMapping =>
           match parsedMapping with
           | VArr items =>
               obind (filterM valid_mapping_item items)
                 (mapM_outcome to_override)
           | _ => Returned []
           end
       end)
      (fun _ => Returned []).

End Platform.

(** ** Asynchronous code *)

(** An [async] function over a world [W]: it runs from a state of the
    world and leaves a new one, returning or throwing. *)
Definition Async (W A : Type) : Type := W -> Outcome A * W.

Definition ret {W A} (a : A) : Async W A := fun w => (Returned a, w).

Definition throw {W A} (e : JsError) : Async W A := fun w => (Thrown e, w).

Definition bind {W A B} (m : Async W A) (k : A -> Async W B) : Async W B :=
  fun w =>
    match m w with
    | (Returned a, w') => k a w'
    | (Thrown e, w') => (Thrown e, w')
    end.

(** [try { m } catch (error) { handler(error) }] around awaited code. *)
Definition try_async {W A} (m : Async W A) (handler : JsError -> Async W A)
  : Async W A :=
  fun w =>
    match m w with
    | (Returned a, w') => (Returned a, w')
    | (Thrown e, w') => handler e w'
    end.

(** Code that throws but does not touch the world. *)
Definition lift {W A} (o : Outcome A) : Async W A := fun w => (o, w).

Declare Scope async_scope.
Delimit Scope async_scope with async.
Notation "'let!' x ':=' m 'in' k" := (bind m (fun x => k))
  (at level 10, x name, m at level 100, k at level 200) : async_scope.
Notation "'do!' m 'in' k" := (bind m (fun _ => k))
  (at level 10, m at level 100, k at level 200) : async_scope.

(** A world in which time can pass:
    [await new Promise(resolve => setTimeout(resolve, ms))]. *)
Class Timer (W : Type) := sleep : Q -> W -> W.

(** ** Retry Wrapper: [withRetry] *)

Section Retry.
Context {W T : Type} `{Timer W}.

(** [delay * Math.pow(1.5, attempt - 1)]. *)
Definition waitTime (delay : Q) (attempt : Z) : Q :=
  (delay * (3 # 2) ^ (attempt - 1))%Q.

(** The [for] loop of [withRetry], entered at [attempt] with [lastError];
    [fuel] bounds the iterations that remain.  After the loop:
    [throw lastError || new Error(...)]. *)
Fixpoint withRetry_loop (operation : Async W T) (retries : Z) (delay : Q)
    (operationName : string) (fuel : nat) (attempt : Z)
    (lastError : option JsError) : Async W T :=
  let exhausted : Async W T :=
    throw (default
             (Error ("All " +:+ Number_toString retries
                     +:+ " retry attempts for " +:+ operationName
                     +:+ " failed"))
             lastError) in
  match fuel with
  | O => exhausted
  | S fuel' =>
      if attempt <=? retries then
        fun w =>
          match operation w with
          | (Returned result, w') => (Returned result, w')
          | (Thrown error, w') =>
              withRetry_loop operation retries delay operationName fuel'
                (attempt + 1) (Some error)
                (if attempt <? retries
                 then sleep (waitTime delay attempt) w'
                 else w')
          end
      else exhausted
  end.

(** Try an operation with multiple retries. *)
Definition withRetry (operation : Async W T) (retries : Z) (delay : Q)
    (operationName : string) : Async W T :=
  withRetry_loop operation retries delay operationName
    (Z.to_nat retries) 1 None.

End Retry.

(** A world for watching one operation under [withRetry]: how often it was
    invoked and which waits were asked of the timer, oldest first. *)
Record Probe := mkProbe {
  invocations : nat;
  waits : list Q
}.

#[global] Instance Probe_timer : Timer Probe :=
  fun ms w => {| invocations := invocations w; waits := waits w ++ [ms] |}.

(** An operation given by the outcome of each of its invocations, the first
    being invocation 1. *)
Definition scripted {T} (script : nat -> Outcome T) : Async Probe T :=
  fun w =>
    (script (S (invocations w)),
     {| invocations := S (invocations w); waits := waits w |}).

Definition fresh_probe : Probe := {| invocations := 0; waits := [] |}.

(** ** The network *)

Inductive Method := GET | POST.

(** The JSON body of the set-parameters call. *)
Record ParametersPayload := mkPayload {
  payload_sheetIndex : Z;
  payload_headers_index : Z;
  payload_mapping : gmap string string;
  payload_export_fields : list string
}.

Inductive RequestBody :=
| NoBody
| FormData (file : list Byte.byte)
| JsonBody (payload : ParametersPayload).

(** A request as the node configures it: method, URL, timeout in
    milliseconds, the authentication headers it spreads into the call, and
    the body.  The multipart content type of an upload goes with its
    [FormData] body. *)
Record Request := mkRequest {
  req_method : Method;
  req_url : string;
  req_timeout : Z;
  req_headers : list (string * string);
  req_body : RequestBody
}.

(** What has happened so far in a run, oldest first: requests sent and
    waits between retries. *)
Inductive Event :=
| Sent (r : Request)
| Slept (ms : Q).

Definition World := list Event.

#[global] Instance World_timer : Timer World := fun ms w => w ++ [Slept ms].

Inductive AxiosReply (D : Type) :=
| Resolved (r : Response D)
| Rejected (e : AxiosErr).
Arguments Resolved {D}.
Arguments Rejected {D}.

(** The file server and the conversion service: what answers a request,
    given everything that happened before it. *)
Record Net := mkNet {
  fetch_file : World -> Request -> AxiosReply (list Byte.byte);
  call_api : World -> Request -> AxiosReply Value
}.

Definition settle {D} (reply : AxiosReply D) : Outcome (Response D) :=
  match reply with
  | Resolved r => Returned r
  | Rejected e => Thrown (AxiosError e)
  end.

(** [axios.get(url, { responseType: 'arraybuffer', ... })]. *)
Definition axios_arraybuffer (net : Net) (r : Request)
  : Async World (Response (list Byte.byte)) :=
  fun w => (settle (fetch_file net w r), w ++ [Sent r]).

(** [axios.get] and [axios.post] to the conversion service. *)
Definition axios_call (net : Net) (r : Request) : Async World (Response Value) :=
  fun w => (settle (call_api net w r), w ++ [Sent r]).

(** ** Numbers in messages *)

(** The hundredths that [x.toFixed(2)] prints for [x >= 0]: the nearest,
    the larger one on a tie. *)
Definition hundredths (x : Q) : Z := Qfloor (x * 100 + (1 # 2))%Q.

Definition two_digits (n : Z) : string :=
  if n <? 10 then "0" +:+ Number_toString n else Number_toString n.

(** [x.toFixed(2)] for [x >= 0]. *)
Definition toFixed2 (x : Q) : string :=
  Number_toString (hundredths x / 100) +:+ "." +:+ two_digits (hundredths x mod 100).

(** [n / (1024 * 1024)]. *)
Definition megabytes (n : Z) : Q := (inject_Z n / inject_Z (1024 * 1024))%Q.

(** [Buffer.prototype.toJSON], which [JSON.stringify] sees. *)
Definition Buffer_toJSON (bytes : list Byte.byte) : Value :=
  VObj [("type", VStr "Buffer");
        ("data", VArr (map (fun b => VNum (Z.of_N (Byte.to_N b))) bytes))].

(** ** Conversion Client *)

(** The parameters of the node, as [getNodeParameter] returns them. *)
Record NodeParameters := mkParameters {
  param_apiEndpoint : string;
  param_fileUrl : string;
  param_exportFields : string;
  param_fieldMapping : string;
  param_headersIndex : Z;
  param_sheetIndex : Z;
  param_authentication : bool;
  param_apiKey : string;
  param_apiKeyHeaderName : string;
  param_advancedOptions : bool;
  param_timeout : Z;
  param_retryAttempts : Z;
  param_debugMode : bool
}.

(** An output item, [{ json: record }]. *)
Record INodeExecutionData := mkItem { json : Value }.

Section Client.

Variable JSON_parse : string -> option Value.
Variable URL_parse : string -> option URL.
Variable JSON_stringify : Value -> string.
Variable net : Net.

Local Open Scope async_scope.

(** The text every [catch] of the client builds from an axios error:
    [HTTP ${statusCode} ${statusText}] and [Response: ${responseData}],
    with [error.response?.status || 'unknown'],
    [error.response?.statusText || 'unknown'] and
    [error.response?.data ? JSON.stringify(error.response.data) : 'no data']. *)
Definition statusCode_of (e : AxiosErr) : string :=
  match response e with
  | Some r => if status r =? 0 then "unknown" else Number_toString (status r)
  | None => "unknown"
  end.

Definition statusText_of (e : AxiosErr) : string :=
  match response e with
  | Some r => if String.eqb (statusText r) "" then "unknown" else statusText r
  | None => "unknown"
  end.

Definition responseData_of (e : AxiosErr) : string :=
  match response e with
  | Some r =>
      match data r with
      | Buffer bytes => JSON_stringify (Buffer_toJSON bytes)
      | Json v => if truthy v then JSON_stringify v else "no data"
      end
  | None => "no data"
  end.

Definition http_failure (what : string) (e : AxiosErr) : string :=
  what +:+ ": HTTP " +:+ statusCode_of e +:+ " " +:+ statusText_of e
  +:+ ". Response: " +:+ responseData_of e.

(** Verify that the API endpoint is available and responds correctly. *)
Definition verifyApiEndpoint (apiEndpoint : string) (timeout : Z)
  : Async World bool :=
  try_async
    (let baseEndpoint := strip_trailing_slashes apiEndpoint in
     let! response :=
       try_async
         (axios_call net (mkRequest GET (baseEndpoint +:+ "/health") 10000 [] NoBody))
         (fun _ => axios_call net (mkRequest GET baseEndpoint 5000 [] NoBody)) in
     ret true)
    (fun _ => ret false).

(** Upload the file to conversion service and get document ID.  The
    identifier is returned as the string every later use turns it into. *)
Definition uploadFileAndGetDocumentId (apiEndpoint : string)
    (fileData : list Byte.byte) (timeoutSeconds : Z)
    (authHeaders : list (string * string)) : Async World string :=
  let size := megabytes (Z.of_nat (length fileData)) in
  let fileSizeMB := toFixed2 size in
  try_async
    (if String.eqb apiEndpoint "" then
       throw (Error "API endpoint is empty or undefined")
     else
       let! isApiAvailable := verifyApiEndpoint apiEndpoint timeoutSeconds in
       let baseEndpoint := strip_trailing_slashes apiEndpoint in
       let uploadUrl := baseEndpoint +:+ "/upload" in
       let calculatedTimeout :=
         Z.max timeoutSeconds
           (Qceiling (inject_Z (hundredths size) / 100 / 10)%Q * 60) in
       let! uploadResult :=
         withRetry
           (axios_call net
              (mkRequest POST uploadUrl (calculatedTimeout * 1000)
                 (("Connection", "keep-alive") :: authHeaders)
                 (FormData fileData)))
           3 5000%Q "file upload" in
       if negb (truthy (data uploadResult)) then
         throw (Error "Failed to get document ID from conversion service: No response data received")
       else if negb (truthy (Get (data uploadResult) "id"))
               && negb (truthy (Get (data uploadResult) "documentId")) then
         throw (Error ("Failed to get document ID from conversion service: Response missing 'documentId' field. Response: "
                       +:+ JSON_stringify (data uploadResult)))
       else
         let documentId :=
           or_else (Get (data uploadResult) "id")
                   (Get (data uploadResult) "documentId") in
         lift (interpolate documentId))
    (fun error =>
       match error with
       | AxiosError e =>
           if bool_decide (code e = Some "ECONNABORTED") then
             throw (Error ("Connection timed out when uploading file (" +:+ fileSizeMB
                           +:+ " MB). Please increase the timeout value or check server capacity."))
           else if bool_decide (code e = Some "ECONNREFUSED")
                   || bool_decide (code e = Some "ENOTFOUND") then
             throw (Error ("Cannot connect to the conversion service at " +:+ apiEndpoint
                           +:+ ". Please verify the API URL is correct and the service is running."))
           else if bool_decide (status <$> response e = Some 413) then
             throw (Error ("File size (" +:+ fileSizeMB
                           +:+ " MB) exceeds the conversion service limit. Please use a smaller file."))
           else
             throw (Error ("Failed to upload file to conversion service: HTTP "
                           +:+ statusCode_of e +:+ " " +:+ statusText_of e
                           +:+ ". URL: " +:+ apiEndpoint
                           +:+ ". Response: " +:+ responseData_of e))
       | _ =>
           throw (Error ("Error uploading file to conversion service: "
                         +:+ error_message error +:+ ". URL: " +:+ apiEndpoint))
       end).

(** The two accepted shapes of a list response: the array itself, or an
    object holding it under [key]. *)
Definition list_of_response (key : string) (d : Value) : option (list Value) :=
  match d with
  | VArr items => Some items
  | _ => match Get d key with
         | VArr items => Some items
         | _ => None
         end
  end.

(** Get sheet names from the document. *)
Definition getSheets (apiEndpoint documentId : string) (timeoutSeconds : Z)
    (authHeaders : list (string * string)) : Async World (list Value) :=
  try_async
    (let baseEndpoint := strip_trailing_slashes apiEndpoint in
     let! response :=
       axios_call net
         (mkRequest GET
            (baseEndpoint +:+ "/documents/" +:+ documentId +:+ "/sheets")
            (timeoutSeconds * 1000) authHeaders NoBody) in
     if negb (truthy (data response)) then
       throw (Error "Failed to get sheet names: No response data received")
     else
       match list_of_response "sheets" (data response) with
       | None => throw (Error "Failed to get sheet names: Unexpected response format")
       | Some sheets =>
           match Array_join ", " sheets with
           | None => throw cannot_convert
           | Some _ => ret sheets
           end
       end)
    (fun error =>
       match error with
       | AxiosError e => throw (Error (http_failure "Failed to get sheets" e))
       | _ => throw error
       end).

(** What [getFields] shows of a field in its log line. *)
Definition fieldDisplay (field : Value) : Value :=
  match field with
  | VStr s => VStr (trim s)
  | VArr _ | VObj _ =>
      if truthy (Get field "name") then Get field "name"
      else if truthy (Get field "id") then Get field "id"
      else if truthy (Get field "title") then Get field "title"
      else VStr (JSON_stringify field)
  | _ => VStr (trim (default "" (ToString field)))
  end.

(** The URL of the list-fields call. *)
Definition fieldsUrl (baseEndpoint documentId : string)
    (sheetIndex headersIndex : Z) : string :=
  baseEndpoint +:+ "/documents/" +:+ documentId
  +:+ "/fields?headers_index=" +:+ Number_toString headersIndex
  +:+ "&sheetIndex=" +:+ Number_toString sheetIndex.

(** Get field names from the sheet. *)
Definition getFields (apiEndpoint documentId : string)
    (sheetIndex headersIndex timeoutSeconds : Z)
    (authHeaders : list (string * string)) : Async World (list Value) :=
  try_async
    (let baseEndpoint := strip_trailing_slashes apiEndpoint in
     let! response :=
       axios_call net
         (mkRequest GET
            (fieldsUrl baseEndpoint documentId sheetIndex headersIndex)
            (timeoutSeconds * 1000) authHeaders NoBody) in
     if negb (truthy (data response)) then
       throw (Error "Failed to get fields: No response data received")
     else
       match list_of_response "fields" (data response) with
       | None => throw (Error "Failed to get fields: Unexpected response format")
       | Some fields =>
           match Array_join ", " (map fieldDisplay fields) with
           | None => throw cannot_convert
           | Some _ => ret fields
           end
       end)
    (fun error =>
       match error with
       | AxiosError e => throw (Error (http_failure "Failed to get fields" e))
       | _ => throw error
       end).

(** The name [setParameters] sends for a field of the mapping, before
    [.trim()]. *)
Definition fieldName_of (field : Value) : Value :=
  match field with
  | VStr s => field
  | VArr _ | VObj _ =>
      if truthy (Get field "name") then Get field "name"
      else if truthy (Get field "id") then Get field "id"
      else if truthy (Get field "title") then Get field "title"
      else if truthy (Get field "original") then Get field "original"
      else VStr (JSON_stringify field)
  | _ => VStr (default "" (ToString field))
  end.

(** [fieldName.trim()]: only a string has the method. *)
Definition trimmed_name (field : Value) : Outcome string :=
  match fieldName_of field with
  | VStr s => Returned (trim s)
  | _ => Thrown (TypeError "fieldName.trim is not a function")
  end.

(** [Object.keys(mapping).forEach(key => fieldMapping[key] = ...)]. *)
Definition fieldMapping_of (mapping : gmap string Value)
  : Outcome (gmap string string) :=
  obind (mapM_outcome
           (fun kv => obind (trimmed_name (snd kv))
                        (fun s => Returned (fst kv, s)))
           (map_to_list mapping))
    (fun kvs => Returned (list_to_map kvs)).

(** Set parameters for the conversion. *)
Definition setParameters (apiEndpoint documentId : string)
    (sheetIndex headersIndex : Z) (mapping : gmap string Value)
    (exportFieldIndexes : list Z) (timeoutSeconds : Z)
    (authHeaders : list (string * string)) : Async World unit :=
  try_async
    (let exportFields := map Number_toString exportFieldIndexes in
     let! fieldMapping := lift (fieldMapping_of mapping) in
     let payload :=
       {| payload_sheetIndex := sheetIndex;
          payload_headers_index := headersIndex;
          payload_mapping := fieldMapping;
          payload_export_fields := exportFields |} in
     let baseEndpoint := strip_trailing_slashes apiEndpoint in
     let! response :=
       axios_call net
         (mkRequest POST
            (baseEndpoint +:+ "/documents/" +:+ documentId +:+ "/parameters")
            (timeoutSeconds * 1000) authHeaders (JsonBody payload)) in
     if negb (truthy (data response))
        || negb (truthy (Get (data response) "success")) then
       throw (Error ("Failed to set parameters: "
                     +:+ JSON_stringify (data response)))
     else ret tt)
    (fun error =>
       match error with
       | AxiosError e => throw (Error (http_failure "Failed to set parameters" e))
       | _ => throw error
       end).

(** Get the exported data. *)
Definition getExportedData (apiEndpoint documentId : string)
    (timeoutSeconds : Z) (authHeaders : list (string * string))
  : Async World Value :=
  try_async
    (let baseEndpoint := strip_trailing_slashes apiEndpoint in
     let! response :=
       axios_call net
         (mkRequest GET
            (baseEndpoint +:+ "/documents/" +:+ documentId +:+ "/export")
            (timeoutSeconds * 1000) authHeaders NoBody) in
     if negb (truthy (data response)) then
       throw (Error "Failed to get exported data: No response data received")
     else ret (data response))
    (fun error =>
       match error with
       | AxiosError e => throw (Error (http_failure "Failed to get exported data" e))
       | _ => throw error
       end).

(** ** Workflow Orchestrator: [execute] *)

(** [retryAttempts] as [execute] reads it. *)
Definition retryAttempts_of (p : NodeParameters) : Z :=
  if param_advancedOptions p then param_retryAttempts p else 3.

(** The authentication headers of a run. *)
Definition authHeaders_of (p : NodeParameters) : list (string * string) :=
  let apiKey := if param_authentication p then param_apiKey p else "" in
  let apiKeyHeaderName :=
    if param_authentication p then param_apiKeyHeaderName p else "" in
  if param_authentication p && negb (String.eqb apiKey "")
     && negb (String.eqb apiKeyHeaderName "")
  then [(apiKeyHeaderName, apiKey)]
  else [].

(** The size in megabytes that [execute] computes for a download:
    from the [content-length] header when it is there, else from the
    bytes received.  [None] is NaN. *)
Definition fileSize_of (fileResponse : Response (list Byte.byte)) : option Q :=
  match headers fileResponse !! "content-length" with
  | Some h =>
      if negb (String.eqb h "")
      then megabytes <$> parseInt_string h
      else Some (megabytes (Z.of_nat (length (data fileResponse))))
  | None => Some (megabytes (Z.of_nat (length (data fileResponse))))
  end.

(** [fileSize > 50]. *)
Definition exceeds_limit (fileSize : option Q) : bool :=
  match fileSize with
  | Some q => negb (Qle_bool q 50)
  | None => false
  end.

(** The name of a sheet in the log line of available sheets; only
    [String(sheetObj.name)] can throw. *)
Definition sheet_label (idx : nat) (sheet : Value) : Outcome string :=
  let numbered := "Sheet " +:+ Number_toString (Z.of_nat idx) in
  match sheet with
  | VStr s => Returned s
  | VArr _ | VObj _ =>
      if truthy (Get sheet "name") then interpolate (Get sheet "name")
      else Returned numbered
  | _ => Returned numbered
  end.

(** Step 7 of [execute]: the output items of an exported payload. *)
Definition output_items (jsonData : Value) : list INodeExecutionData :=
  match jsonData with
  | VArr records => map mkItem records
  | _ => [mkItem jsonData]
  end.

(** The [catch] that closes [execute]. *)
Definition execute_catch (error : JsError)
  : Async World (list (list INodeExecutionData)) :=
  match error with
  | AxiosError e =>
      let from_service :=
        match response e with
        | Some r => match data r with
                    | Json v => Get v "error"
                    | Buffer _ => VUndefined
                    end
        | None => VUndefined
        end in
      let errorMessage := or_else from_service (VStr (message e)) in
      let! text := lift (interpolate errorMessage) in
      throw (NodeApiError text
               (match response e with Some r => status r | None => 0 end)
               (match response e with
                | Some r => statusText r
                | None => "Unknown Error"
                end))
  | _ => throw error
  end.

Definition execute (p : NodeParameters)
  : Async World (list (list INodeExecutionData)) :=
  let fileUrl := param_fileUrl p in
  let headersIndex := param_headersIndex p in
  let sheetIndex := param_sheetIndex p in
  let timeout := param_timeout p in
  let retryAttempts := retryAttempts_of p in
  let exportFieldIndices := parseExportFields (param_exportFields p) in
  try_async
    (if String.eqb (param_apiEndpoint p) "" then
       throw (NodeOperationError "XLS Service URL is required")
     else
       let apiEndpoint := strip_trailing_slashes (param_apiEndpoint p) in
       let! apiOk := lift (isValidUrl URL_parse apiEndpoint) in
       if negb apiOk then
         throw (NodeOperationError ("Invalid XLS Service URL: " +:+ apiEndpoint))
       else
       let! fileOk := lift (isValidUrl URL_parse fileUrl) in
       if negb fileOk then
         throw (NodeOperationError ("Invalid File URL: " +:+ fileUrl))
       else
       let authHeaders := authHeaders_of p in
       (* 1. Download the XLSX file from the provided URL *)
       let! fileResponse :=
         withRetry
           (axios_arraybuffer net
              (mkRequest GET fileUrl (timeout * 1000) authHeaders NoBody))
           retryAttempts 5000%Q "file download" in
       let fileSize := fileSize_of fileResponse in
       (* Check file size limit (50MB) *)
       if exceeds_limit fileSize then
         throw (NodeOperationError "File size exceeds 50 MB limit")
       else
       (* 2. Upload the file to the conversion service and get document ID *)
       let! documentId :=
         uploadFileAndGetDocumentId apiEndpoint (data fileResponse)
           timeout authHeaders in
       (* 3. Get sheet names *)
       let! sheets :=
         withRetry (getSheets apiEndpoint documentId timeout authHeaders)
           retryAttempts 2000%Q "get sheets" in
       if Z.of_nat (length sheets) =? 0 then
         throw (NodeOperationError "No sheets found in the Excel file")
       else if (sheetIndex <? 0) || (Z.of_nat (length sheets) <=? sheetIndex) then
         throw (NodeOperationError
                  ("Invalid sheet index: " +:+ Number_toString sheetIndex
                   +:+ ". File has " +:+ Number_toString (Z.of_nat (length sheets))
                   +:+ " sheets (indices 0-"
                   +:+ Number_toString (Z.of_nat (length sheets) - 1) +:+ ")"))
       else
       let! availableSheets :=
         lift (mapM_outcome (fun x => x) (imap sheet_label sheets)) in
       (* 4. Get field names *)
       let! fields :=
         withRetry
           (getFields apiEndpoint documentId sheetIndex headersIndex
              timeout authHeaders)
           retryAttempts 2000%Q "get fields" in
       if Z.of_nat (length fields) =? 0 then
         throw (NodeOperationError
                  ("No fields found in sheet at index " +:+ Number_toString sheetIndex
                   +:+ ", row " +:+ Number_toString (headersIndex + 1)))
       else
       (* 5. Set parameters (mapping and export fields) *)
       let! customMappings :=
         lift (parseFieldMapping JSON_parse (param_fieldMapping p)) in
       let fieldMappings :=
         createFieldMappings fields exportFieldIndices customMappings in
       do! withRetry
             (setParameters apiEndpoint documentId sheetIndex headersIndex
                (mapping fieldMappings) (exportFieldIndexes fieldMappings)
                timeout authHeaders)
             retryAttempts 2000%Q "set parameters" in
       (* 6. Get the exported JSON data *)
       let! jsonData :=
         withRetry (getExportedData apiEndpoint documentId timeout authHeaders)
           retryAttempts 2000%Q "get exported data" in
       (* 7. Process the JSON data and set as output *)
       ret [output_items jsonData])
    execute_catch.

End Client.

(** ** The platform, modelled for the examples

    The theorems below hold for every [JSON.parse], [new URL] and
    [JSON.stringify].  The examples run the node on concrete inputs and
    need concrete ones: the three models here follow the standards on the
    inputs described with each. *)

Fixpoint string_drop (n : nat) (s : string) : string :=
  match n, s with
  | O, _ => s
  | S n', String _ r => string_drop n' r
  | S _, EmptyString => EmptyString
  end.

Definition is_digit (c : ascii) : bool := bool_decide (is_Some (digit_of c)).

Definition is_alpha (c : ascii) : bool :=
  let n := nat_of_ascii c in
  ((65 <=? n)%nat && (n <=? 90)%nat) || ((97 <=? n)%nat && (n <=? 122)%nat).

Definition to_lower (c : ascii) : ascii :=
  let n := nat_of_ascii c in
  if ((65 <=? n)%nat && (n <=? 90)%nat)%bool then ascii_of_nat (n + 32) else c.

Fixpoint string_map (f : ascii -> ascii) (s : string) : string :=
  match s with
  | EmptyString => EmptyString
  | String c r => String (f c) (string_map f r)
  end.

Fixpoint string_forallb (f : ascii -> bool) (s : string) : bool :=
  match s with
  | EmptyString => true
  | String c r => f c && string_forallb f r
  end.

(** The part of [s] before the first character that satisfies [stop], and
    the rest from that character on. *)
Fixpoint span_until (stop : ascii -> bool) (s : string) : string * string :=
  match s with
  | EmptyString => (EmptyString, EmptyString)
  | String c r =>
      if stop c then (EmptyString, s)
      else let (a, b) := span_until stop r in (String c a, b)
  end.

(** *** [new URL(input)] without a base

    After the URL standard, for the special schemes with an authority
    ([http], [https], [ftp], [ws], [wss]) and hosts written in ASCII without
    percent escapes; a host that ends in a number must be a dotted decimal
    IPv4 address.  IPv6 literals, percent escapes and non-ASCII hosts are
    outside this model, which reports them as failures.  Other schemes give
    their protocol and an opaque rest. *)

Definition is_special_scheme (scheme : string) : bool :=
  bool_decide (scheme ∈ ["http"; "https"; "ftp"; "ws"; "wss"]).

Definition is_slash (c : ascii) : bool :=
  Ascii.eqb c "/" || Ascii.eqb c "\".

Fixpoint skip_slashes (s : string) : string :=
  match s with
  | String c r => if is_slash c then skip_slashes r else s
  | EmptyString => EmptyString
  end.

Definition ends_authority (c : ascii) : bool :=
  is_slash c || Ascii.eqb c "?" || Ascii.eqb c "#".

(** The text after the last [@] of an authority. *)
Fixpoint after_last_at (s : string) : string :=
  match s with
  | EmptyString => EmptyString
  | String c r =>
      if string_forallb (fun x => negb (Ascii.eqb x "@")) r
      then (if Ascii.eqb c "@" then r else s)
      else after_last_at r
  end.

Definition forbidden_host_char (c : ascii) : bool :=
  let n := nat_of_ascii c in
  (n <=? 32)%nat || (127 <=? n)%nat
  || bool_decide (c ∈ [dquote;"#";"%";"/";":";"<";">";"?";"@";"[";"\";"]";"^";"|"]%char).

Fixpoint split_dot (s : string) : list string :=
  match s with
  | EmptyString => [EmptyString]
  | String c r =>
      if Ascii.eqb c "."
      then EmptyString :: split_dot r
      else match split_dot r with
           | p :: ps => String c p :: ps
           | [] => [String c EmptyString]
           end
  end.

Definition all_digits (s : string) : bool :=
  negb (String.eqb s "") && string_forallb is_digit s.

(** A host that ends in a number is an IPv4 address: at most four decimal
    parts, each below 256, the last one filling the bytes that remain. *)
Definition valid_host (h : string) : bool :=
  negb (String.eqb h "")
  && string_forallb (fun c => negb (forbidden_host_char c)) h
  && (let parts := split_dot h in
      let parts := match reverse parts with
                   | EmptyString :: (_ :: _) as rest => reverse rest
                   | _ => parts
                   end in
      match last parts with
      | Some l =>
          if all_digits l then
            forallb all_digits parts
            && (length parts <=? 4)%nat
            && forallb (fun q => default 0 (digits q None) <? 256)
                 (take (length parts - 1) parts)
            && (default 0 (digits l None) <? 256 ^ (5 - Z.of_nat (length parts)))
          else true
      | None => true
      end).

Definition valid_port (p : string) : bool :=
  String.eqb p ""
  || (string_forallb is_digit p && (default 0 (digits p None) <? 65536)).

Definition is_c0_or_space (c : ascii) : bool := (nat_of_ascii c <=? 32)%nat.

Definition is_tab_or_newline (c : ascii) : bool :=
  bool_decide (nat_of_ascii c ∈ [9; 10; 13]%nat).

Fixpoint trimStart_c0 (s : string) : string :=
  match s with
  | String c r => if is_c0_or_space c then trimStart_c0 r else s
  | EmptyString => EmptyString
  end.

Fixpoint trimEnd_c0 (s : string) : string :=
  match s with
  | EmptyString => EmptyString
  | String c r =>
      match trimEnd_c0 r with
      | EmptyString => if is_c0_or_space c then EmptyString else String c EmptyString
      | r' => String c r'
      end
  end.

Fixpoint string_filter (keep : ascii -> bool) (s : string) : string :=
  match s with
  | EmptyString => EmptyString
  | String c r => if keep c then String c (string_filter keep r) else string_filter keep r
  end.

Definition scheme_char (c : ascii) : bool :=
  is_alpha c || is_digit c || bool_decide (c ∈ ["+"; "-"; "."]%char).

Definition URL_parse_model (input : string) : option URL :=
  let input :=
    string_filter (fun c => negb (is_tab_or_newline c))
      (trimEnd_c0 (trimStart_c0 input)) in
  match input with
  | EmptyString => None
  | String c _ =>
      if is_alpha c then
        let (scheme, rest) := span_until (fun x => negb (scheme_char x)) input in
        match rest with
        | String ":" rest' =>
            let scheme := string_map to_lower scheme in
            if is_special_scheme scheme then
              let (authority, _) := span_until ends_authority (skip_slashes rest') in
              let hostport := after_last_at authority in
              let (h, colon_port) := span_until (fun x => Ascii.eqb x ":") hostport in
              let port := string_drop 1 colon_port in
              if valid_host h && valid_port port
              then Some {| protocol := scheme +:+ ":";
                           hostname := string_map to_lower h |}
              else None
            else Some {| protocol := scheme +:+ ":"; hostname := "" |}
        | _ => None
        end
      else None
  end.

(** *** [JSON.parse]

    After the JSON grammar, for texts whose numbers are integers and whose
    strings stay below code unit 256; a fraction, an exponent or a [\u]
    escape of a higher code unit is outside this model, which reports it as
    a failure. *)

Definition is_json_space (c : ascii) : bool :=
  bool_decide (nat_of_ascii c ∈ [32; 9; 10; 13]%nat).

Fixpoint skip_json_space (s : string) : string :=
  match s with
  | String c r => if is_json_space c then skip_json_space r else s
  | EmptyString => EmptyString
  end.

Definition hex_of (c : ascii) : option Z :=
  let n := Z.of_nat (nat_of_ascii c) in
  if (48 <=? n) && (n <=? 57) then Some (n - 48)
  else if (65 <=? n) && (n <=? 70) then Some (n - 55)
  else if (97 <=? n) && (n <=? 102) then Some (n - 87)
  else None.

(** The characters of a string literal after its opening quote, up to the
    closing one. *)
Fixpoint parse_string_body (s : string) : option (string * string) :=
  match s with
  | EmptyString => None
  | String "\" (String e r) =>
      let continue (c : ascii) (rest : string) :=
        match parse_string_body rest with
        | Some (body, after) => Some (String c body, after)
        | None => None
        end in
      if Ascii.eqb e dquote then continue dquote r
      else
      match e with
      | "\"%char => continue "\"%char r
      | "/"%char => continue "/"%char r
      | "b"%char => continue (ascii_of_nat 8) r
      | "f"%char => continue (ascii_of_nat 12) r
      | "n"%char => continue (ascii_of_nat 10) r
      | "r"%char => continue (ascii_of_nat 13) r
      | "t"%char => continue (ascii_of_nat 9) r
      | "u"%char =>
          match r with
          | String "0" (String "0" (String h1 (String h2 r'))) =>
              match hex_of h1, hex_of h2 with
              | Some a, Some b =>
                  match parse_string_body r' with
                  | Some (body, after) =>
                      Some (String (ascii_of_nat (Z.to_nat (16 * a + b))) body, after)
                  | None => None
                  end
              | _, _ => None
              end
          | _ => None
          end
      | _ => None
      end
  | String c r =>
      if Ascii.eqb c dquote then Some (EmptyString, r)
      else if Ascii.eqb c "\" then None
      else if (nat_of_ascii c <? 32)%nat then None
      else match parse_string_body r with
           | Some (body, after) => Some (String c body, after)
           | None => None
           end
  end.

(** An integer literal: no leading zero, nothing of a fraction or an
    exponent after it. *)
Definition parse_number (s : string) : option (Value * string) :=
  let (neg, s') := match s with
                   | String "-" r => (true, r)
                   | _ => (false, s)
                   end in
  let (ds, rest) := span_until (fun c => negb (is_digit c)) s' in
  if negb (all_digits ds) then None
  else if startsWith ds "0" && negb (String.eqb ds "0") then None
  else match rest with
       | String c _ =>
           if bool_decide (c ∈ ["."; "e"; "E"]%char) then None
           else Some (VNum ((if neg then Z.opp else id) (default 0 (digits ds None))), rest)
       | EmptyString =>
           Some (VNum ((if neg then Z.opp else id) (default 0 (digits ds None))), rest)
       end.

Fixpoint parse_value (fuel : nat) (s : string) : option (Value * string) :=
  match fuel with
  | O => None
  | S fuel' =>
      match skip_json_space s with
      | EmptyString => None
      | String c r as s1 =>
          if startsWith s1 "null" then Some (VNull, string_drop 4 s1)
          else if startsWith s1 "true" then Some (VBool true, string_drop 4 s1)
          else if startsWith s1 "false" then Some (VBool false, string_drop 5 s1)
          else if Ascii.eqb c dquote then
            match parse_string_body r with
            | Some (str, after) => Some (VStr str, after)
            | None => None
            end
          else if Ascii.eqb c "[" then
            match skip_json_space r with
            | String "]" after => Some (VArr [], after)
            | _ =>
                (fix elements (n : nat) (s : string) : option (Value * string) :=
                   match n with
                   | O => None
                   | S n' =>
                       match parse_value fuel' s with
                       | Some (v, s2) =>
                           match skip_json_space s2 with
                           | String "]" after => Some (VArr [v], after)
                           | String "," s3 =>
                               match elements n' s3 with
                               | Some (VArr vs, after) => Some (VArr (v :: vs), after)
                               | _ => None
                               end
                           | _ => None
                           end
                       | None => None
                       end
                   end) fuel' r
            end
          else if Ascii.eqb c "{" then
            match skip_json_space r with
            | String "}" after => Some (VObj [], after)
            | _ =>
                (fix members (n : nat) (s : string) : option (Value * string) :=
                   match n with
                   | O => None
                   | S n' =>
                       match skip_json_space s with
                       | String (Ascii false true false false false true false false) s1 =>
                           match parse_string_body s1 with
                           | Some (key, s2) =>
                               match skip_json_space s2 with
                               | String ":" s3 =>
                                   match parse_value fuel' s3 with
                                   | Some (v, s4) =>
                                       match skip_json_space s4 with
                                       | String "}" after => Some (VObj [(key, v)], after)
                                       | String "," s5 =>
                                           match members n' s5 with
                                           | Some (VObj kvs, after) =>
                                               Some (VObj ((key, v) :: kvs), after)
                                           | _ => None
                                           end
                                       | _ => None
                                       end
                                   | None => None
                                   end
                               | _ => None
                               end
                           | None => None
                           end
                       | _ => None
                       end
                   end) fuel' r
            end
          else parse_number s1
      end
  end.

Definition JSON_parse_model (text : string) : option Value :=
  match parse_value (S (String.length text)) text with
  | Some (v, rest) =>
      if String.eqb (skip_json_space rest) "" then Some v else None
  | None => None
  end.

(** *** [JSON.stringify]

    For data whose object keys are distinct and are not array indices, so
    that the properties are written in the order they are listed. *)

Definition hex_digit (n : Z) : ascii :=
  if n <? 10 then ascii_of_nat (Z.to_nat (48 + n))
  else ascii_of_nat (Z.to_nat (87 + n)).

Fixpoint quote_body (s : string) : string :=
  match s with
  | EmptyString => EmptyString
  | String c r =>
      let n := Z.of_nat (nat_of_ascii c) in
      (if Ascii.eqb c dquote then String "\" (String dquote "")
       else if Ascii.eqb c "\" then "\\"
       else if n =? 8 then "\b"
       else if n =? 12 then "\f"
       else if n =? 10 then "\n"
       else if n =? 13 then "\r"
       else if n =? 9 then "\t"
       else if n <? 32 then
         "\u00" +:+ String (hex_digit (n / 16)) (String (hex_digit (n mod 16)) "")
       else String c "")
      +:+ quote_body r
  end.

Definition quote (s : string) : string :=
  String dquote (quote_body s +:+ String dquote "").

Fixpoint JSON_stringify_model (v : Value) : string :=
  match v with
  | VUndefined => "undefined"
  | VNull => "null"
  | VBool true => "true"
  | VBool false => "false"
  | VNum n => Number_toString n
  | VStr s => quote s
  | VArr items =>
      "[" +:+ (fix elements (l : list Value) : string :=
                 match l with
                 | [] => ""
                 | x :: rest =>
                     (match x with
                      | VUndefined => "null"
                      | _ => JSON_stringify_model x
                      end)
                     +:+ match rest with
                         | [] => ""
                         | _ => "," +:+ elements rest
                         end
                 end) items +:+ "]"
  | VObj props =>
      "{" +:+ (fix members (l : list (string * Value)) : string :=
                 match l with
                 | [] => ""
                 | (k, VUndefined) :: rest => members rest
                 | (k, x) :: rest =>
                     quote k +:+ ":" +:+ JSON_stringify_model x
                     +:+ match rest with
                         | [] => ""
                         | _ => "," +:+ members rest
                         end
                 end) props +:+ "}"
  end.

(** ** A conversion service for the examples

    A file server that answers with one reply, and a service that answers
    by method and URL from a table, with 404 for anything else; [outage]
    says which requests fail to connect at a given moment. *)

Definition not_found : AxiosErr :=
  {| code := Some "ERR_BAD_REQUEST";
     response := Some (mkResponse 404 "Not Found" ∅ (Json VNull));
     message := "Request failed with status code 404" |}.

Definition refused : AxiosErr :=
  {| code := Some "ECONNREFUSED";
     response := None;
     message := "connect ECONNREFUSED" |}.

Definition Method_eqb (a b : Method) : bool :=
  match a, b with
  | GET, GET | POST, POST => true
  | _, _ => false
  end.

Fixpoint route (routes : list (Method * string * Value)) (r : Request)
  : AxiosReply Value :=
  match routes with
  | [] => Rejected not_found
  | (m, u, v) :: rest =>
      if Method_eqb m (req_method r) && String.eqb u (req_url r)
      then Resolved (mkResponse 200 "OK" ∅ v)
      else route rest r
  end.

Definition service (file : Response (list Byte.byte))
    (routes : list (Method * string * Value))
    (outage : World -> Request -> bool) : Net :=
  {| fetch_file := fun w r => if outage w r then Rejected refused else Resolved file;
     call_api := fun w r => if outage w r then Rejected refused else route routes r |}.

(** The run of the specification's end-to-end example. *)

Definition example_records : list Value :=
  [VObj [("Model", VStr "A"); ("Price", VStr "100")];
   VObj [("Model", VStr "B"); ("Price", VStr "200")]].

Definition example_base : string := "http://localhost:3000/api".

Definition example_routes : list (Method * string * Value) :=
  [(GET, example_base +:+ "/health", VObj [("status", VStr "ok")]);
   (POST, example_base +:+ "/upload", VObj [("id", VStr "67cc")]);
   (GET, example_base +:+ "/documents/67cc/sheets", VArr [VStr "Sheet1"]);
   (GET, example_base +:+ "/documents/67cc/fields?headers_index=0&sheetIndex=0",
    VArr [VStr "Model"; VStr "Price"; VStr "Description"]);
   (POST, example_base +:+ "/documents/67cc/parameters",
    VObj [("success", VBool true)]);
   (GET, example_base +:+ "/documents/67cc/export", VArr example_records)].

(** A download of a few bytes whose [content-length] header says [n]. *)
Definition example_file (content_length : option string)
  : Response (list Byte.byte) :=
  mkResponse 200 "OK"
    (match content_length with
     | Some n => {["content-length" := n]}
     | None => ∅
     end)
    [Byte.x50; Byte.x4b; Byte.x03; Byte.x04].

Definition example_parameters (retryAttempts : Z) : NodeParameters :=
  {| param_apiEndpoint := example_base +:+ "/";
     param_fileUrl := "http://example.com/spreadsheet.xlsx";
     param_exportFields := "0,1";
     param_fieldMapping := "";
     param_headersIndex := 0;
     param_sheetIndex := 0;
     param_authentication := false;
     param_apiKey := "";
     param_apiKeyHeaderName := "X-API-KEY";
     param_advancedOptions := true;
     param_timeout := 60;
     param_retryAttempts := retryAttempts;
     param_debugMode := false |}.

(** No request ever fails to connect. *)
Definition no_outage : World -> Request -> bool := fun _ _ => false.

(** Every request to [url] fails to connect. *)
Definition down (url : string) : World -> Request -> bool :=
  fun _ r => String.eqb (req_url r) url.

(** [execute] on the models of the platform. *)
Definition run (net : Net) (p : NodeParameters)
  : Outcome (list (list INodeExecutionData)) * World :=
  execute JSON_parse_model URL_parse_model JSON_stringify_model net p [].

(** How many times a request with this method and URL was sent. *)
Definition is_sent (m : Method) (u : string) (ev : Event) : bool :=
  match ev with
  | Sent r => Method_eqb m (req_method r) && String.eqb (req_url r) u
  | Slept _ => false
  end.

Definition count_sent (m : Method) (u : string) (w : World) : nat :=
  length (List.filter (is_sent m u) w).

(** Inputs of the examples for [parseFieldMapping]. *)

Definition example_fieldMapping : string :=
  quoted "[{'index': 0, 'name': 'model'}, {'index': '3', 'name': 'price'}, {'index': 1}, 5]".

Definition example_fieldMapping_items : list Value :=
  [VObj [("index", VNum 0); ("name", VStr "model")];
   VObj [("index", VStr "3"); ("name", VStr "price")];
   VObj [("index", VNum 1)];
   VNum 5].

Definition unconvertible_fieldMapping : string :=
  quoted "[{'index':0,'name':'a'},{'index':{'toString':0},'name':'b'}]".

Definition unconvertible_items : list Value :=
  [VObj [("index", VNum 0); ("name", VStr "a")];
   VObj [("index", VObj [("toString", VNum 0)]); ("name", VStr "b")]].

(** ** The specification's words, for comparison with the code *)

(** All positions [0..len-1] of a field list, in order. *)
Definition all_positions (originalFields : list Value) : list Z :=
  Z.of_nat <$> seq 0 (length originalFields).

(** An index within [[0, len)]. *)
Definition in_range (originalFields : list Value) (i : Z) : Prop :=
  0 <= i < Z.of_nat (length originalFields).

#[global] Instance in_range_dec fields i : Decision (in_range fields i).
Proof. unfold in_range. apply _. Defined.

(** The positions [map_all_fields] visits from [start] on. *)
Definition positions_from (start : Z) (n : nat) : list Z :=
  (fun k => start + Z.of_nat k) <$> seq 0 n.

(** An item of the field mapping as the specification wants it: an object
    with a numeric or number-parseable index and a non-empty string name. *)
Definition index_parseable (v : Value) : bool :=
  match v with
  | VNum _ => true
  | _ => match ToString v with
         | Some s => bool_decide (is_Some (parseInt_string s))
         | None => false
         end
  end.

Definition well_formed (item : Value) : bool :=
  match item with
  | VObj _ =>
      index_parseable (Get item "index")
      && match Get item "name" with
         | VStr n => negb (String.eqb n "")
         | _ => false
         end
  | _ => false
  end.

(** The override a well-formed item stands for. *)
Definition override_of (item : Value) : CustomFieldOverride :=
  {| index := match Get item "index" with
              | VNum n => n
              | v => default 0 (ToString v ≫= parseInt_string)
              end;
     name := match Get item "name" with VStr n => n | _ => "" end |}.

(** An item whose index is neither a number nor convertible to a string:
    reading it throws. *)
Definition index_throws (item : Value) : bool :=
  match item with
  | VArr _ | VObj _ =>
      negb (is_number (Get item "index"))
      && negb (bool_decide (is_Some (ToString (Get item "index"))))
  | _ => false
  end.

(** A string that begins with a scheme and [://], such as
    [ftp://example.com]. *)
Definition names_scheme (s : string) : bool :=
  match s with
  | String c _ =>
      is_alpha c
      && startsWith (snd (span_until (fun x => negb (scheme_char x)) s)) "://"
  | EmptyString => false
  end.

(** The string [isValidUrl] hands to the URL parser. *)
Definition with_default_scheme (s : string) : string :=
  if startsWith s "http://" || startsWith s "https://" then s
  else "http://" +:+ s.

(** The waits [withRetry] asks for after the failed attempts
    [start, start + 1, ...], [n] of them. *)
Definition backoff (delay : Q) (start : Z) (n : nat) : list Q :=
  (fun k => waitTime delay (start + Z.of_nat k)) <$> seq 0 n.

(** An operation that fails on its first two invocations. *)
Definition fails_twice (k : nat) : Outcome Z :=
  if (k <? 3)%nat then Thrown (Error "unreachable") else Returned 7.

(** A computation that only adds events to the world, all of them
    satisfying [P], and that throws only failures satisfying [E]. *)
Definition behaves {A} (P : Event -> Prop) (E : JsError -> Prop)
    (m : Async World A) : Prop :=
  forall w, exists l,
    snd (m w) = w ++ l /\ Forall P l
    /\ forall e, fst (m w) = Thrown e -> E e.

(** Failures made by the node itself or by the language. *)
Definition plain (e : JsError) : Prop :=
  match e with
  | Error _ | TypeError _ | SyntaxError _ => True
  | _ => False
  end.

Definition plain_or_axios (e : JsError) : Prop :=
  match e with
  | Error _ | TypeError _ | SyntaxError _ | AxiosError _ => True
  | _ => False
  end.

Definition size_limit_failure : JsError :=
  NodeOperationError "File size exceeds 50 MB limit".

(** The requests of a run that do not depend on the service's answers. *)
Definition download_request (p : NodeParameters) : Request :=
  mkRequest GET (param_fileUrl p) (param_timeout p * 1000)
    (authHeaders_of p) NoBody.

Definition health_request (p : NodeParameters) : Request :=
  mkRequest GET
    (strip_trailing_slashes (param_apiEndpoint p) +:+ "/health")
    10000 [] NoBody.

(** The size a download reports, in bytes: what its [content-length]
    header says when the header is there, else the number of bytes
    received.  [None]: the header is there and is not a number. *)
Definition reported_bytes (fileResponse : Response (list Byte.byte)) : option Z :=
  match headers fileResponse !! "content-length" with
  | Some h =>
      if String.eqb h "" then Some (Z.of_nat (length (data fileResponse)))
      else parseInt_string h
  | None => Some (Z.of_nat (length (data fileResponse)))
  end.

(** More than 50 MB. *)
Definition over_limit (fileResponse : Response (list Byte.byte)) : Prop :=
  exists n, reported_bytes fileResponse = Some n /\ 50 * 1024 * 1024 < n.

(** What [n] failed attempts of one request leave in the world, the first
    being attempt number [attempt]: the request each time, and a wait
    between two attempts. *)
Fixpoint attempts_trace (ev : Event) (delay : Q) (attempt : Z) (n : nat)
  : list Event :=
  match n with
  | O => []
  | S n' =>
      match n' with
      | O => [ev]
      | S _ => ev :: Slept (waitTime delay attempt)
                  :: attempts_trace ev delay (attempt + 1) n'
      end
  end.

(** The request of the fetch-export call. *)
Definition export_request (p : NodeParameters) (documentId : string) : Request :=
  mkRequest GET
    (strip_trailing_slashes (param_apiEndpoint p)
     +:+ "/documents/" +:+ documentId +:+ "/export")
    (param_timeout p * 1000) (authHeaders_of p) NoBody.

(** The six remote operations, and the request each makes in the example
    run. *)
Inductive Stage :=
| Download | Upload | ListSheets | ListFields | SetParameters | FetchExport.

Definition stage_method (s : Stage) : Method :=
  match s with
  | Upload | SetParameters => POST
  | _ => GET
  end.

Definition stage_url (s : Stage) : string :=
  match s with
  | Download => "http://example.com/spreadsheet.xlsx"
  | Upload => example_base +:+ "/upload"
  | ListSheets => example_base +:+ "/documents/67cc/sheets"
  | ListFields =>
      example_base +:+ "/documents/67cc/fields?headers_index=0&sheetIndex=0"
  | SetParameters => example_base +:+ "/documents/67cc/parameters"
  | FetchExport => example_base +:+ "/documents/67cc/export"
  end.

(** The example service with the endpoint of one stage down. *)
Definition service_without (s : Stage) : Net :=
  service (example_file None) example_routes (down (stage_url s)).

(** Every request fails to connect the first [n] times it is made. *)
Definition flaky (n : nat) : World -> Request -> bool :=
  fun w r => (count_sent (req_method r) (req_url r) w <? n)%nat.

(** Pure code that throws plain failures only. *)
Definition throws_plain {A} (o : Outcome A) : Prop :=
  forall e, o = Thrown e -> plain e.

(** A computation whose first effect is the event [ev]. *)
Definition starts_with {A} (ev : Event) (m : Async World A) : Prop :=
  forall w, exists l, snd (m w) = w ++ ev :: l.

(** Failures other than the size-limit failure, and not from axios. *)
Definition passes_size_check (e : JsError) : Prop :=
  e <> size_limit_failure /\ isAxiosError e = false.

Abbreviation anything := (fun _ : Event => True).
Abbreviation any_failure := (fun _ : JsError => True).

(** The example service with nothing down. *)
Definition example_service (content_length : option string) : Net :=
  service (example_file content_length) example_routes no_outage.

(** ** Words for the further properties *)

(** A string of white space only. *)
Definition white (s : string) : bool := string_forallb is_white s.

(** The time waited in all. *)
Definition total_wait (waits : list Q) : Q := foldr Qplus 0%Q waits.

(** The request of the upload call. *)
Definition upload_request (apiEndpoint : string) (fileData : list Byte.byte)
    (timeoutSeconds : Z) (authHeaders : list (string * string)) : Request :=
  mkRequest POST (strip_trailing_slashes apiEndpoint +:+ "/upload")
    (Z.max timeoutSeconds
       (Qceiling
          (inject_Z (hundredths (megabytes (Z.of_nat (length fileData))))
           / 100 / 10)%Q * 60) * 1000)
    (("Connection", "keep-alive") :: authHeaders) (FormData fileData).

(** A list response in one of the two accepted shapes: the array itself,
    or an object holding the array under [key]. *)
Definition listed (key : string) (d : Value) (items : list Value) : Prop :=
  d = VArr items
  \/ exists props, d = VObj props /\ own_prop key props = Some (VArr items).

(** The requests of the other client operations. *)
Definition sheets_request (apiEndpoint documentId : string) (timeoutSeconds : Z)
    (authHeaders : list (string * string)) : Request :=
  mkRequest GET
    (strip_trailing_slashes apiEndpoint +:+ "/documents/" +:+ documentId
     +:+ "/sheets")
    (timeoutSeconds * 1000) authHeaders NoBody.

Definition fields_request (apiEndpoint documentId : string)
    (sheetIndex headersIndex timeoutSeconds : Z)
    (authHeaders : list (string * string)) : Request :=
  mkRequest GET
    (fieldsUrl (strip_trailing_slashes apiEndpoint) documentId sheetIndex
       headersIndex)
    (timeoutSeconds * 1000) authHeaders NoBody.

Definition parameters_request (apiEndpoint documentId : string)
    (sheetIndex headersIndex : Z) (fieldMapping : gmap string string)
    (exportFieldIndexes : list Z) (timeoutSeconds : Z)
    (authHeaders : list (string * string)) : Request :=
  mkRequest POST
    (strip_trailing_slashes apiEndpoint +:+ "/documents/" +:+ documentId
     +:+ "/parameters")
    (timeoutSeconds * 1000) authHeaders
    (JsonBody {| payload_sheetIndex := sheetIndex;
                 payload_headers_index := headersIndex;
                 payload_mapping := fieldMapping;
                 payload_export_fields := map Number_toString exportFieldIndexes |}).

Definition exported_request (apiEndpoint documentId : string)
    (timeoutSeconds : Z) (authHeaders : list (string * string)) : Request :=
  mkRequest GET
    (strip_trailing_slashes apiEndpoint +:+ "/documents/" +:+ documentId
     +:+ "/export")
    (timeoutSeconds * 1000) authHeaders NoBody.

(** The name sent for a field whose name is a string; the empty string
    stands for a name that is not one. *)
Definition sent_name (JSON_stringify : Value -> string) (field : Value) : string :=
  match fieldName_of JSON_stringify field with
  | VStr s => trim s
  | _ => ""
  end.

(** Failures the client operations make themselves. *)
Definition own_failure (e : JsError) : Prop :=
  match e with
  | Error _ | TypeError _ => True
  | _ => False
  end.

Definition own_or_axios (e : JsError) : Prop :=
  match e with
  | Error _ | TypeError _ | AxiosError _ => True
  | _ => False
  end.

(** Failures inside [execute], before its [catch]. *)
Definition inner_failure (e : JsError) : Prop :=
  match e with
  | Error _ | TypeError _ | AxiosError _ | NodeOperationError _ => True
  | _ => False
  end.

(** Failures a run can end with. *)
Definition run_failure (e : JsError) : Prop :=
  match e with
  | Error _ | TypeError _ | NodeOperationError _ | NodeApiError _ _ _ => True
  | _ => False
  end.

(** The requests a run can make: the download of the file, the two probes
    of the service, and calls below the base URL of the service. *)
Definition request_of_run (p : NodeParameters) (r : Request) : Prop :=
  let base := strip_trailing_slashes (param_apiEndpoint p) in
  (r = download_request p)
  \/ (req_method r = GET /\ req_headers r = [] /\ req_body r = NoBody
      /\ (req_url r = base +:+ "/health" \/ req_url r = base))
  \/ ((exists path, req_url r = base +:+ "/" +:+ path)
      /\ (req_headers r = authHeaders_of p
          \/ req_headers r = ("Connection", "keep-alive") :: authHeaders_of p)).

Definition event_of_run (p : NodeParameters) (ev : Event) : Prop :=
  match ev with
  | Sent r => request_of_run p r
  | Slept _ => True
  end.

(** The parameters [p] with another service URL. *)
Definition with_apiEndpoint (p : NodeParameters) (apiEndpoint : string)
  : NodeParameters :=
  {| param_apiEndpoint := apiEndpoint;
     param_fileUrl := param_fileUrl p;
     param_exportFields := param_exportFields p;
     param_fieldMapping := param_fieldMapping p;
     param_headersIndex := param_headersIndex p;
     param_sheetIndex := param_sheetIndex p;
     param_authentication := param_authentication p;
     param_apiKey := param_apiKey p;
     param_apiKeyHeaderName := param_apiKeyHeaderName p;
     param_advancedOptions := param_advancedOptions p;
     param_timeout := param_timeout p;
     param_retryAttempts := param_retryAttempts p;
     param_debugMode := param_debugMode p |}.

(** How many requests a piece of a run holds. *)
Definition is_request (ev : Event) : bool :=
  match ev with Sent _ => true | Slept _ => false end.

Definition requests (l : list Event) : nat := length (List.filter is_request l).

(** A computation that only adds events to the world, at most [n] of them
    requests. *)
Definition sends_at_most {A} (n : nat) (m : Async World A) : Prop :=
  forall w, exists l, snd (m w) = w ++ l /\ (requests l <= n)%nat.

(** The override in force for an index: the last one given for it. *)
Definition override_for (overrides : list CustomFieldOverride) (i : Z)
  : option CustomFieldOverride :=
  last (filter (fun o => index o = i) overrides).

(** The text of a field that is a string. *)
Definition field_text (field : Value) : string :=
  match field with VStr s => s | _ => "" end.

(** What [execute] makes of a download that axios rejected with [e]. *)
Definition download_failure (e : AxiosErr) : JsError :=
  NodeApiError (message e)
    (match response e with Some r => status r | None => 0 end)
    (match response e with Some r => statusText r | None => "Unknown Error" end).

(** ** Words for the retry budget *)

(** What a run holds once it has passed its first stages: what each stage
    has returned, and the world it has left. *)
Record Progress := mkProgress {
  got_file : Response (list Byte.byte);
  got_documentId : string;
  got_sheets : list Value;
  got_fields : list Value;
  got_names : gmap string string;
  after_download : World;
  after_probes : World;
  after_upload : World;
  after_sheets : World;
  after_fields : World;
  after_parameters : World
}.

Section Stages.
Variable JSON_parse : string -> option Value.
Variable URL_parse : string -> option URL.
Variable JSON_stringify : Value -> string.
Variable net : Net.
Variable p : NodeParameters.

(** The service URL as [execute] passes it on. *)
Definition baseEndpoint_of : string :=
  strip_trailing_slashes (param_apiEndpoint p).

(** The three checks [execute] makes before its first request. *)
Definition valid_configuration : Prop :=
  param_apiEndpoint p <> ""
  /\ isValidUrl URL_parse baseEndpoint_of = Returned true
  /\ isValidUrl URL_parse (param_fileUrl p) = Returned true.

(** The mapping and export list [execute] builds for a field list. *)
Definition fieldMappings_of (fields : list Value) : FieldMappings :=
  createFieldMappings fields (parseExportFields (param_exportFields p))
    (match parseFieldMapping JSON_parse (param_fieldMapping p) with
     | Returned customMappings => customMappings
     | Thrown _ => []
     end).

(** The stages before the last, as [execute] calls them. *)
Definition download_stage : Async World (Response (list Byte.byte)) :=
  withRetry (axios_arraybuffer net (download_request p))
    (retryAttempts_of p) 5000%Q "file download".

Definition upload_stage (file : Response (list Byte.byte)) : Async World string :=
  uploadFileAndGetDocumentId JSON_stringify net baseEndpoint_of (data file)
    (param_timeout p) (authHeaders_of p).

Definition sheets_stage (documentId : string) : Async World (list Value) :=
  withRetry
    (getSheets JSON_stringify net baseEndpoint_of documentId (param_timeout p)
       (authHeaders_of p))
    (retryAttempts_of p) 2000%Q "get sheets".

Definition fields_stage (documentId : string) : Async World (list Value) :=
  withRetry
    (getFields JSON_stringify net baseEndpoint_of documentId
       (param_sheetIndex p) (param_headersIndex p) (param_timeout p)
       (authHeaders_of p))
    (retryAttempts_of p) 2000%Q "get fields".

Definition parameters_stage (documentId : string) (fields : list Value)
  : Async World unit :=
  withRetry
    (setParameters JSON_stringify net baseEndpoint_of documentId
       (param_sheetIndex p) (param_headersIndex p)
       (mapping (fieldMappings_of fields))
       (exportFieldIndexes (fieldMappings_of fields))
       (param_timeout p) (authHeaders_of p))
    (retryAttempts_of p) 2000%Q "set parameters".

(** The request of each stage. *)
Definition stage_request (g : Progress) (s : Stage) : Request :=
  match s with
  | Download => download_request p
  | Upload =>
      upload_request baseEndpoint_of (data (got_file g)) (param_timeout p)
        (authHeaders_of p)
  | ListSheets =>
      sheets_request baseEndpoint_of (got_documentId g) (param_timeout p)
        (authHeaders_of p)
  | ListFields =>
      fields_request baseEndpoint_of (got_documentId g) (param_sheetIndex p)
        (param_headersIndex p) (param_timeout p) (authHeaders_of p)
  | SetParameters =>
      parameters_request baseEndpoint_of (got_documentId g)
        (param_sheetIndex p) (param_headersIndex p) (got_names g)
        (exportFieldIndexes (fieldMappings_of (got_fields g)))
        (param_timeout p) (authHeaders_of p)
  | FetchExport =>
      exported_request baseEndpoint_of (got_documentId g) (param_timeout p)
        (authHeaders_of p)
  end.

(** The service rejects the request of a stage whenever it is made. *)
Definition stage_rejected (g : Progress) (s : Stage) (e : AxiosErr) : Prop :=
  forall w,
    match s with
    | Download => fetch_file net w (stage_request g s) = Rejected e
    | _ => call_api net w (stage_request g s) = Rejected e
    end.

(** The stages a run has passed. *)
Definition downloaded (g : Progress) (w : World) : Prop :=
  download_stage w = (Returned (got_file g), after_download g)
  /\ exceeds_limit (fileSize_of (got_file g)) = false.

Definition probed (g : Progress) : Prop :=
  snd (verifyApiEndpoint net baseEndpoint_of (param_timeout p) (after_download g))
  = after_probes g.

Definition uploaded (g : Progress) : Prop :=
  upload_stage (got_file g) (after_download g)
  = (Returned (got_documentId g), after_upload g).

Definition sheets_listed (g : Progress) : Prop :=
  sheets_stage (got_documentId g) (after_upload g)
  = (Returned (got_sheets g), after_sheets g)
  /\ 0 <= param_sheetIndex p < Z.of_nat (length (got_sheets g))
  /\ exists labels,
       mapM_outcome (fun x => x) (imap sheet_label (got_sheets g))
       = Returned labels.

Definition fields_listed (g : Progress) : Prop :=
  fields_stage (got_documentId g) (after_sheets g)
  = (Returned (got_fields g), after_fields g)
  /\ got_fields g <> [].

Definition names_ready (g : Progress) : Prop :=
  fieldMapping_of JSON_stringify (mapping (fieldMappings_of (got_fields g)))
  = Returned (got_names g).

Definition parameters_set (g : Progress) : Prop :=
  parameters_stage (got_documentId g) (got_fields g) (after_fields g)
  = (Returned tt, after_parameters g).

(** The run that starts in [w] gets to stage [s]: every stage before it has
    returned. *)
Definition reached (g : Progress) (s : Stage) (w : World) : Prop :=
  match s with
  | Download => True
  | Upload => downloaded g w /\ probed g
  | ListSheets => downloaded g w /\ uploaded g
  | ListFields => downloaded g w /\ uploaded g /\ sheets_listed g
  | SetParameters =>
      downloaded g w /\ uploaded g /\ sheets_listed g /\ fields_listed g
      /\ names_ready g
  | FetchExport =>
      downloaded g w /\ uploaded g /\ sheets_listed g /\ fields_listed g
      /\ parameters_set g
  end.

(** The world in which the first attempt of a stage is made. *)
Definition stage_start (g : Progress) (s : Stage) (w : World) : World :=
  match s with
  | Download => w
  | Upload => after_probes g
  | ListSheets => after_upload g
  | ListFields => after_sheets g
  | SetParameters => after_fields g
  | FetchExport => after_parameters g
  end.

(** The attempts a stage is given. *)
Definition stage_budget (s : Stage) : Z :=
  match s with
  | Upload => 3
  | _ => retryAttempts_of p
  end.

End Stages.

(** The wait before the second attempt of a stage. *)
Definition stage_delay (s : Stage) : Q :=
  match s with
  | Download | Upload => 5000%Q
  | _ => 2000%Q
  end.

(** The example service with the endpoint of one stage down, and every
    other request failing to connect the first time it is made. *)
Definition shaky_service (s : Stage) : Net :=
  service (example_file None) example_routes
    (fun w r => down (stage_url s) w r || flaky 1 w r).

(** What the example run with four attempts holds at that service when it
    gets to the fetch-export stage. *)
Definition example_progress : Progress :=
  let net := shaky_service FetchExport in
  let p := example_parameters 4 in
  let fields := [VStr "Model"; VStr "Price"; VStr "Description"] in
  let w1 := snd (download_stage net p []) in
  let w2 := snd (upload_stage JSON_stringify_model net p (example_file None) w1) in
  let w3 := snd (sheets_stage JSON_stringify_model net p "67cc" w2) in
  let w4 := snd (fields_stage JSON_stringify_model net p "67cc" w3) in
  {| got_file := example_file None;
     got_documentId := "67cc";
     got_sheets := [VStr "Sheet1"];
     got_fields := fields;
     got_names :=
       {["0" := "Model"; "1" := "Price"; "2" := "Description"]};
     after_download := w1;
     after_probes :=
       snd (verifyApiEndpoint net (baseEndpoint_of p) (param_timeout p) w1);
     after_upload := w2;
     after_sheets := w3;
     after_fields := w4;
     after_parameters :=
       snd (parameters_stage JSON_parse_model JSON_stringify_model net p
              "67cc" fields w4) |}.

(** * Theorems *)

(** ** Field Mapper *)

Section FieldMapper.

Implicit Types (cm : gmap Z string) (m : gmap string Value).
Implicit Types (fields : list Value) (idx : list Z).

Lemma map_selected_fields_snoc cm fields idx i m :
  map_selected_fields cm fields (idx ++ [i]) m
  = <[Number_toString i := mapped_field cm i (array_get fields i)]>
      (map_selected_fields cm fields idx m).
Proof. unfold map_selected_fields. by rewrite foldl_app. Qed.

Lemma dom_map_selected_fields cm fields idx m :
  dom (map_selected_fields cm fields idx m)
  = dom m ∪ list_to_set (Number_toString <$> idx).
Proof.
  induction idx as [|i idx IH] using rev_ind.
  - simpl. set_solver.
  - rewrite map_selected_fields_snoc, dom_insert_L, IH, fmap_app, list_to_set_app_L.
    simpl. set_solver.
Qed.

Lemma lookup_map_selected_fields cm fields idx m i :
  i ∈ idx ->
  map_selected_fields cm fields idx m !! Number_toString i
  = Some (mapped_field cm i (array_get fields i)).
Proof.
  induction idx as [|j idx IH] using rev_ind; intros Hi.
  - by apply elem_of_nil in Hi.
  - rewrite map_selected_fields_snoc.
    destruct (decide (i = j)) as [->|Hne].
    + by rewrite lookup_insert_eq.
    + rewrite lookup_insert_ne.
      * apply IH. apply elem_of_app in Hi as [Hi|Hi]; [done|].
        apply list_elem_of_singleton in Hi. congruence.
      * unfold Number_toString. intros Heq. by apply (inj pretty) in Heq.
Qed.

Lemma positions_from_S start n :
  positions_from start (S n) = start :: positions_from (start + 1) n.
Proof.
  unfold positions_from. simpl. f_equal; [lia|].
  rewrite <- seq_shift, <- list_fmap_compose.
  apply list_fmap_ext. intros _ k _. simpl. lia.
Qed.

Lemma positions_from_0 n : positions_from 0 n = Z.of_nat <$> seq 0 n.
Proof. unfold positions_from. apply list_fmap_ext. intros _ k _. lia. Qed.

Lemma dom_map_all_fields cm fields start m :
  dom (map_all_fields cm fields start m)
  = dom m ∪ list_to_set (Number_toString <$> positions_from start (length fields)).
Proof.
  revert start m. induction fields as [|f fields IH]; intros start m.
  - simpl. set_solver.
  - simpl map_all_fields. rewrite IH, dom_insert_L.
    simpl length. rewrite positions_from_S. simpl. set_solver.
Qed.

Lemma lookup_map_all_fields_before cm fields start m j :
  j < start ->
  map_all_fields cm fields start m !! Number_toString j = m !! Number_toString j.
Proof.
  revert start m. induction fields as [|f fields IH]; intros start m Hlt; [done|].
  simpl. rewrite IH by lia. apply lookup_insert_ne.
  unfold Number_toString. intros Heq. apply (inj pretty) in Heq. lia.
Qed.

Lemma lookup_map_all_fields cm fields start m k field :
  fields !! k = Some field ->
  map_all_fields cm fields start m !! Number_toString (start + Z.of_nat k)
  = Some (mapped_field cm (start + Z.of_nat k) field).
Proof.
  revert start m k. induction fields as [|f fields IH]; intros start m k Hk; [done|].
  destruct k as [|k].
  - injection Hk as ->. rewrite Z.add_0_r. simpl.
    rewrite lookup_map_all_fields_before by lia. apply lookup_insert_eq.
  - replace (start + Z.of_nat (S k)) with (start + 1 + Z.of_nat k) by lia.
    simpl map_all_fields. apply IH. exact Hk.
Qed.

Lemma array_get_lookup fields i field :
  0 <= i -> fields !! Z.to_nat i = Some field -> array_get fields i = field.
Proof.
  intros Hi Hf. unfold array_get.
  destruct (Z.ltb_spec i 0); [lia|]. by rewrite Hf.
Qed.

(** Every selected index is mapped, to the override when it has a name
    and else to the original field. *)
Lemma createFieldMappings_lookup fields exp overrides i :
  let r := createFieldMappings fields exp overrides in
  i ∈ exportFieldIndexes r ->
  mapping r !! Number_toString i
  = Some (mapped_field (customMappingsMap overrides) i (array_get fields i)).
Proof.
  unfold createFieldMappings. destruct exp as [|e exp]; simpl.
  - intros Hi. apply list_elem_of_fmap in Hi as (k & -> & Hk).
    apply elem_of_seq in Hk. simpl in Hk.
    destruct (lookup_lt_is_Some_2 fields k) as [field Hf]; [lia|].
    rewrite <- (Z.add_0_l (Z.of_nat k)) at 1.
    rewrite (lookup_map_all_fields _ _ _ _ _ _ Hf). simpl.
    f_equal. f_equal. symmetry. apply array_get_lookup; [lia|].
    by rewrite Nat2Z.id.
  - intros Hi. by apply lookup_map_selected_fields.
Qed.

End FieldMapper.

(** C4.  [createFieldMappings] selects every position [0..len-1] in order
    when no export index is given, and otherwise keeps, in the caller's
    order, the given indexes that lie within [[0, len)]; an index out of
    range is dropped and nothing is raised.  With fields [name], [email]
    and indexes [0, 5] the selection is [[0]]. *)
Theorem createFieldMappings_selection
    (originalFields : list Value) (exportIndices : list Z)
    (customMappings : list CustomFieldOverride) :
  exportFieldIndexes (createFieldMappings originalFields exportIndices customMappings)
  = (if decide (exportIndices = [])
     then all_positions originalFields
     else filter (in_range originalFields) exportIndices)
  /\ exportFieldIndexes
       (createFieldMappings [VStr "name"; VStr "email"] [0; 5] []) = [0].
Proof.
  split; [|reflexivity].
  unfold createFieldMappings. destruct exportIndices; reflexivity.
Qed.

(** C8.  In the result of [createFieldMappings] the export indexes are the
    requested indexes that lie in range, in the order given, when some were
    requested, and all the positions [0 .. length - 1] of the field list when
    none was; every one of them is a valid index into the field list; and the
    keys of the mapping are exactly the decimal strings of the export
    indexes, that is, of that selection. *)
Theorem createFieldMappings_invariant
    (originalFields : list Value) (exportIndices : list Z)
    (customMappings : list CustomFieldOverride) :
  let r := createFieldMappings originalFields exportIndices customMappings in
  let selection :=
    if decide (exportIndices = [])
    then all_positions originalFields
    else filter (in_range originalFields) exportIndices in
  exportFieldIndexes r = selection
  /\ Forall (in_range originalFields) (exportFieldIndexes r)
  /\ dom (mapping r)
     = list_to_set (Number_toString <$> exportFieldIndexes r)
  /\ dom (mapping r) = list_to_set (Number_toString <$> selection).
Proof.
  unfold createFieldMappings. destruct exportIndices as [|e exp]; simpl.
  - split; [reflexivity|]. split; [|split].
    + apply Forall_forall. intros i Hi.
      apply list_elem_of_fmap in Hi as (k & -> & Hk).
      apply elem_of_seq in Hk. unfold in_range. lia.
    + rewrite dom_map_all_fields, positions_from_0, dom_empty_L. set_solver.
    + rewrite dom_map_all_fields, positions_from_0, dom_empty_L.
      unfold all_positions. set_solver.
  - split; [reflexivity|]. split; [|split].
    + apply Forall_forall. intros i Hi.
      by apply list_elem_of_filter in Hi as [Hi _].
    + rewrite dom_map_selected_fields, dom_empty_L. set_solver.
    + rewrite dom_map_selected_fields, dom_empty_L. set_solver.
Qed.

(** ** Field mapping parameter *)

Lemma is_Some_bool {A} (o : option A) :
  bool_decide (is_Some o) = match o with Some _ => true | None => false end.
Proof.
  destruct o.
  - apply bool_decide_eq_true_2. by eexists.
  - apply bool_decide_eq_false_2. by intros [? ?].
Qed.

Lemma name_check (nm : Value) :
  negb (truthy nm) || negb (is_string nm)
  = negb match nm with VStr n => negb (String.eqb n "") | _ => false end.
Proof.
  destruct nm as [| |b|n|s| |]; try done.
  - by destruct b.
  - simpl. by destruct (n =? 0).
  - simpl. by destruct (String.eqb s "").
Qed.

Lemma index_check (i : Value) :
  negb (is_number i) && negb (bool_decide (is_Some (ToString i))) = false ->
  (if negb (is_number i)
   then obind (parseInt i)
          (fun n => Returned (negb (bool_decide (is_Some n))))
   else Returned false)
  = Returned (negb (index_parseable i)).
Proof.
  unfold parseInt, interpolate, index_parseable. rewrite is_Some_bool.
  destruct i as [| |b|n|s|items|props]; simpl; try done.
  - by destruct b.
  - by destruct (join_with ToString "," items).
  - by destruct (own_prop "toString" props).
Qed.

Lemma valid_mapping_item_returns item :
  index_throws item = false ->
  valid_mapping_item item = Returned (well_formed item).
Proof.
  unfold valid_mapping_item, well_formed, index_throws.
  destruct item as [| |b|n|s|items|props]; try done.
  - by destruct b.
  - simpl. by destruct (n =? 0).
  - simpl. by destruct (String.eqb s "").
  - intros Hi. simpl truthy. simpl typeof_object. cbn [negb orb].
    rewrite (index_check _ Hi). cbn [obind]. rewrite name_check.
    destruct (index_parseable _); [|done]. cbn [negb andb].
    by destruct (match Get _ "name" with VStr _ => _ | _ => _ end).
Qed.

Lemma valid_mapping_item_throws item :
  index_throws item = true ->
  valid_mapping_item item = Thrown cannot_convert.
Proof.
  unfold valid_mapping_item, index_throws, parseInt, interpolate.
  destruct item as [| |b|n|s|items|props]; try done.
  simpl truthy. simpl typeof_object. cbn [negb orb].
  rewrite is_Some_bool.
  destruct (is_number _); [done|]. destruct (ToString _); done.
Qed.

Lemma to_override_returns item :
  well_formed item = true -> to_override item = Returned (override_of item).
Proof.
  unfold well_formed, to_override, override_of, index_parseable, parseInt, interpolate.
  destruct item as [| |b|n|s|items|props]; try done.
  generalize (Get (VObj props) "index") as i.
  generalize (Get (VObj props) "name") as nm.
  intros nm i Hwf. apply andb_prop in Hwf as [Hi _].
  destruct i; try done; destruct (ToString _); done.
Qed.

Lemma filterM_returns items :
  existsb index_throws items = false ->
  filterM valid_mapping_item items = Returned (List.filter well_formed items).
Proof.
  induction items as [|item items IH]; [done|].
  simpl. intros H. apply orb_false_elim in H as [Hi Hrest].
  rewrite (valid_mapping_item_returns _ Hi), (IH Hrest). simpl.
  by destruct (well_formed item).
Qed.

Lemma filterM_throws items :
  existsb index_throws items = true ->
  filterM valid_mapping_item items = Thrown cannot_convert.
Proof.
  induction items as [|item items IH]; [done|].
  simpl. intros H.
  destruct (index_throws item) eqn:Hi.
  - by rewrite (valid_mapping_item_throws _ Hi).
  - rewrite (valid_mapping_item_returns _ Hi). simpl. by rewrite (IH H).
Qed.

Lemma mapM_to_override items :
  forallb well_formed items = true ->
  mapM_outcome to_override items = Returned (map override_of items).
Proof.
  induction items as [|item items IH]; [done|].
  simpl. intros H. apply andb_prop in H as [Hi Hrest].
  by rewrite (to_override_returns _ Hi), (IH Hrest).
Qed.

Lemma forallb_filter {A} (p : A -> bool) l : forallb p (List.filter p l) = true.
Proof.
  induction l as [|x l IH]; [done|]. simpl.
  destruct (p x) eqn:Hp; simpl; [by rewrite Hp|done].
Qed.

Section FieldMappingParameter.

Variable JSON_parse : string -> option Value.

(** What [parseFieldMapping] returns for a parameter that parses to an array. *)
Lemma parseFieldMapping_array s items :
  s <> "" -> JSON_parse s = Some (VArr items) ->
  parseFieldMapping JSON_parse s
  = Returned (if existsb index_throws items then []
              else map override_of (List.filter well_formed items)).
Proof.
  intros Hs Hparse. unfold parseFieldMapping.
  destruct (String.eqb_spec s ""); [done|]. rewrite Hparse.
  destruct (existsb index_throws items) eqn:Hthrow.
  - by rewrite (filterM_throws _ Hthrow).
  - rewrite (filterM_returns _ Hthrow). simpl.
    by rewrite mapM_to_override by apply forallb_filter.
Qed.

Lemma parseFieldMapping_empty s :
  s = "" \/ JSON_parse s = None
  \/ (exists v, JSON_parse s = Some v /\ isArray v = false) ->
  parseFieldMapping JSON_parse s = Returned [].
Proof.
  unfold parseFieldMapping. intros [->|[Hnone|(v & Hv & Harr)]]; [done| |].
  - destruct (String.eqb s ""); [done|]. by rewrite Hnone.
  - destruct (String.eqb s ""); [done|]. rewrite Hv. by destruct v.
Qed.

Lemma parseFieldMapping_returns s :
  exists l, parseFieldMapping JSON_parse s = Returned l.
Proof.
  destruct (decide (s = "")) as [->|Hs]; [by exists []|].
  destruct (JSON_parse s) as [v|] eqn:Hv.
  - destruct (isArray v) eqn:Harr.
    + destruct v; try done. eexists. by apply parseFieldMapping_array.
    + exists []. apply parseFieldMapping_empty. right; right. eauto.
  - exists []. apply parseFieldMapping_empty. auto.
Qed.

Lemma parseFieldMapping_names s l o :
  parseFieldMapping JSON_parse s = Returned l -> o ∈ l -> name o <> "".
Proof.
  intros Hl Ho.
  destruct (decide (s = "")) as [->|Hs].
  { injection Hl as <-. by apply elem_of_nil in Ho. }
  destruct (JSON_parse s) as [v|] eqn:Hv.
  - destruct (isArray v) eqn:Harr.
    + destruct v as [| | | | |items|]; try done.
      rewrite (parseFieldMapping_array _ _ Hs Hv) in Hl. injection Hl as <-.
      destruct (existsb index_throws items); [by apply elem_of_nil in Ho|].
      apply list_elem_of_fmap in Ho as (item & -> & Hitem).
      apply list_elem_of_In, filter_In in Hitem as [_ Hwf].
      unfold well_formed in Hwf. destruct item; try done.
      apply andb_prop in Hwf as [_ Hname]. unfold override_of. cbn [name].
      destruct (Get _ "name") as [| | | |n| |]; try done.
      intros ->. done.
    + rewrite parseFieldMapping_empty in Hl by (right; right; eauto).
      injection Hl as <-. by apply elem_of_nil in Ho.
  - rewrite parseFieldMapping_empty in Hl by auto.
    injection Hl as <-. by apply elem_of_nil in Ho.
Qed.
End FieldMappingParameter.

(** C9.  A selected index whose override has the empty string as its name
    is mapped to the original field at that position, not to the empty
    name; and [parseFieldMapping] never delivers an override with an empty
    name.  "The override of [i]" is what the lookup table built from the
    overrides holds for [i]. *)
Theorem empty_override_name_is_ignored :
  (forall (originalFields : list Value) (exportIndices : list Z)
          (customMappings : list CustomFieldOverride) (i : Z),
      let r := createFieldMappings originalFields exportIndices customMappings in
      i ∈ exportFieldIndexes r ->
      customMappingsMap customMappings !! i = Some "" ->
      mapping r !! Number_toString i = Some (array_get originalFields i))
  /\ (forall (JSON_parse : string -> option Value) (s : string)
             (l : list CustomFieldOverride) (o : CustomFieldOverride),
         parseFieldMapping JSON_parse s = Returned l -> o ∈ l -> name o <> "").
Proof.
  split.
  - intros fields exp overrides i r Hi Hover. subst r.
    rewrite createFieldMappings_lookup by done.
    unfold mapped_field. by rewrite Hover.
  - intros JSON_parse s l o. apply parseFieldMapping_names.
Qed.

Lemma empty_override_name_is_ignored_witness :
  mapping (createFieldMappings [VStr "name"; VStr "email"] [0; 1]
             [{| index := 1; name := "" |}]) !! Number_toString 1
  = Some (array_get [VStr "name"; VStr "email"] 1)
  /\ name {| index := 3; name := "price" |} <> "".
Proof.
  split.
  - apply (proj1 empty_override_name_is_ignored).
    + vm_compute. apply list_elem_of_In. simpl. auto.
    + vm_compute. reflexivity.
  - apply (proj2 empty_override_name_is_ignored JSON_parse_model
             example_fieldMapping [{| index := 0; name := "model" |};
                                   {| index := 3; name := "price" |}]).
    + vm_compute. reflexivity.
    + apply list_elem_of_In. simpl. auto.
Defined.

(** C10 (amended).  [parseFieldMapping] never throws.  It returns the empty
    list when the string is empty, is not valid JSON, or parses to a value
    that is not an array.  For an array, provided no item has an index that
    is neither a number nor convertible to a string, it returns the
    overrides of exactly the well-formed items, in order, dropping every
    other item; when some item has such an index the conversion throws and
    the empty list is returned. *)
Theorem parseFieldMapping_total (JSON_parse : string -> option Value) (s : string) :
  (exists l, parseFieldMapping JSON_parse s = Returned l)
  /\ (s = "" \/ JSON_parse s = None
      \/ (exists v, JSON_parse s = Some v /\ isArray v = false) ->
      parseFieldMapping JSON_parse s = Returned [])
  /\ (forall items,
        s <> "" -> JSON_parse s = Some (VArr items) ->
        existsb index_throws items = false ->
        parseFieldMapping JSON_parse s
        = Returned (map override_of (List.filter well_formed items)))
  /\ (forall items,
        s <> "" -> JSON_parse s = Some (VArr items) ->
        existsb index_throws items = true ->
        parseFieldMapping JSON_parse s = Returned []).
Proof.
  split; [apply parseFieldMapping_returns|].
  split; [apply parseFieldMapping_empty|].
  split; intros items Hs Hparse Hthrow;
    rewrite (parseFieldMapping_array _ _ _ Hs Hparse), Hthrow; reflexivity.
Qed.

Lemma parseFieldMapping_total_witness :
  parseFieldMapping JSON_parse_model example_fieldMapping
  = Returned [{| index := 0; name := "model" |}; {| index := 3; name := "price" |}]
  /\ parseFieldMapping JSON_parse_model "not json" = Returned [].
Proof.
  split.
  - apply (proj1 (proj2 (proj2 (parseFieldMapping_total JSON_parse_model
                                  example_fieldMapping)))
             example_fieldMapping_items).
    + discriminate.
    + vm_compute. reflexivity.
    + vm_compute. reflexivity.
  - apply (proj1 (proj2 (parseFieldMapping_total JSON_parse_model "not json"))).
    right. left. vm_compute. reflexivity.
Defined.

(** C10, as stated, fails: the first item of this array is well formed, the
    index of the second cannot be converted to a string, and the result is
    the empty list instead of the first item. *)
Lemma parseFieldMapping_drops_well_formed_item :
  JSON_parse_model unconvertible_fieldMapping = Some (VArr unconvertible_items)
  /\ map override_of (List.filter well_formed unconvertible_items)
     = [{| index := 0; name := "a" |}]
  /\ parseFieldMapping JSON_parse_model unconvertible_fieldMapping = Returned [].
Proof. vm_compute. auto. Qed.

(** ** URL Validator *)

Lemma startsWith_app s p : startsWith s p = true -> exists r, s = p +:+ r.
Proof.
  revert s. induction p as [|a p IH]; intros s; simpl.
  - by exists s.
  - destruct s as [|b s]; [done|]. intros [Hab Hs]%andb_prop.
    apply Ascii.eqb_eq in Hab as ->. destruct (IH s Hs) as [r ->]. by exists r.
Qed.

Lemma names_scheme_http s :
  startsWith s "http://" || startsWith s "https://" = true ->
  names_scheme s = true.
Proof.
  intros [H|H]%orb_prop; apply startsWith_app in H as [r ->]; by vm_compute.
Qed.

Lemma with_default_scheme_names s :
  names_scheme s = false
  \/ startsWith s "http://" = true \/ startsWith s "https://" = true ->
  with_default_scheme s = if names_scheme s then s else "http://" +:+ s.
Proof.
  unfold with_default_scheme. intros Hdomain.
  destruct (startsWith s "http://" || startsWith s "https://") eqn:Hhttp.
  - by rewrite names_scheme_http.
  - apply orb_false_elim in Hhttp as [H1 H2].
    destruct Hdomain as [->|[H|H]]; [done|congruence|congruence].
Qed.

Lemma isValidUrl_form (URL_parse : string -> option URL) (s : string) :
  isValidUrl URL_parse s
  = Returned (negb (String.eqb s "")
              && match URL_parse (with_default_scheme s) with
                 | Some url => String.eqb (protocol url) "http:"
                               || String.eqb (protocol url) "https:"
                 | None => false
                 end).
Proof.
  unfold isValidUrl, with_default_scheme.
  destruct (String.eqb s ""); [done|]. cbn [negb andb try_catch].
  rewrite <- negb_orb.
  destruct (startsWith s "http://" || startsWith s "https://");
    cbn [negb]; by destruct (URL_parse _).
Qed.

(** C1 (amended).  [isValidUrl] never throws.  For a string that names no
    scheme, or that begins with [http://] or [https://], it answers [true]
    exactly when the string is not empty and, with [http://] put in front of
    it when it names no scheme, parses as a URL whose scheme is [http] or
    [https].  So [http://example.com] and [https://example.com/api] are
    valid, the empty string is not, and [not-a-url], which is read as
    [http://not-a-url], is valid. *)
Theorem isValidUrl_spec (URL_parse : string -> option URL) (s : string) :
  (exists b, isValidUrl URL_parse s = Returned b)
  /\ (names_scheme s = false
      \/ startsWith s "http://" = true \/ startsWith s "https://" = true ->
      (isValidUrl URL_parse s = Returned true
       <-> s <> ""
           /\ exists url,
               URL_parse (if names_scheme s then s else "http://" +:+ s) = Some url
               /\ (protocol url = "http:" \/ protocol url = "https:")))
  /\ isValidUrl URL_parse_model "http://example.com" = Returned true
  /\ isValidUrl URL_parse_model "https://example.com/api" = Returned true
  /\ isValidUrl URL_parse_model "" = Returned false
  /\ isValidUrl URL_parse_model "not-a-url" = Returned true.
Proof.
  split; [rewrite isValidUrl_form; eauto|].
  split; [|by vm_compute].
  intros Hdomain. rewrite <- (with_default_scheme_names s Hdomain).
  rewrite isValidUrl_form. split.
  - intros [= H]. apply andb_prop in H as [Hs Hurl]. split.
    + intros ->. done.
    + destruct (URL_parse _) as [url|]; [|done]. exists url. split; [done|].
      apply orb_prop in Hurl as [H|H]; apply String.eqb_eq in H; auto.
  - intros (Hs & url & -> & Hproto). f_equal.
    apply andb_true_intro. split.
    + apply negb_true_iff. by apply String.eqb_neq.
    + apply orb_true_intro.
      destruct Hproto as [->| ->]; [left|right]; apply String.eqb_refl.
Qed.

Lemma isValidUrl_spec_witness :
  isValidUrl URL_parse_model "localhost:3000/api" = Returned true
  <-> "localhost:3000/api" <> ""
      /\ exists url,
          URL_parse_model
            (if names_scheme "localhost:3000/api"
             then "localhost:3000/api"
             else "http://" +:+ "localhost:3000/api") = Some url
          /\ (protocol url = "http:" \/ protocol url = "https:").
Proof.
  apply (proj1 (proj2 (isValidUrl_spec URL_parse_model "localhost:3000/api"))).
  left. vm_compute. reflexivity.
Defined.

(** C1, as stated, fails: nothing in [not-a-url] names a scheme, [http://]
    is put in front of it, and [http://not-a-url] is a URL. *)
Lemma isValidUrl_accepts_bare_word :
  isValidUrl URL_parse_model "not-a-url" = Returned true
  /\ isValidUrl URL_parse_model "not-a-url" <> Returned false.
Proof. split; [by vm_compute|]. vm_compute. discriminate. Qed.

(** ** Retry Wrapper *)

Section RetryContract.
Context {T : Type}.
Variable script : nat -> Outcome T.
Variables (retries : Z) (delay : Q) (label : string).

Lemma backoff_S start n :
  backoff delay start (S n) = waitTime delay start :: backoff delay (start + 1) n.
Proof.
  unfold backoff. simpl. f_equal; [by rewrite Z.add_0_r|].
  rewrite <- seq_shift, <- list_fmap_compose.
  apply list_fmap_ext. intros _ k _. simpl. f_equal. lia.
Qed.

Lemma withRetry_loop_success m :
  forall fuel attempt lastError w v,
    (m < fuel)%nat -> attempt + Z.of_nat m <= retries ->
    (forall j, (j < m)%nat -> exists e, script (S (invocations w + j)) = Thrown e) ->
    script (S (invocations w + m)) = Returned v ->
    withRetry_loop (scripted script) retries delay label fuel attempt lastError w
    = (Returned v,
       {| invocations := S (invocations w + m);
          waits := waits w ++ backoff delay attempt m |}).
Proof.
  induction m as [|m IH]; intros fuel attempt lastError w v Hfuel Hle Hfail Hok.
  - destruct fuel as [|fuel]; [lia|]. simpl.
    destruct (Z.leb_spec attempt retries); [|lia].
    unfold scripted. rewrite Nat.add_0_r in Hok. rewrite Hok.
    by rewrite Nat.add_0_r, app_nil_r.
  - destruct fuel as [|fuel]; [lia|]. simpl.
    destruct (Z.leb_spec attempt retries); [|lia].
    unfold scripted at 1.
    destruct (Hfail 0%nat) as [e He]; [lia|]. rewrite Nat.add_0_r in He. rewrite He.
    destruct (Z.ltb_spec attempt retries); [|lia].
    erewrite IH.
    + unfold sleep, Probe_timer. simpl. rewrite backoff_S, <- app_assoc. simpl.
      do 3 f_equal. lia.
    + lia.
    + lia.
    + intros j Hj. destruct (Hfail (S j)) as [e' He']; [lia|].
      exists e'. rewrite <- He'. unfold sleep, Probe_timer. simpl. f_equal. lia.
    + rewrite <- Hok. unfold sleep, Probe_timer. simpl. f_equal. lia.
Qed.

Lemma withRetry_loop_failure fuel :
  forall attempt lastError w last,
    Z.of_nat fuel = retries - attempt + 1 ->
    (forall j, (j < fuel)%nat -> exists e, script (S (invocations w + j)) = Thrown e) ->
    ((0 < fuel)%nat -> script (invocations w + fuel)%nat = Thrown last) ->
    (fuel = 0%nat -> lastError = Some last) ->
    withRetry_loop (scripted script) retries delay label fuel attempt lastError w
    = (Thrown last,
       {| invocations := invocations w + fuel;
          waits := waits w ++ backoff delay attempt (pred fuel) |}).
Proof.
  induction fuel as [|fuel IH]; intros attempt lastError w last Hfuel Hfail Hlast Hnone.
  - simpl. unfold throw. rewrite (Hnone eq_refl). simpl.
    rewrite Nat.add_0_r, app_nil_r. by destruct w.
  - simpl.
    destruct (Z.leb_spec attempt retries); [|lia].
    unfold scripted at 1.
    destruct (Hfail 0%nat) as [e He]; [lia|]. rewrite Nat.add_0_r in He. rewrite He.
    destruct fuel as [|fuel].
    + destruct (Z.ltb_spec attempt retries); [lia|]. simpl.
      unfold throw. simpl. rewrite app_nil_r.
      assert (Hl := Hlast ltac:(lia)). rewrite Nat.add_1_r in Hl.
      rewrite Hl in He. injection He as ->.
      by rewrite Nat.add_1_r.
    + destruct (Z.ltb_spec attempt retries); [|lia].
      erewrite IH.
      * unfold sleep, Probe_timer. cbn [invocations waits pred].
        rewrite backoff_S, <- app_assoc. simpl. do 3 f_equal. lia.
      * lia.
      * intros j Hj. destruct (Hfail (S j)) as [e' He']; [lia|].
        exists e'. rewrite <- He'. unfold sleep, Probe_timer. simpl. f_equal. lia.
      * intros _. rewrite <- Hlast by lia. unfold sleep, Probe_timer. simpl. f_equal. lia.
      * done.
Qed.

Lemma withRetry_loop_invocations fuel :
  forall attempt lastError w,
    (invocations
       (snd (withRetry_loop (scripted script) retries delay label fuel attempt
               lastError w))
     <= invocations w + fuel)%nat.
Proof.
  induction fuel as [|fuel IH]; intros attempt lastError w; simpl; [lia|].
  destruct (attempt <=? retries); [|simpl; lia].
  unfold scripted at 1. destruct (script _); simpl; [lia|].
  etrans; [apply IH|]. destruct (attempt <? retries); simpl; lia.
Qed.

End RetryContract.

Lemma backoff_from_1 delay n :
  backoff delay 1 n
  = (fun a => (delay * (3 # 2) ^ (Z.of_nat a - 1))%Q) <$> seq 1 n.
Proof.
  unfold backoff, waitTime. rewrite <- seq_shift, <- list_fmap_compose.
  apply list_fmap_ext. intros _ k _. simpl. do 2 f_equal. lia.
Qed.

(** C3.  With [maxAttempts >= 1], [withRetry] invokes the operation at most
    [maxAttempts] times.  When the operation fails on the attempts before
    [k] and succeeds on attempt [k <= maxAttempts], [withRetry] returns that
    value after [k] invocations, having waited [baseDelay * 1.5^(a-1)] after
    each failed attempt [a].  When all [maxAttempts] attempts fail, it
    throws the failure of the last attempt itself, after [maxAttempts]
    invocations and a wait after each failed attempt but the last. *)
Theorem withRetry_contract {T} (script : nat -> Outcome T)
    (maxAttempts : Z) (baseDelay : Q) (label : string) :
  1 <= maxAttempts ->
  let n := Z.to_nat maxAttempts in
  let wait_after := fun a : nat => (baseDelay * (3 # 2) ^ (Z.of_nat a - 1))%Q in
  let result := withRetry (scripted script) maxAttempts baseDelay label fresh_probe in
  (invocations (snd result) <= n)%nat
  /\ (forall (k : nat) (v : T),
        (1 <= k <= n)%nat ->
        (forall j, (1 <= j < k)%nat -> exists e, script j = Thrown e) ->
        script k = Returned v ->
        result = (Returned v,
                  {| invocations := k; waits := wait_after <$> seq 1 (k - 1) |}))
  /\ (forall e : JsError,
        (forall j, (1 <= j <= n)%nat -> exists e', script j = Thrown e') ->
        script n = Thrown e ->
        result = (Thrown e,
                  {| invocations := n; waits := wait_after <$> seq 1 (n - 1) |})).
Proof.
  intros Hmax n wait_after result. subst result. unfold withRetry. fold n.
  split; [|split].
  - etrans; [apply withRetry_loop_invocations|]. simpl. lia.
  - intros k v Hk Hfail Hok.
    rewrite (withRetry_loop_success script maxAttempts baseDelay label (k - 1)
               n 1 None fresh_probe v).
    + simpl. rewrite backoff_from_1. do 2 f_equal. lia.
    + lia.
    + lia.
    + intros j Hj. simpl. apply Hfail. lia.
    + simpl. rewrite <- Hok. f_equal. lia.
  - intros e Hfail Hlast.
    rewrite (withRetry_loop_failure script maxAttempts baseDelay label n
               1 None fresh_probe e).
    + simpl. rewrite backoff_from_1. by rewrite Nat.sub_1_r.
    + lia.
    + intros j Hj. simpl. apply Hfail. lia.
    + intros _. exact Hlast.
    + lia.
Qed.

Lemma withRetry_contract_witness :
  withRetry (scripted fails_twice) 3 5000%Q "operation" fresh_probe
  = (Returned 7,
     {| invocations := 3;
        waits := (fun a : nat => (5000 * (3 # 2) ^ (Z.of_nat a - 1))%Q)
                 <$> seq 1 (3 - 1) |}).
Proof.
  apply (proj1 (proj2 (withRetry_contract fails_twice 3 5000%Q "operation"
                         ltac:(lia))) 3%nat 7).
  - simpl. lia.
  - intros j Hj. exists (Error "unreachable").
    assert (j = 1 \/ j = 2)%nat as [-> | ->] by lia; reflexivity.
  - reflexivity.
Defined.

(** ** Conversion Client *)

Section AsyncLaws.
Context {W A B : Type}.
Implicit Types (m : Async W A) (k : A -> Async W B).

Lemma bind_returned m k w a w' :
  m w = (Returned a, w') -> bind m k w = k a w'.
Proof. unfold bind. by intros ->. Qed.

Lemma bind_thrown m k w e w' :
  m w = (Thrown e, w') -> bind m k w = (Thrown e, w').
Proof. unfold bind. by intros ->. Qed.

Lemma bind_returned_inv m k w b w' :
  bind m k w = (Returned b, w') ->
  exists a w1, m w = (Returned a, w1) /\ k a w1 = (Returned b, w').
Proof.
  unfold bind. destruct (m w) as [[a|e] w1]; [eauto|discriminate].
Qed.

Lemma try_async_thrown (m : Async W A) handler w e w' :
  m w = (Thrown e, w') -> try_async m handler w = handler e w'.
Proof. unfold try_async. by intros ->. Qed.

Lemma try_async_returned_inv (m : Async W A) handler w a w' :
  try_async m handler w = (Returned a, w') ->
  (forall e w1, fst (handler e w1) = Thrown e \/ exists e', fst (handler e w1) = Thrown e') ->
  m w = (Returned a, w').
Proof.
  unfold try_async. destruct (m w) as [[a0|e] w1]; [done|].
  intros Hh Hthrows. destruct (Hthrows e w1) as [H|[e' H]]; rewrite Hh in H; done.
Qed.

End AsyncLaws.


Section Behaviour.
Variable P : Event -> Prop.
Implicit Types E : JsError -> Prop.

Lemma behaves_ret {A} E (a : A) : behaves P E (ret a).
Proof. intros w. exists []. simpl. rewrite app_nil_r. by repeat split. Qed.

Lemma behaves_throw {A} E e : E e -> behaves (A:=A) P E (throw e).
Proof.
  intros He w. exists []. simpl. rewrite app_nil_r.
  repeat split; [done|]. by intros ? [= <-].
Qed.

Lemma behaves_lift {A} E (o : Outcome A) :
  (forall e, o = Thrown e -> E e) -> behaves P E (lift o).
Proof. intros Ho w. exists []. simpl. rewrite app_nil_r. by repeat split. Qed.

Lemma behaves_bind {A B} E (m : Async World A) (k : A -> Async World B) :
  behaves P E m -> (forall a, behaves P E (k a)) -> behaves P E (bind m k).
Proof.
  intros Hm Hk w. unfold bind.
  destruct (Hm w) as (l1 & Hw1 & Hl1 & He1).
  destruct (m w) as [[a|e] w1]; simpl in *; subst w1.
  - destruct (Hk a (w ++ l1)) as (l2 & Hw2 & Hl2 & He2).
    exists (l1 ++ l2). rewrite Hw2, app_assoc. split; [done|split; [by apply Forall_app_2|done]].
  - exists l1. split; [done|split; [done|]].
    intros e0 [= <-]. by apply He1.
Qed.

Lemma behaves_try {A} E1 E (m : Async World A) handler :
  behaves P E1 m -> (forall e, E1 e -> behaves P E (handler e)) ->
  behaves P E (try_async m handler).
Proof.
  intros Hm Hh w. unfold try_async.
  destruct (Hm w) as (l1 & Hw1 & Hl1 & He1).
  destruct (m w) as [[a|e] w1]; simpl in *; subst w1.
  - exists l1. split; [done|split; [done|]]; try done; try exact He1.
  - destruct (Hh e (He1 e eq_refl) (w ++ l1)) as (l2 & Hw2 & Hl2 & He2).
    exists (l1 ++ l2). rewrite Hw2, app_assoc. split; [done|split; [by apply Forall_app_2|done]].
Qed.

Lemma behaves_weaken {A} E1 E (m : Async World A) :
  (forall e, E1 e -> E e) -> behaves P E1 m -> behaves P E m.
Proof.
  intros HE Hm w. destruct (Hm w) as (l & Hw & Hl & He).
  exists l. repeat split; auto.
Qed.

Lemma behaves_axios_call net r :
  P (Sent r) -> behaves P plain_or_axios (axios_call net r).
Proof.
  intros Hr w. exists [Sent r]. unfold axios_call. simpl.
  repeat split; [by repeat constructor|].
  intros e. destruct (call_api net w r); simpl; [done|]. by intros [= <-].
Qed.

Lemma behaves_axios_arraybuffer net r :
  P (Sent r) -> behaves P plain_or_axios (axios_arraybuffer net r).
Proof.
  intros Hr w. exists [Sent r]. unfold axios_arraybuffer. simpl.
  repeat split; [by repeat constructor|].
  intros e. destruct (fetch_file net w r); simpl; [done|]. by intros [= <-].
Qed.

Lemma behaves_withRetry_loop {A} E (operation : Async World A) retries delay
    label fuel :
  (forall ms, P (Slept ms)) -> behaves P E operation ->
  (forall msg, E (Error msg)) ->
  forall attempt lastError,
    (forall e, lastError = Some e -> E e) ->
    behaves P E
      (withRetry_loop operation retries delay label fuel attempt lastError).
Proof.
  intros Hsleep Hop Hnew.
  induction fuel as [|fuel IH]; intros attempt lastError Hlast.
  - simpl. apply behaves_throw. destruct lastError; simpl; auto.
  - simpl. destruct (attempt <=? retries).
    + intros w. destruct (Hop w) as (l1 & Hw1 & Hl1 & He1).
      destruct (operation w) as [[a|e] w1]; simpl in *; subst w1.
      * exists l1. split; [done|split; [done|]]; try done; try exact He1.
      * assert (Hlast' : forall e', Some e = Some e' -> E e')
          by (intros ? [= <-]; by apply He1).
        destruct (attempt <? retries).
        -- destruct (IH (attempt + 1) (Some e) Hlast'
                       (sleep (waitTime delay attempt) (w ++ l1)))
             as (l2 & Hw2 & Hl2 & He2).
           exists (l1 ++ Slept (waitTime delay attempt) :: l2).
           split; [|split; [|done]].
           ++ etrans; [exact Hw2|]. unfold sleep, World_timer.
              by rewrite <- !app_assoc.
           ++ apply Forall_app_2; [done|]. by constructor.
        -- destruct (IH (attempt + 1) (Some e) Hlast' (w ++ l1))
             as (l2 & Hw2 & Hl2 & He2).
           exists (l1 ++ l2).
           split; [|split; [by apply Forall_app_2|done]].
           etrans; [exact Hw2|]. by rewrite app_assoc.
    + apply behaves_throw. destruct lastError; simpl; auto.
Qed.

Lemma behaves_withRetry {A} E (operation : Async World A) retries delay label :
  (forall ms, P (Slept ms)) -> behaves P E operation ->
  (forall msg, E (Error msg)) ->
  behaves P E (withRetry operation retries delay label).
Proof.
  intros. unfold withRetry. by apply behaves_withRetry_loop.
Qed.

End Behaviour.

Lemma throws_plain_interpolate v : throws_plain (interpolate v).
Proof. unfold interpolate. intros e. destruct (ToString v); [done|]. by intros [= <-]. Qed.

Lemma throws_plain_mapM {A B} (f : A -> Outcome B) l :
  (forall x, throws_plain (f x)) -> throws_plain (mapM_outcome f l).
Proof.
  intros Hf. induction l as [|x l IH]; [done|]. simpl. intros e.
  specialize (Hf x). destruct (f x) as [y|e1]; simpl.
  - destruct (mapM_outcome f l) as [ys|e2]; simpl; [done|].
    intros [= <-]. by apply IH.
  - intros [= <-]. by apply Hf.
Qed.

Lemma throws_plain_sheet_labels sheets :
  throws_plain (mapM_outcome (fun x => x) (imap sheet_label sheets)).
Proof.
  assert (Hall : Forall throws_plain (imap sheet_label sheets)).
  { apply Forall_lookup. intros i o. rewrite list_lookup_imap.
    destruct (sheets !! i) as [sheet|]; [|done]. intros [= <-].
    unfold sheet_label.
    destruct sheet; try done; destruct (truthy _); try done;
      apply throws_plain_interpolate. }
  induction Hall as [|o l Ho Hl IH]; [done|]. simpl. intros e.
  destruct o as [y|e1]; simpl.
  - destruct (mapM_outcome _ l) as [ys|e2]; simpl; [done|].
    intros [= <-]. by apply IH.
  - intros [= <-]. by apply Ho.
Qed.

Section StageBehaviour.
Variable JSON_parse : string -> option Value.
Variable URL_parse : string -> option URL.
Variable JSON_stringify : Value -> string.
Variable net : Net.

Lemma throws_plain_fieldMapping_of mapping :
  throws_plain (fieldMapping_of JSON_stringify mapping).
Proof.
  unfold fieldMapping_of. intros e.
  pose proof (throws_plain_mapM
                (fun kv => obind (trimmed_name JSON_stringify kv.2)
                             (fun s => Returned (kv.1, s)))
                (map_to_list mapping)) as Hm.
  destruct (mapM_outcome _ _) as [kvs|e1]; simpl; [done|].
  intros [= <-]. apply Hm; [|done].
  intros kv e'. unfold trimmed_name. destruct (fieldName_of _ _); simpl; try done;
    by intros [= <-].
Qed.

Lemma throws_plain_parseFieldMapping s :
  throws_plain (parseFieldMapping JSON_parse s).
Proof.
  intros e. destruct (parseFieldMapping_returns JSON_parse s) as [l ->]. done.
Qed.

Lemma plain_is_plain_or_axios e : plain e -> plain_or_axios e.
Proof. by destruct e. Qed.

Ltac behaves_step :=
  first
    [ apply behaves_ret
    | apply behaves_throw; done
    | apply behaves_axios_call; done
    | apply behaves_lift; intros ? ?%throws_plain_interpolate;
      first [done | by apply plain_is_plain_or_axios]
    | apply behaves_bind; [|intros ?]
    | match goal with
      | |- behaves _ _ (if ?b then _ else _) => destruct b
      | |- behaves _ _ (match ?x with _ => _ end) => destruct x
      end ].

Ltac rethrow_plain :=
  let e := fresh "e" in
  intros e ?; destruct e; try done; apply behaves_throw; done.

Lemma behaves_verifyApiEndpoint apiEndpoint timeout :
  behaves anything plain (verifyApiEndpoint net apiEndpoint timeout).
Proof.
  unfold verifyApiEndpoint.
  apply behaves_try with (E1 := plain_or_axios).
  - apply behaves_bind; [|intros ?; apply behaves_ret].
    apply behaves_try with (E1 := plain_or_axios); [by apply behaves_axios_call|].
    intros _ _. by apply behaves_axios_call.
  - intros e _. apply behaves_ret.
Qed.

Lemma behaves_getSheets apiEndpoint documentId timeoutSeconds authHeaders :
  behaves anything plain
    (getSheets JSON_stringify net apiEndpoint documentId timeoutSeconds authHeaders).
Proof.
  unfold getSheets. apply behaves_try with (E1 := plain_or_axios).
  - repeat behaves_step.
  - rethrow_plain.
Qed.

Lemma behaves_getFields apiEndpoint documentId sheetIndex headersIndex
    timeoutSeconds authHeaders :
  behaves anything plain
    (getFields JSON_stringify net apiEndpoint documentId sheetIndex headersIndex
       timeoutSeconds authHeaders).
Proof.
  unfold getFields. apply behaves_try with (E1 := plain_or_axios).
  - repeat behaves_step.
  - rethrow_plain.
Qed.

Lemma behaves_setParameters apiEndpoint documentId sheetIndex headersIndex
    mapping exportFieldIndexes timeoutSeconds authHeaders :
  behaves anything plain
    (setParameters JSON_stringify net apiEndpoint documentId sheetIndex
       headersIndex mapping exportFieldIndexes timeoutSeconds authHeaders).
Proof.
  unfold setParameters. apply behaves_try with (E1 := plain_or_axios).
  - apply behaves_bind.
    + apply behaves_lift. intros e He.
      by apply plain_is_plain_or_axios, (throws_plain_fieldMapping_of mapping).
    + intros fieldMapping. repeat behaves_step.
  - rethrow_plain.
Qed.

Lemma behaves_getExportedData apiEndpoint documentId timeoutSeconds authHeaders :
  behaves anything plain
    (getExportedData JSON_stringify net apiEndpoint documentId timeoutSeconds
       authHeaders).
Proof.
  unfold getExportedData. apply behaves_try with (E1 := plain_or_axios).
  - repeat behaves_step.
  - rethrow_plain.
Qed.

Lemma behaves_upload apiEndpoint fileData timeoutSeconds authHeaders :
  behaves anything plain
    (uploadFileAndGetDocumentId JSON_stringify net apiEndpoint fileData
       timeoutSeconds authHeaders).
Proof.
  unfold uploadFileAndGetDocumentId.
  apply behaves_try with (E1 := plain_or_axios).
  - destruct (String.eqb apiEndpoint ""); [by apply behaves_throw|].
    apply behaves_bind.
    + eapply behaves_weaken; [|apply behaves_verifyApiEndpoint].
      apply plain_is_plain_or_axios.
    + intros _. apply behaves_bind.
      * apply behaves_withRetry; [done| |done]. by apply behaves_axios_call.
      * intros uploadResult. repeat behaves_step.
  - intros e _. destruct e; try (apply behaves_throw; done).
    repeat behaves_step.
Qed.

End StageBehaviour.

Section GetFields.
Variable JSON_stringify : Value -> string.
Variable net : Net.

(** C6 (amended).  The list-fields operation issues one GET request, to
    [{base}/documents/{id}/fields], whose query string carries the zero-based
    headers row index under the name [headers_index] and the sheet index
    under the name [sheetIndex], whatever the service answers. *)
Theorem getFields_request (apiEndpoint documentId : string)
    (sheetIndex headersIndex timeoutSeconds : Z)
    (authHeaders : list (string * string)) (w : World) :
  snd (getFields JSON_stringify net apiEndpoint documentId sheetIndex
         headersIndex timeoutSeconds authHeaders w)
  = w ++ [Sent (mkRequest GET
                  (strip_trailing_slashes apiEndpoint +:+ "/documents/"
                   +:+ documentId +:+ "/fields?headers_index="
                   +:+ Number_toString headersIndex +:+ "&sheetIndex="
                   +:+ Number_toString sheetIndex)
                  (timeoutSeconds * 1000) authHeaders NoBody)].
Proof.
  unfold getFields, try_async, bind, axios_call, fieldsUrl.
  destruct (call_api net w _) as [r|e]; simpl; [|done].
  destruct (truthy (data r)); simpl; [|done].
  destruct (list_of_response "fields" (data r)); simpl; [|done].
  by destruct (Array_join _ _).
Qed.
End GetFields.

(** C6, as stated, fails: the headers row index travels as [headers_index],
    not as [headersIndex]. *)
Lemma getFields_sends_headers_index :
  snd (getFields JSON_stringify_model (example_service None) example_base
         "67cc" 0 0 60 [] [])
  = [Sent (mkRequest GET
             "http://localhost:3000/api/documents/67cc/fields?headers_index=0&sheetIndex=0"
             60000 [] NoBody)]
  /\ snd (getFields JSON_stringify_model (example_service None) example_base
            "67cc" 0 0 60 [] [])
     <> [Sent (mkRequest GET
                 "http://localhost:3000/api/documents/67cc/fields?headersIndex=0&sheetIndex=0"
                 60000 [] NoBody)].
Proof. split; [by vm_compute|]. vm_compute. discriminate. Qed.

Lemma try_async_cong {W A} (m m' : Async W A) handler w w' :
  m w = m' w' -> try_async m handler w = try_async m' handler w'.
Proof. unfold try_async. by intros ->. Qed.

Lemma starts_with_bind {A B} ev (m : Async World A) (k : A -> Async World B) :
  starts_with ev m -> (forall a, behaves anything any_failure (k a)) ->
  starts_with ev (bind m k).
Proof.
  intros Hm Hk w. unfold bind. destruct (Hm w) as [l1 Hw1].
  destruct (m w) as [[a|e] w1]; simpl in *; subst w1; [|by exists l1].
  destruct (Hk a (w ++ ev :: l1)) as (l2 & Hw2 & _).
  exists (l1 ++ l2). etrans; [exact Hw2|]. by rewrite <- app_assoc.
Qed.

Lemma starts_with_try {A} ev (m : Async World A) handler :
  starts_with ev m -> (forall e, behaves anything any_failure (handler e)) ->
  starts_with ev (try_async m handler).
Proof.
  intros Hm Hh w. unfold try_async. destruct (Hm w) as [l1 Hw1].
  destruct (m w) as [[a|e] w1]; simpl in *; subst w1; [by exists l1|].
  destruct (Hh e (w ++ ev :: l1)) as (l2 & Hw2 & _).
  exists (l1 ++ l2). etrans; [exact Hw2|]. by rewrite <- app_assoc.
Qed.

Lemma starts_with_axios_call net r : starts_with (Sent r) (axios_call net r).
Proof. intros w. by exists []. Qed.

Lemma behaves_any {A} P E (m : Async World A) :
  behaves P E m -> behaves anything any_failure m.
Proof.
  intros Hm w. destruct (Hm w) as (l & Hw & _ & _). exists l.
  split; [done|]. split; [|done]. by apply Forall_forall.
Qed.

Lemma megabytes_over_limit n :
  negb (Qle_bool (megabytes n) 50) = true <-> 50 * 1024 * 1024 < n.
Proof.
  rewrite negb_true_iff, <- not_true_iff_false, Qle_bool_iff.
  unfold megabytes, Qle, Qdiv, Qmult, Qinv. simpl. lia.
Qed.

Lemma exceeds_limit_spec fileResponse :
  exceeds_limit (fileSize_of fileResponse) = true <-> over_limit fileResponse.
Proof.
  unfold exceeds_limit, fileSize_of, over_limit, reported_bytes.
  destruct (headers fileResponse !! "content-length") as [h|].
  - destruct (String.eqb h ""); simpl.
    + rewrite megabytes_over_limit. split; [eauto|]. by intros (n & [= <-] & Hn).
    + destruct (parseInt_string h) as [n|]; simpl.
      * rewrite megabytes_over_limit. split; [eauto|]. by intros (n' & [= <-] & Hn).
      * split; [done|]. by intros (n & [=] & _).
  - rewrite megabytes_over_limit. split; [eauto|]. by intros (n & [= <-] & Hn).
Qed.

Lemma strip_trailing_slashes_idemp s :
  strip_trailing_slashes (strip_trailing_slashes s) = strip_trailing_slashes s.
Proof.
  induction s as [|c r IH]; [done|]. simpl.
  destruct (strip_trailing_slashes r) as [|d r'] eqn:Hr.
  - destruct (Ascii.eqb c "/") eqn:Hc; [done|]. simpl. by rewrite Hc.
  - simpl in *. by rewrite IH.
Qed.

Section SizeLimit.
Variable JSON_parse : string -> option Value.
Variable URL_parse : string -> option URL.
Variable JSON_stringify : Value -> string.
Variable net : Net.

Lemma starts_with_verifyApiEndpoint apiEndpoint timeout :
  starts_with
    (Sent (mkRequest GET (strip_trailing_slashes apiEndpoint +:+ "/health")
             10000 [] NoBody))
    (verifyApiEndpoint net apiEndpoint timeout).
Proof.
  unfold verifyApiEndpoint.
  apply starts_with_try; [|intros; apply behaves_ret].
  apply starts_with_bind; [|intros; apply behaves_ret].
  apply starts_with_try; [apply starts_with_axios_call|].
  intros _. apply (behaves_any anything plain_or_axios).
  by apply behaves_axios_call.
Qed.

Lemma starts_with_upload apiEndpoint fileData timeoutSeconds authHeaders :
  apiEndpoint <> "" ->
  starts_with
    (Sent (mkRequest GET (strip_trailing_slashes apiEndpoint +:+ "/health")
             10000 [] NoBody))
    (uploadFileAndGetDocumentId JSON_stringify net apiEndpoint fileData
       timeoutSeconds authHeaders).
Proof.
  intros Hne w.
  destruct (behaves_upload JSON_stringify net apiEndpoint fileData
              timeoutSeconds authHeaders w) as (l & Hl & _).
  revert w l Hl. unfold uploadFileAndGetDocumentId.
  destruct (String.eqb_spec apiEndpoint ""); [done|]. clear Hne.
  intros w l _. revert w.
  apply starts_with_try.
  - apply starts_with_bind; [apply starts_with_verifyApiEndpoint|].
    intros _. apply (behaves_any anything plain_or_axios). apply behaves_bind.
    + apply behaves_withRetry with (E := plain_or_axios); [done| |done].
      by apply behaves_axios_call.
    + intros uploadResult.
      destruct (negb _); [by apply behaves_throw|].
      destruct (_ && _); [by apply behaves_throw|].
      apply behaves_lift. intros e He%throws_plain_interpolate.
      by apply plain_is_plain_or_axios.
  - intros e. apply (behaves_any anything plain).
    destruct e; try (apply behaves_throw; done).
    destruct (bool_decide _); [by apply behaves_throw|].
    destruct (_ || _); [by apply behaves_throw|].
    destruct (bool_decide _); by apply behaves_throw.
Qed.

Lemma plain_passes_size_check e : plain e -> passes_size_check e.
Proof. by destruct e. Qed.

Lemma behaves_stage {A} (operation : Async World A) retries delay label :
  behaves anything plain operation ->
  behaves anything passes_size_check (withRetry operation retries delay label).
Proof.
  intros Hop. eapply behaves_weaken; [apply plain_passes_size_check|].
  by apply behaves_withRetry.
Qed.

Lemma passes_size_check_other msg :
  (forall rest, msg <> String "F" rest) ->
  passes_size_check (NodeOperationError msg).
Proof. intros Hmsg. split; [|done]. intros [= ->]. by eapply Hmsg. Qed.

Ltac orchestrate :=
  repeat first
    [ apply behaves_ret
    | apply behaves_throw; apply passes_size_check_other; intros ?; discriminate
    | apply behaves_bind; [|intros ?]
    | apply behaves_stage;
      first [ apply behaves_getSheets | apply behaves_getFields
            | apply behaves_setParameters | apply behaves_getExportedData ]
    | apply behaves_lift; intros ? ?; apply plain_passes_size_check;
      first [ by eapply throws_plain_sheet_labels
            | by eapply throws_plain_parseFieldMapping ]
    | match goal with
      | |- behaves _ _ (if ?b then _ else _) => destruct b
      end ].

(** C5.  In a run whose two URLs are valid and whose download stage has
    delivered a response, the size is taken from the [content-length] header
    when the response has one and from the number of bytes received
    otherwise ([reported_bytes]).  When it is more than 50 MB
    ([50 * 1024 * 1024] bytes, so 50 MB itself is not), the run ends there
    with the size-limit failure: the world is the one the download left,
    made of download requests and waits only, so no request has gone to the
    service and nothing is retried.  When it is not, the run does not end
    with the size-limit failure, and the next thing it does is the first
    request of the upload operation, the health check of the service. *)
Theorem size_limit_gate (p : NodeParameters)
    (fileResponse : Response (list Byte.byte)) (w1 : World) :
  param_apiEndpoint p <> "" ->
  isValidUrl URL_parse (strip_trailing_slashes (param_apiEndpoint p)) = Returned true ->
  isValidUrl URL_parse (param_fileUrl p) = Returned true ->
  withRetry (axios_arraybuffer net (download_request p)) (retryAttempts_of p)
    5000%Q "file download" [] = (Returned fileResponse, w1) ->
  let result := execute JSON_parse URL_parse JSON_stringify net p [] in
  (over_limit fileResponse ->
     result = (Thrown size_limit_failure, w1)
     /\ Forall (fun ev => ev = Sent (download_request p) \/ exists ms, ev = Slept ms) w1)
  /\ (~ over_limit fileResponse ->
        fst result <> Thrown size_limit_failure
        /\ exists rest, snd result = w1 ++ Sent (health_request p) :: rest).
Proof.
  intros Hne Hapi Hfile Hdownload result.
  assert (Hbody : exists rest : Async World (list (list INodeExecutionData)),
             result
             = try_async
                 (if exceeds_limit (fileSize_of fileResponse)
                  then throw size_limit_failure
                  else rest) execute_catch w1
             /\ starts_with (Sent (health_request p)) rest
             /\ behaves anything passes_size_check rest).
  { subst result. unfold execute.
    destruct (String.eqb_spec (param_apiEndpoint p) "") as [|_]; [done|].
    eexists. split; [|split].
    - apply try_async_cong.
      erewrite bind_returned by (unfold lift; rewrite Hapi; reflexivity).
      cbn [negb].
      erewrite bind_returned by (unfold lift; rewrite Hfile; reflexivity).
      cbn [negb].
      erewrite bind_returned by exact Hdownload.
      reflexivity.
    - apply starts_with_bind.
      + replace (Sent (health_request p))
          with (Sent (mkRequest GET
                        (strip_trailing_slashes
                           (strip_trailing_slashes (param_apiEndpoint p))
                         +:+ "/health") 10000 [] NoBody))
          by (unfold health_request; by rewrite strip_trailing_slashes_idemp).
        apply starts_with_upload. intros Hempty.
        rewrite Hempty in Hapi. discriminate.
      + intros documentId.
        apply (behaves_any anything passes_size_check). orchestrate.
    - apply behaves_bind; [|intros documentId; orchestrate].
      eapply behaves_weaken; [apply plain_passes_size_check|].
      apply behaves_upload. }
  destruct Hbody as (rest & -> & Hstart & Hrest). split.
  - intros Hover%exceeds_limit_spec. rewrite Hover. split; [reflexivity|].
    assert (Hdl : behaves
                    (fun ev => ev = Sent (download_request p)
                               \/ exists ms, ev = Slept ms)
                    plain_or_axios
                    (withRetry (axios_arraybuffer net (download_request p))
                       (retryAttempts_of p) 5000%Q "file download")).
    { apply behaves_withRetry; [by eauto| |done].
      apply behaves_axios_arraybuffer. by left. }
    destruct (Hdl []) as (l & Hl & Hall & _).
    rewrite Hdownload in Hl. simpl in Hl. by subst w1.
  - intros Hover. rewrite <- exceeds_limit_spec in Hover.
    apply not_true_is_false in Hover. rewrite Hover.
    unfold try_async.
    destruct (Hstart w1) as [l1 Hw1]. destruct (Hrest w1) as (l1' & _ & _ & He).
    destruct (rest w1) as [[out|e] w2]; simpl in *; subst w2.
    + split; [done|]. by exists l1.
    + destruct (He e eq_refl) as [Hsize Haxios].
      destruct e; try done; simpl; split; try (by exists l1); try done.
      by intros [= ->].
Qed.
End SizeLimit.

Lemma size_limit_gate_witness :
  run (example_service (Some "52428801")) (example_parameters 3)
  = (Thrown size_limit_failure, [Sent (download_request (example_parameters 3))])
  /\ (fst (run (example_service (Some "52428800")) (example_parameters 3))
      <> Thrown size_limit_failure
      /\ exists rest,
          snd (run (example_service (Some "52428800")) (example_parameters 3))
          = [Sent (download_request (example_parameters 3))]
            ++ Sent (health_request (example_parameters 3)) :: rest).
Proof.
  split.
  - apply (size_limit_gate JSON_parse_model URL_parse_model JSON_stringify_model
             (example_service (Some "52428801")) (example_parameters 3)
             (example_file (Some "52428801"))
             [Sent (download_request (example_parameters 3))]).
    + discriminate.
    + vm_compute. reflexivity.
    + vm_compute. reflexivity.
    + vm_compute. reflexivity.
    + exists 52428801. split; [vm_compute; reflexivity|lia].
  - apply (size_limit_gate JSON_parse_model URL_parse_model JSON_stringify_model
             (example_service (Some "52428800")) (example_parameters 3)
             (example_file (Some "52428800"))
             [Sent (download_request (example_parameters 3))]).
    + discriminate.
    + vm_compute. reflexivity.
    + vm_compute. reflexivity.
    + vm_compute. reflexivity.
    + intros (n & Hn & Hlt). vm_compute in Hn. injection Hn as <-. lia.
Defined.

Lemma withRetry_returned_inv {W A} `{Timer W} (operation : Async W A)
    retries delay label w v w' :
  withRetry operation retries delay label w = (Returned v, w') ->
  exists w0, operation w0 = (Returned v, w').
Proof.
  unfold withRetry. generalize (Z.to_nat retries) as fuel.
  generalize 1 as attempt. generalize (@None JsError) as lastError.
  intros lastError attempt fuel. revert lastError attempt w.
  induction fuel as [|fuel IH]; intros lastError attempt w; simpl; [done|].
  destruct (attempt <=? retries); [|done].
  destruct (operation w) as [[a|e] w1] eqn:Hop.
  - intros [= -> ->]. eauto.
  - apply IH.
Qed.

Section Emission.
Variable JSON_parse : string -> option Value.
Variable URL_parse : string -> option URL.
Variable JSON_stringify : Value -> string.
Variable net : Net.

Lemma execute_catch_throws e w : exists e', fst (execute_catch e w) = Thrown e'.
Proof.
  unfold execute_catch. destruct e; try (eexists; reflexivity).
  unfold bind, lift. destruct (interpolate _); eexists; reflexivity.
Qed.

Lemma getExportedData_returned_inv apiEndpoint documentId timeoutSeconds
    authHeaders w v w' :
  getExportedData JSON_stringify net apiEndpoint documentId timeoutSeconds
    authHeaders w = (Returned v, w') ->
  let request :=
    mkRequest GET
      (strip_trailing_slashes apiEndpoint +:+ "/documents/" +:+ documentId
       +:+ "/export") (timeoutSeconds * 1000) authHeaders NoBody in
  exists r, call_api net w request = Resolved r
            /\ data r = v /\ w' = w ++ [Sent request].
Proof.
  unfold getExportedData, try_async, bind, axios_call.
  destruct (call_api net w _) as [r|e]; simpl; [|done].
  destruct (truthy (data r)); simpl; [|done].
  intros [= <- <-]. eauto.
Qed.

Ltac invert_run :=
  repeat match goal with
    | H : throw _ _ = (Returned _, _) |- _ => discriminate H
    | H : ret _ _ = (Returned _, _) |- _ => injection H as <- <-
    | H : bind _ _ _ = (Returned _, _) |- _ =>
        let a := fresh "a" in let w := fresh "w" in let Ha := fresh "Hstage" in
        apply bind_returned_inv in H as (a & w & Ha & H)
    | H : (if ?b then _ else _) _ = (Returned _, _) |- _ => destruct b
    end.

(** C7.  Whenever [execute] returns, what it returns is made from the
    payload of the service's answer to the fetch-export request, the last
    request of the run: for an array of [n] records, one output item per
    record, the [i]-th carrying the [i]-th record as it is, in order; for a
    payload that is not an array, exactly one output item carrying it. *)
Theorem emits_exported_payload (p : NodeParameters) (w : World)
    (out : list (list INodeExecutionData)) (w' : World) :
  execute JSON_parse URL_parse JSON_stringify net p w = (Returned out, w') ->
  exists (documentId : string) (w0 : World) (r : Response Value),
    call_api net w0 (export_request p documentId) = Resolved r
    /\ w' = w0 ++ [Sent (export_request p documentId)]
    /\ (forall records : list Value,
          data r = VArr records -> out = [mkItem <$> records])
    /\ (isArray (data r) = false -> out = [[mkItem (data r)]]).
Proof.
  unfold execute. intros Hrun.
  apply try_async_returned_inv in Hrun.
  2:{ intros e w1. right. apply execute_catch_throws. }
  invert_run.
  match goal with
  | H : withRetry (getExportedData _ _ _ ?d _ _) _ _ _ _ = _ |- _ =>
      let before := fresh "before" in
      apply withRetry_returned_inv in H as [before H];
      apply getExportedData_returned_inv in H as (r & Hcall & <- & ->);
      rewrite strip_trailing_slashes_idemp in Hcall |- *;
      exists d, before, r
  end.
  split; [exact Hcall|]. split; [reflexivity|]. split.
  - intros records ->. reflexivity.
  - by destruct (data r).
Qed.
End Emission.

Lemma emits_exported_payload_witness :
  fst (run (example_service None) (example_parameters 3))
  = Returned [[mkItem (VObj [("Model", VStr "A"); ("Price", VStr "100")]);
               mkItem (VObj [("Model", VStr "B"); ("Price", VStr "200")])]]
  /\ exists (documentId : string) (w0 : World) (r : Response Value),
       call_api (example_service None) w0
         (export_request (example_parameters 3) documentId) = Resolved r
       /\ snd (run (example_service None) (example_parameters 3))
          = w0 ++ [Sent (export_request (example_parameters 3) documentId)]
       /\ (forall records : list Value,
             data r = VArr records ->
             [mkItem <$> example_records] = [mkItem <$> records])
       /\ (isArray (data r) = false ->
           [mkItem <$> example_records] = [[mkItem (data r)]]).
Proof.
  split; [by vm_compute|].
  apply (emits_exported_payload JSON_parse_model URL_parse_model
           JSON_stringify_model (example_service None) (example_parameters 3) []).
  vm_compute. reflexivity.
Defined.

Lemma withRetry_first_try {W A} `{Timer W} (operation : Async W A)
    retries delay label w v w' :
  operation w = (Returned v, w') -> 1 <= retries ->
  withRetry operation retries delay label w = (Returned v, w').
Proof.
  intros Hop Hretries. unfold withRetry.
  destruct (Z.to_nat retries) as [|fuel] eqn:Hfuel; [lia|]. simpl.
  destruct (Z.leb_spec 1 retries); [|lia]. by rewrite Hop.
Qed.

Lemma attempts_trace_S ev delay attempt n :
  attempts_trace ev delay attempt (S (S n))
  = ev :: Slept (waitTime delay attempt) :: attempts_trace ev delay (attempt + 1) (S n).
Proof. reflexivity. Qed.

Lemma withRetry_loop_always_thrown {A} (operation : Async World A)
    retries delay label ev e fuel :
  (forall w, operation w = (Thrown e, w ++ [ev])) ->
  forall attempt lastError w,
    Z.of_nat fuel = retries - attempt + 1 ->
    (fuel = 0%nat -> lastError = Some e) ->
    withRetry_loop operation retries delay label fuel attempt lastError w
    = (Thrown e, w ++ attempts_trace ev delay attempt fuel).
Proof.
  intros Hop. induction fuel as [|fuel IH]; intros attempt lastError w Hfuel Hlast.
  - simpl. rewrite (Hlast eq_refl), app_nil_r. reflexivity.
  - simpl withRetry_loop. destruct (Z.leb_spec attempt retries); [|lia].
    rewrite Hop. destruct fuel as [|fuel].
    + destruct (Z.ltb_spec attempt retries); [lia|]. reflexivity.
    + destruct (Z.ltb_spec attempt retries); [|lia].
      rewrite IH by (done || lia). rewrite attempts_trace_S.
      unfold sleep, World_timer. by rewrite <- !app_assoc.
Qed.

Lemma withRetry_always_thrown {A} (operation : Async World A)
    retries delay label ev e w :
  (forall w, operation w = (Thrown e, w ++ [ev])) -> 1 <= retries ->
  withRetry operation retries delay label w
  = (Thrown e, w ++ attempts_trace ev delay 1 (Z.to_nat retries)).
Proof.
  intros Hop Hretries. unfold withRetry.
  apply withRetry_loop_always_thrown; [done|lia|lia].
Qed.

Lemma count_sent_app m u w1 w2 :
  count_sent m u (w1 ++ w2) = (count_sent m u w1 + count_sent m u w2)%nat.
Proof. unfold count_sent. by rewrite List.filter_app, length_app. Qed.

Lemma count_sent_attempts m u r delay attempt n :
  is_sent m u (Sent r) = true ->
  count_sent m u (attempts_trace (Sent r) delay attempt n) = n.
Proof.
  intros Hr. revert attempt. induction n as [|n IH]; intros attempt; [done|].
  destruct n as [|n].
  - unfold count_sent. cbn [attempts_trace List.filter]. by rewrite Hr.
  - rewrite attempts_trace_S. unfold count_sent in *.
    cbn [List.filter]. rewrite Hr. cbn [is_sent length]. f_equal. apply IH.
Qed.

Lemma execute_catch_world e w : snd (execute_catch e w) = w.
Proof.
  unfold execute_catch. destruct e; try reflexivity.
  unfold bind, lift. by destruct (interpolate _).
Qed.

Lemma count_sent_none m u l :
  Forall (fun ev => is_sent m u ev = false) l -> count_sent m u l = 0%nat.
Proof.
  unfold count_sent. induction 1 as [|ev l Hev _ IH]; [done|].
  simpl. by rewrite Hev.
Qed.

Section UploadBudget.
Variable JSON_stringify : Value -> string.
Variable net : Net.

Lemma verifyApiEndpoint_gets apiEndpoint timeout u :
  behaves (fun ev => is_sent POST u ev = false) (fun _ => False)
    (verifyApiEndpoint net apiEndpoint timeout).
Proof.
  unfold verifyApiEndpoint.
  apply behaves_try with (E1 := plain_or_axios).
  - apply behaves_bind; [|intros ?; apply behaves_ret].
    apply behaves_try with (E1 := plain_or_axios); [by apply behaves_axios_call|].
    intros _ _. by apply behaves_axios_call.
  - intros e _. apply behaves_ret.
Qed.

(** The upload takes no retry parameter: at any service that rejects every
    POST, it posts the file three times. *)
Lemma upload_posts_three_times apiEndpoint fileData timeoutSeconds authHeaders
    (e : AxiosErr) (w : World) :
  apiEndpoint <> "" ->
  (forall w r, req_method r = POST -> call_api net w r = Rejected e) ->
  let uploadUrl := strip_trailing_slashes apiEndpoint +:+ "/upload" in
  count_sent POST uploadUrl
    (snd (uploadFileAndGetDocumentId JSON_stringify net apiEndpoint fileData
            timeoutSeconds authHeaders w))
  = (count_sent POST uploadUrl w + 3)%nat.
Proof.
  intros Hne Hrejected uploadUrl. unfold uploadFileAndGetDocumentId.
  destruct (String.eqb_spec apiEndpoint ""); [done|].
  destruct (verifyApiEndpoint_gets apiEndpoint timeoutSeconds uploadUrl w)
    as (l & Hw & Hl & Hthrow).
  destruct (verifyApiEndpoint net apiEndpoint timeoutSeconds w)
    as [[available|e0] wv] eqn:Hverify; simpl in Hw, Hthrow;
    [|by destruct (Hthrow e0)].
  subst wv.
  erewrite try_async_thrown.
  2:{ erewrite bind_returned by exact Hverify.
      erewrite bind_thrown; [reflexivity|].
      apply withRetry_always_thrown; [|lia].
      intros w'. unfold axios_call. by rewrite Hrejected. }
  match goal with
  | |- count_sent _ _ (snd ?r) = _ => set (outcome := r)
  end.
  assert (Hworld : snd outcome
            = (w ++ l)
              ++ attempts_trace
                   (Sent (mkRequest POST uploadUrl
                            (Z.max timeoutSeconds
                               (Qceiling
                                  (inject_Z
                                     (hundredths
                                        (megabytes
                                           (Z.of_nat (length fileData))))
                                   / 100 / 10)%Q * 60) * 1000)
                            (("Connection", "keep-alive") :: authHeaders)
                            (FormData fileData)))
                   5000%Q 1 (Z.to_nat 3)).
  { subst outcome. cbv beta iota.
    repeat case_bool_decide; reflexivity. }
  rewrite Hworld, !count_sent_app, (count_sent_none _ _ l Hl).
  rewrite count_sent_attempts; [simpl; lia|].
  simpl. apply String.eqb_refl.
Qed.
End UploadBudget.

Lemma execute_catch_result e w :
  exists failure, execute_catch e w = (Thrown failure, w).
Proof.
  destruct (execute_catch_throws e w) as [failure Hfst].
  pose proof (execute_catch_world e w) as Hsnd.
  destruct (execute_catch e w) as [o w']. simpl in *. subst. eauto.
Qed.

Section StageFailures.
Variable JSON_stringify : Value -> string.
Variable net : Net.

Lemma getSheets_rejected apiEndpoint documentId timeoutSeconds authHeaders e :
  (forall w, call_api net w
               (sheets_request apiEndpoint documentId timeoutSeconds authHeaders)
             = Rejected e) ->
  forall w,
    getSheets JSON_stringify net apiEndpoint documentId timeoutSeconds
      authHeaders w
    = (Thrown (Error (http_failure JSON_stringify "Failed to get sheets" e)),
       w ++ [Sent (sheets_request apiEndpoint documentId timeoutSeconds
                     authHeaders)]).
Proof.
  intros Hrejected w. unfold getSheets, try_async, bind, axios_call.
  unfold sheets_request in Hrejected. by rewrite Hrejected.
Qed.

Lemma getFields_rejected apiEndpoint documentId sheetIndex headersIndex
    timeoutSeconds authHeaders e :
  (forall w, call_api net w
               (fields_request apiEndpoint documentId sheetIndex headersIndex
                  timeoutSeconds authHeaders)
             = Rejected e) ->
  forall w,
    getFields JSON_stringify net apiEndpoint documentId sheetIndex headersIndex
      timeoutSeconds authHeaders w
    = (Thrown (Error (http_failure JSON_stringify "Failed to get fields" e)),
       w ++ [Sent (fields_request apiEndpoint documentId sheetIndex
                     headersIndex timeoutSeconds authHeaders)]).
Proof.
  intros Hrejected w. unfold getFields, try_async, bind, axios_call.
  unfold fields_request in Hrejected. by rewrite Hrejected.
Qed.

Lemma setParameters_rejected apiEndpoint documentId sheetIndex headersIndex
    fields exportFieldIndexes timeoutSeconds authHeaders names e :
  fieldMapping_of JSON_stringify fields = Returned names ->
  (forall w, call_api net w
               (parameters_request apiEndpoint documentId sheetIndex
                  headersIndex names exportFieldIndexes timeoutSeconds
                  authHeaders)
             = Rejected e) ->
  forall w,
    setParameters JSON_stringify net apiEndpoint documentId sheetIndex
      headersIndex fields exportFieldIndexes timeoutSeconds authHeaders w
    = (Thrown (Error (http_failure JSON_stringify "Failed to set parameters" e)),
       w ++ [Sent (parameters_request apiEndpoint documentId sheetIndex
                     headersIndex names exportFieldIndexes timeoutSeconds
                     authHeaders)]).
Proof.
  intros Hnames Hrejected w. unfold setParameters, try_async, bind, lift.
  rewrite Hnames. unfold axios_call.
  unfold parameters_request in Hrejected. by rewrite Hrejected.
Qed.

Lemma getExportedData_rejected apiEndpoint documentId timeoutSeconds
    authHeaders e :
  (forall w, call_api net w
               (exported_request apiEndpoint documentId timeoutSeconds
                  authHeaders)
             = Rejected e) ->
  forall w,
    getExportedData JSON_stringify net apiEndpoint documentId timeoutSeconds
      authHeaders w
    = (Thrown (Error (http_failure JSON_stringify
                        "Failed to get exported data" e)),
       w ++ [Sent (exported_request apiEndpoint documentId timeoutSeconds
                     authHeaders)]).
Proof.
  intros Hrejected w. unfold getExportedData, try_async, bind, axios_call.
  unfold exported_request in Hrejected. by rewrite Hrejected.
Qed.

(** The upload has its own budget: at a service that rejects the POST
    whenever it is made, it posts the file three times after the probes. *)
Lemma upload_rejected apiEndpoint fileData timeoutSeconds authHeaders e w :
  apiEndpoint <> "" ->
  (forall w, call_api net w
               (upload_request apiEndpoint fileData timeoutSeconds authHeaders)
             = Rejected e) ->
  exists failure,
    uploadFileAndGetDocumentId JSON_stringify net apiEndpoint fileData
      timeoutSeconds authHeaders w
    = (Thrown failure,
       snd (verifyApiEndpoint net apiEndpoint timeoutSeconds w)
       ++ attempts_trace
            (Sent (upload_request apiEndpoint fileData timeoutSeconds
                     authHeaders))
            5000%Q 1 (Z.to_nat 3)).
Proof.
  intros Hne Hrejected. unfold uploadFileAndGetDocumentId.
  destruct (String.eqb_spec apiEndpoint ""); [done|].
  destruct (verifyApiEndpoint_gets net apiEndpoint timeoutSeconds "" w)
    as (l & Hw & _ & Hthrow).
  destruct (verifyApiEndpoint net apiEndpoint timeoutSeconds w)
    as [[available|e0] wv] eqn:Hverify; simpl in Hw, Hthrow;
    [|by destruct (Hthrow e0)].
  erewrite try_async_thrown.
  2:{ erewrite bind_returned by exact Hverify.
      erewrite bind_thrown; [reflexivity|].
      apply withRetry_always_thrown; [|lia].
      intros w'. unfold axios_call.
      change (mkRequest POST _ _ _ _)
        with (upload_request apiEndpoint fileData timeoutSeconds authHeaders).
      by rewrite Hrejected. }
  cbv beta iota. simpl snd.
  repeat case_bool_decide; eexists; reflexivity.
Qed.

End StageFailures.

Ltac pass_download H :=
  let Hlimit := fresh "Hlimit" in
  destruct H as (H & Hlimit);
  unfold download_stage in H;
  erewrite bind_returned by exact H; rewrite Hlimit.

Ltac pass_upload H :=
  unfold uploaded, upload_stage, baseEndpoint_of in H;
  erewrite bind_returned by exact H.

Ltac pass_sheets H :=
  let Hindex := fresh "Hindex" in
  let labels := fresh "labels" in
  let Hlabels := fresh "Hlabels" in
  destruct H as (H & Hindex & labels & Hlabels);
  unfold sheets_stage, baseEndpoint_of in H;
  erewrite bind_returned by exact H;
  match goal with
  | |- context [(?i <? 0) || (?n <=? ?i)] =>
      destruct (Z.eqb_spec n 0); [lia|];
      destruct (Z.ltb_spec i 0); [lia|];
      destruct (Z.leb_spec n i); [lia|]
  end;
  cbn [orb];
  erewrite bind_returned by (unfold lift; rewrite Hlabels; reflexivity).

Ltac pass_fields H :=
  let Hsome := fresh "Hsome" in
  let customMappings := fresh "customMappings" in
  let Hcustom := fresh "Hcustom" in
  destruct H as (H & Hsome);
  unfold fields_stage, baseEndpoint_of in H;
  erewrite bind_returned by exact H;
  match goal with
  | |- context [Z.of_nat (length ?fields) =? 0] =>
      destruct (Z.eqb_spec (Z.of_nat (length fields)) 0);
        [by destruct fields|]
  end;
  match goal with
  | |- context [parseFieldMapping ?parse ?s] =>
      destruct (parseFieldMapping_returns parse s) as [customMappings Hcustom]
  end;
  unfold fieldMappings_of in *; rewrite Hcustom in *;
  erewrite bind_returned by reflexivity.

(** C2 (amended).  Each of the six remote operations has a retry budget of
    its own.  Take any service, any parameters with a valid configuration
    and [retryAttempts >= 1], and any of the six stages.  When the run gets
    to the stage, every stage before it having returned, however many of
    its own attempts that took, and the service rejects the request of the
    stage whenever it is made, then the run fails, and what it has added to
    the world since it entered the stage is that one request, sent as many
    times as the stage has attempts, with the waits between two attempts:
    [retryAttempts] times for the file download, list-sheets, list-fields,
    set-parameters and fetch-export, and three times, whatever is
    configured, for the upload.  No earlier stage is run again.  The budget
    is per operation: when every request fails its first two attempts, the
    example run with three attempts still delivers the records.  And at
    every service that rejects each POST, for every non-empty endpoint and
    every file, the upload posts the file exactly three times. *)
Theorem retry_budget_per_stage
    (JSON_parse : string -> option Value) (URL_parse : string -> option URL)
    (JSON_stringify : Value -> string) (net : Net) (p : NodeParameters)
    (g : Progress) (s : Stage) (e : AxiosErr) (w : World) :
  valid_configuration URL_parse p ->
  1 <= retryAttempts_of p ->
  reached JSON_parse JSON_stringify net p g s w ->
  stage_rejected JSON_parse net p g s e ->
  (exists failure,
     execute JSON_parse URL_parse JSON_stringify net p w
     = (Thrown failure,
        stage_start g s w
        ++ attempts_trace (Sent (stage_request JSON_parse p g s))
             (stage_delay s) 1 (Z.to_nat (stage_budget p s))))
  /\ fst (run (service (example_file None) example_routes (flaky 2))
            (example_parameters 3))
     = Returned [mkItem <$> example_records]
  /\ (forall apiEndpoint fileData timeoutSeconds authHeaders
        (e : AxiosErr) (w : World),
        apiEndpoint <> "" ->
        (forall w r, req_method r = POST -> call_api net w r = Rejected e) ->
        count_sent POST (strip_trailing_slashes apiEndpoint +:+ "/upload")
          (snd (uploadFileAndGetDocumentId JSON_stringify net apiEndpoint
                  fileData timeoutSeconds authHeaders w))
        = (count_sent POST (strip_trailing_slashes apiEndpoint +:+ "/upload") w
           + 3)%nat).
Proof.
  intros (Hne & Hapi & Hfile) Hretries Hreached Hrejected.
  split; [|split; [by vm_compute|]].
  2:{ intros ? ? ? ? e0 w0 Hendpoint Hposts.
      by apply (upload_posts_three_times _ _ _ _ _ _ e0). }
  assert (Hbase : baseEndpoint_of p <> "").
  { intros Hempty. rewrite Hempty in Hapi. discriminate Hapi. }
  unfold execute.
  destruct (String.eqb_spec (param_apiEndpoint p) ""); [done|].
  match goal with
  | |- exists failure, try_async ?body _ _ = (_, ?W) =>
      assert (Hbody : exists e', body w = (Thrown e', W))
  end.
  2:{ destruct Hbody as [e' Hbody]. erewrite try_async_thrown by exact Hbody.
      apply execute_catch_result. }
  unfold valid_configuration, baseEndpoint_of in *.
  erewrite bind_returned by (unfold lift; rewrite Hapi; reflexivity).
  cbn [negb].
  erewrite bind_returned by (unfold lift; rewrite Hfile; reflexivity).
  cbn [negb].
  destruct s; simpl in Hreached |- *;
    unfold stage_rejected, stage_request, names_ready in *.
  - eexists. apply bind_thrown. apply withRetry_always_thrown; [|done].
    intros w'. unfold axios_arraybuffer.
    change (mkRequest GET (param_fileUrl p) _ _ _) with (download_request p).
    by rewrite Hrejected.
  - destruct Hreached as ((Hdownload & Hlimit) & Hprobes).
    unfold download_stage, probed, baseEndpoint_of in *.
    erewrite bind_returned by exact Hdownload. rewrite Hlimit.
    destruct (upload_rejected JSON_stringify net _ (data (got_file g))
                (param_timeout p) (authHeaders_of p) e (after_download g)
                Hbase Hrejected) as [failure Hupload].
    rewrite Hprobes in Hupload.
    eexists. apply bind_thrown. exact Hupload.
  - destruct Hreached as (Hdownload & Hupload).
    pass_download Hdownload. pass_upload Hupload.
    eexists. apply bind_thrown. apply withRetry_always_thrown; [|done].
    by apply getSheets_rejected.
  - destruct Hreached as (Hdownload & Hupload & Hsheets).
    pass_download Hdownload. pass_upload Hupload. pass_sheets Hsheets.
    eexists. apply bind_thrown. apply withRetry_always_thrown; [|done].
    by apply getFields_rejected.
  - destruct Hreached as (Hdownload & Hupload & Hsheets & Hfields & Hnames).
    pass_download Hdownload. pass_upload Hupload. pass_sheets Hsheets.
    pass_fields Hfields.
    eexists. apply bind_thrown. apply withRetry_always_thrown; [|done].
    by apply setParameters_rejected.
  - destruct Hreached as (Hdownload & Hupload & Hsheets & Hfields & Hparameters).
    unfold parameters_set, parameters_stage, baseEndpoint_of in Hparameters.
    pass_download Hdownload. pass_upload Hupload. pass_sheets Hsheets.
    pass_fields Hfields.
    erewrite bind_returned by exact Hparameters.
    eexists. apply bind_thrown. apply withRetry_always_thrown; [|done].
    by apply getExportedData_rejected.
Qed.

Lemma retry_budget_per_stage_witness :
  (exists failure,
     run (shaky_service FetchExport) (example_parameters 4)
     = (Thrown failure,
        after_parameters example_progress
        ++ attempts_trace (Sent (exported_request example_base "67cc" 60 []))
             2000%Q 1 4))
  /\ (exists failure,
        run (shaky_service Upload) (example_parameters 4)
        = (Thrown failure,
           after_probes example_progress
           ++ attempts_trace
                (Sent (upload_request example_base (data (example_file None))
                         60 []))
                5000%Q 1 3)).
Proof.
  split.
  - apply (proj1 (retry_budget_per_stage JSON_parse_model URL_parse_model
                    JSON_stringify_model (shaky_service FetchExport)
                    (example_parameters 4) example_progress FetchExport
                    refused []
                    ltac:(repeat split;
                          (discriminate || (vm_compute; reflexivity)))
                    ltac:(vm_compute; discriminate)
                    ltac:(repeat split;
                          try (eexists; vm_compute; reflexivity);
                          try (vm_compute; reflexivity);
                          try (vm_compute; discriminate))
                    ltac:(intros w; vm_compute; reflexivity))).
  - apply (proj1 (retry_budget_per_stage JSON_parse_model URL_parse_model
                    JSON_stringify_model (shaky_service Upload)
                    (example_parameters 4) example_progress Upload
                    refused []
                    ltac:(repeat split;
                          (discriminate || (vm_compute; reflexivity)))
                    ltac:(vm_compute; discriminate)
                    ltac:(repeat split; vm_compute; reflexivity)
                    ltac:(intros w; vm_compute; reflexivity))).
Defined.

(** C2, as stated, fails: with one attempt configured the upload is still
    sent three times. *)
Lemma upload_ignores_retryAttempts :
  retryAttempts_of (example_parameters 1) = 1
  /\ count_sent POST (stage_url Upload)
       (snd (run (service_without Upload) (example_parameters 1))) = 3%nat.
Proof. by vm_compute. Qed.

(** * Further properties of the node *)

(** ** Export fields parameter *)

Lemma append_cons c (r s : string) : String c r +:+ s = String c (r +:+ s).
Proof. reflexivity. Qed.

Lemma split_comma_nonempty s : split_comma s <> [].
Proof.
  destruct s as [|c r]; [done|]. simpl.
  destruct (Ascii.eqb c ","); [done|]. by destruct (split_comma r).
Qed.

Lemma split_comma_app s1 s2 :
  split_comma (s1 +:+ "," +:+ s2) = split_comma s1 ++ split_comma s2.
Proof.
  induction s1 as [|c r IH]; [done|].
  rewrite append_cons. cbn [split_comma]. rewrite IH. destruct (Ascii.eqb c ","); [done|].
  pose proof (split_comma_nonempty r). by destruct (split_comma r).
Qed.

Lemma split_comma_piece s :
  string_forallb (fun c => negb (Ascii.eqb c ",")) s = true -> split_comma s = [s].
Proof.
  induction s as [|c r IH]; [done|]. simpl. intros [Hc Hr]%andb_prop.
  apply negb_true_iff in Hc. by rewrite Hc, IH.
Qed.

(** [parseExportFields] is its pipeline over the pieces between commas,
    also on the empty string. *)
Lemma parseExportFields_pieces s :
  parseExportFields s
  = filter (fun index => 0 <= index)
      (map (fun indexStr => default (-1) (parseInt_string indexStr))
         (filter (fun indexStr => indexStr <> "")
            (map trim (split_comma s)))).
Proof. unfold parseExportFields. by destruct s. Qed.

Lemma parseExportFields_app s1 s2 :
  parseExportFields (s1 +:+ "," +:+ s2)
  = parseExportFields s1 ++ parseExportFields s2.
Proof.
  rewrite !parseExportFields_pieces, split_comma_app.
  by rewrite map_app, filter_app, map_app, filter_app.
Qed.

Lemma parseExportFields_piece s :
  string_forallb (fun c => negb (Ascii.eqb c ",")) s = true ->
  parseExportFields s
  = match parseInt_string (trim s) with
    | Some n => if decide (0 <= n) then [n] else []
    | None => []
    end.
Proof.
  intros Hs. rewrite parseExportFields_pieces, (split_comma_piece _ Hs).
  cbn [map]. rewrite filter_cons. destruct (decide (trim s <> "")) as [Hne|He].
  - cbn [map]. rewrite filter_cons, filter_nil.
    destruct (parseInt_string (trim s)) as [n|]; simpl.
    + by destruct (decide (0 <= n)).
    + by destruct (decide (0 <= -1)).
  - apply dec_stable in He. rewrite He. done.
Qed.

(** Decimal numerals. *)

Lemma digit_of_pretty_N_char d :
  (d < 10)%N -> digit_of (pretty_N_char d) = Some (Z.of_N d).
Proof.
  intros Hd.
  assert (d = 0 \/ d = 1 \/ d = 2 \/ d = 3 \/ d = 4 \/ d = 5 \/ d = 6
          \/ d = 7 \/ d = 8 \/ d = 9)%N as Hcases by lia.
  repeat (destruct Hcases as [->|Hcases]; [reflexivity|]). by subst.
Qed.

Lemma digits_pretty_N_go x :
  forall s acc, (0 < x)%N -> default 0 acc = 0 ->
    digits (pretty_N_go x s) acc = digits s (Some (Z.of_N x)).
Proof.
  induction (N.lt_wf_0 x) as [x _ IH]. intros s acc Hx Hacc.
  rewrite pretty_N_go_step by done.
  assert (Hd : (x `mod` 10 < 10)%N) by (apply N.mod_lt; lia).
  destruct (decide (x `div` 10 = 0)%N) as [Hq|Hq].
  - rewrite Hq, pretty_N_go_0. cbn [digits].
    rewrite (digit_of_pretty_N_char _ Hd), Hacc. do 2 f_equal.
    pose proof (N.div_mod' x 10). lia.
  - rewrite IH; [|apply N.div_lt; lia|by apply N.neq_0_lt_0|done].
    cbn [digits]. rewrite (digit_of_pretty_N_char _ Hd). cbn [default].
    do 2 f_equal. rewrite (N.div_mod' x 10) at 3.
    rewrite N2Z.inj_add, N2Z.inj_mul. reflexivity.
Qed.

Lemma all_digits_pretty_N_go x :
  forall s, string_forallb is_digit s = true ->
    string_forallb is_digit (pretty_N_go x s) = true.
Proof.
  induction (N.lt_wf_0 x) as [x _ IH]. intros s Hs.
  destruct (decide (x = 0)%N) as [->|Hx]; [by rewrite pretty_N_go_0|].
  rewrite pretty_N_go_step by lia. apply IH; [apply N.div_lt; lia|].
  cbn [string_forallb]. rewrite Hs, andb_true_r.
  unfold is_digit. rewrite digit_of_pretty_N_char by (apply N.mod_lt; lia).
  apply bool_decide_eq_true_2. by eexists.
Qed.

Lemma digits_Number_toString n :
  0 <= n -> digits (Number_toString n) None = Some n.
Proof.
  intros Hn. unfold Number_toString, pretty, pretty_Z.
  destruct n as [|p|p]; [done| |lia].
  unfold pretty, pretty_positive, pretty, pretty_N.
  destruct (decide (N.pos p = 0)%N); [done|].
  by rewrite digits_pretty_N_go.
Qed.

Lemma all_digits_Number_toString n :
  0 <= n -> string_forallb is_digit (Number_toString n) = true.
Proof.
  intros Hn. unfold Number_toString, pretty, pretty_Z.
  destruct n as [|p|p]; [done| |lia].
  unfold pretty, pretty_positive, pretty, pretty_N.
  destruct (decide (N.pos p = 0)%N); [done|].
  by apply all_digits_pretty_N_go.
Qed.

Lemma is_digit_spec c :
  is_digit c = true ->
  is_white c = false /\ Ascii.eqb c "," = false
  /\ Ascii.eqb c "-" = false /\ Ascii.eqb c "+" = false.
Proof.
  destruct c as [[] [] [] [] [] [] [] []]; vm_compute; try discriminate; auto.
Qed.

Lemma is_white_not_comma c : is_white c = true -> Ascii.eqb c "," = false.
Proof. destruct c as [[] [] [] [] [] [] [] []]; vm_compute; try discriminate; auto. Qed.

(** Trimming. *)

Lemma trimStart_white a s : white a = true -> trimStart (a +:+ s) = trimStart s.
Proof.
  induction a as [|c r IH]; [done|]. unfold white in *.
  rewrite append_cons. cbn [string_forallb trimStart].
  intros [Hc Hr]%andb_prop. rewrite Hc. by apply IH.
Qed.

Lemma trimStart_all_white b : white b = true -> trimStart b = "".
Proof.
  unfold white. induction b as [|c r IH]; [done|].
  cbn [string_forallb trimStart]. intros [Hc Hr]%andb_prop.
  rewrite Hc. by apply IH.
Qed.

Lemma trimEnd_all_white b : white b = true -> trimEnd b = "".
Proof.
  induction b as [|c r IH]; [done|]. unfold white in *.
  cbn [string_forallb trimEnd]. intros [Hc Hr]%andb_prop.
  by rewrite (IH Hr), Hc.
Qed.

Lemma trimEnd_white s b : white b = true -> trimEnd (s +:+ b) = trimEnd s.
Proof.
  intros Hb. induction s as [|c r IH]; [by apply trimEnd_all_white|].
  rewrite append_cons. cbn [trimEnd]. by rewrite IH.
Qed.

Lemma trim_numeral s :
  string_forallb is_digit s = true -> trimStart s = s /\ trimEnd s = s.
Proof.
  induction s as [|c r IH]; [done|]. cbn [string_forallb].
  intros [Hc Hr]%andb_prop. destruct (is_digit_spec c Hc) as (Hw & _).
  destruct (IH Hr) as [_ Hend]. split.
  - cbn [trimStart]. by rewrite Hw.
  - cbn [trimEnd]. rewrite Hend, Hw. by destruct r.
Qed.

Lemma trim_padded a s b :
  white a = true -> white b = true -> string_forallb is_digit s = true ->
  trim (a +:+ s +:+ b) = s.
Proof.
  intros Ha Hb Hs. unfold trim. rewrite trimStart_white by done.
  destruct s as [|c r].
  - change ("" +:+ b) with b. by rewrite trimStart_all_white.
  - assert (Hc : is_white c = false).
    { cbn [string_forallb] in Hs. apply andb_prop in Hs as [Hc _].
      by apply is_digit_spec in Hc as []. }
    rewrite append_cons. cbn [trimStart]. rewrite Hc, <- append_cons.
    rewrite trimEnd_white by done. by apply trim_numeral.
Qed.

Lemma parseInt_string_numeral s :
  string_forallb is_digit s = true -> parseInt_string s = digits s None.
Proof.
  intros Hs. unfold parseInt_string. destruct (trim_numeral s Hs) as [-> _].
  destruct s as [|c r]; [done|]. cbn [string_forallb] in Hs.
  apply andb_prop in Hs as [Hc _].
  destruct (is_digit_spec c Hc) as (_ & _ & Hm & Hp).
  destruct c as [[] [] [] [] [] [] [] []]; try reflexivity; discriminate.
Qed.

Lemma no_comma_app s1 s2 :
  string_forallb (fun c => negb (Ascii.eqb c ",")) (s1 +:+ s2)
  = string_forallb (fun c => negb (Ascii.eqb c ",")) s1
    && string_forallb (fun c => negb (Ascii.eqb c ",")) s2.
Proof.
  induction s1 as [|c r IH]; [done|].
  rewrite append_cons. cbn [string_forallb]. by rewrite IH, andb_assoc.
Qed.

Lemma no_comma_white a :
  white a = true -> string_forallb (fun c => negb (Ascii.eqb c ",")) a = true.
Proof.
  unfold white. induction a as [|c r IH]; [done|].
  cbn [string_forallb]. intros [Hc Hr]%andb_prop.
  by rewrite (is_white_not_comma c Hc), IH.
Qed.

Lemma no_comma_numeral s :
  string_forallb is_digit s = true ->
  string_forallb (fun c => negb (Ascii.eqb c ",")) s = true.
Proof.
  induction s as [|c r IH]; [done|]. cbn [string_forallb].
  intros [Hc Hr]%andb_prop.
  destruct (is_digit_spec c Hc) as (_ & -> & _). by rewrite IH.
Qed.

Lemma parseExportFields_padded a n b :
  white a = true -> white b = true -> 0 <= n ->
  parseExportFields (a +:+ Number_toString n +:+ b) = [n].
Proof.
  intros Ha Hb Hn. pose proof (all_digits_Number_toString n Hn) as Hd.
  rewrite parseExportFields_piece.
  - rewrite trim_padded, parseInt_string_numeral, digits_Number_toString by done.
    by destruct (decide (0 <= n)).
  - by rewrite !no_comma_app, (no_comma_white a), (no_comma_white b),
      no_comma_numeral.
Qed.

Lemma string_app_assoc (s1 s2 s3 : string) : (s1 +:+ s2) +:+ s3 = s1 +:+ s2 +:+ s3.
Proof. induction s1 as [|c r IH]; [done|]. by rewrite !append_cons, IH. Qed.

Lemma string_app_empty_r (s : string) : s +:+ "" = s.
Proof. induction s as [|c r IH]; [done|]. by rewrite append_cons, IH. Qed.

Lemma parseExportFields_joined a b indices :
  white a = true -> white b = true -> Forall (fun i => 0 <= i) indices ->
  forall lead, white lead = true ->
    parseExportFields
      (lead +:+ String.concat (a +:+ "," +:+ b) (Number_toString <$> indices))
    = indices.
Proof.
  intros Ha Hb. induction 1 as [|n rest Hn Hrest IH]; intros lead Hlead.
  - simpl. rewrite string_app_empty_r, parseExportFields_piece by by apply no_comma_white.
    unfold trim. rewrite <- (string_app_empty_r lead), trimStart_white by done. done.
  - cbn [fmap list_fmap String.concat]. destruct rest as [|m rest].
    + cbn [fmap list_fmap]. rewrite <- (string_app_empty_r (Number_toString n)).
      by apply parseExportFields_padded.
    + set (tail := String.concat _ _). rewrite fmap_cons. cbv iota.
      replace (lead +:+ (Number_toString n +:+ (a +:+ "," +:+ b) +:+ tail))
        with ((lead +:+ Number_toString n +:+ a) +:+ "," +:+ (b +:+ tail))
        by (by rewrite !string_app_assoc).
      rewrite parseExportFields_app, parseExportFields_padded by done.
      subst tail. by rewrite IH.
Qed.

(** X1.  [parseExportFields] reads its string piece by piece: the result for
    two strings joined by a comma is the two results one after the other.  A
    piece without a comma gives the one number that [parseInt] reads from it
    after trimming, when there is one and it is not negative, and nothing
    otherwise.  No index of the result is negative. *)
Theorem parseExportFields_commas (s1 s2 : string) :
  parseExportFields (s1 +:+ "," +:+ s2)
  = parseExportFields s1 ++ parseExportFields s2
  /\ (string_forallb (fun c => negb (Ascii.eqb c ",")) s1 = true ->
      parseExportFields s1
      = match parseInt_string (trim s1) with
        | Some n => if decide (0 <= n) then [n] else []
        | None => []
        end)
  /\ Forall (fun index => 0 <= index) (parseExportFields s1).
Proof.
  split; [apply parseExportFields_app|].
  split; [apply parseExportFields_piece|].
  rewrite parseExportFields_pieces. apply Forall_forall.
  intros i Hi. by apply list_elem_of_filter in Hi as [Hi _].
Qed.

Lemma parseExportFields_commas_witness :
  parseExportFields " 7th "
  = match parseInt_string (trim " 7th ") with
    | Some n => if decide (0 <= n) then [n] else []
    | None => []
    end.
Proof.
  apply (proj1 (proj2 (parseExportFields_commas " 7th " ""))). reflexivity.
Defined.

(** X2.  Round trip: a list of indexes that are safe integers (not
    negative and below [2^53], the range in which JavaScript prints a number
    with all its digits and [parseInt] reads it back exactly), written in
    decimal and joined by commas, with any white space before and after the
    commas, is read back as it was.  The log line of [execute] writes the
    list this way, joined by a comma and a space. *)
Theorem parseExportFields_round_trip (indices : list Z) (a b : string) :
  Forall (fun index => 0 <= index < 2 ^ 53) indices ->
  white a = true -> white b = true ->
  parseExportFields
    (String.concat (a +:+ "," +:+ b) (Number_toString <$> indices))
  = indices.
Proof.
  intros Hall Ha Hb.
  apply (parseExportFields_joined a b indices Ha Hb) with (lead := "");
    [|reflexivity].
  eapply Forall_impl; [exact Hall|]. intros index Hindex. cbv beta in *. lia.
Qed.

Lemma parseExportFields_round_trip_witness :
  parseExportFields (String.concat ("" +:+ "," +:+ " ") (Number_toString <$> [0; 3; 12]))
  = [0; 3; 12].
Proof.
  apply parseExportFields_round_trip.
  - repeat constructor; lia.
  - reflexivity.
  - reflexivity.
Defined.

(** ** The probes of the service *)

Section Probes.
Variable net : Net.

(** X4.  [verifyApiEndpoint] never throws and ignores its timeout.  It asks
    for [{base}/health] and, only when that fails, for [{base}] itself, both
    without authentication headers; it answers [false] exactly when both
    requests fail. *)
Theorem verifyApiEndpoint_probes (apiEndpoint : string) (timeout : Z) (w : World) :
  let base := strip_trailing_slashes apiEndpoint in
  let health := mkRequest GET (base +:+ "/health") 10000 [] NoBody in
  let root := mkRequest GET base 5000 [] NoBody in
  let result := verifyApiEndpoint net apiEndpoint timeout w in
  let health_fails := exists e, call_api net w health = Rejected e in
  let root_fails := exists e, call_api net (w ++ [Sent health]) root = Rejected e in
  (exists available, fst result = Returned available)
  /\ (fst result = Returned false <-> health_fails /\ root_fails)
  /\ (snd result = w ++ [Sent health] \/ snd result = w ++ [Sent health; Sent root])
  /\ (snd result = w ++ [Sent health; Sent root] <-> health_fails).
Proof.
  intros base health root result health_fails root_fails.
  subst result health_fails root_fails.
  unfold verifyApiEndpoint, try_async, bind, axios_call. fold base health root.
  destruct (call_api net w health) as [r|e]; simpl.
  - split; [eauto|]. split; [|split; [by left|]].
    + split; [done|]. by intros [[e [=]] _].
    + split; [|by intros [e [=]]].
      intros H. apply (f_equal length) in H. rewrite !length_app in H.
      simpl in H. lia.
  - destruct (call_api net (w ++ [Sent health]) root) as [r|e']; simpl;
      rewrite <- app_assoc; simpl.
    + split; [eauto|]. split; [|split; [by right|split; eauto]].
      split; [done|]. by intros [_ [e0 [=]]].
    + split; [eauto|]. split; [|split; [by right|split; eauto]].
      split; eauto.
Qed.
End Probes.

(** ** Retry Wrapper: the waits *)
Section RetryWaits.
Context {T : Type}.
Variable script : nat -> Outcome T.
Variables (retries : Z) (delay : Q) (label : string).

Lemma withRetry_loop_waits fuel :
  forall attempt lastError w,
    Z.of_nat fuel = Z.max 0 (retries - attempt + 1) ->
    let result :=
      withRetry_loop (scripted script) retries delay label fuel attempt lastError w in
    exists k : nat,
      (k <= fuel)%nat /\ ((0 < fuel)%nat -> (0 < k)%nat)
      /\ invocations (snd result) = (invocations w + k)%nat
      /\ waits (snd result) = waits w ++ backoff delay attempt (pred k).
Proof.
  induction fuel as [|fuel IH]; intros attempt lastError w Hfuel; simpl.
  - exists 0%nat. simpl. rewrite app_nil_r, Nat.add_0_r. repeat split; lia.
  - destruct (Z.leb_spec attempt retries); [|lia].
    change (scripted script w)
      with (script (S (invocations w)),
            {| invocations := S (invocations w); waits := waits w |}).
    destruct (script _) as [v|e]; simpl.
    + exists 1%nat. simpl. rewrite app_nil_r. repeat split; lia.
    + destruct (Z.ltb_spec attempt retries).
      * destruct (IH (attempt + 1) (Some e)
                    (sleep (waitTime delay attempt)
                       {| invocations := S (invocations w); waits := waits w |}))
          as (k & Hk & Hpos & Hinv & Hwaits); [lia|].
        unfold sleep, Probe_timer in *. simpl in *.
        exists (S k). rewrite Hinv, Hwaits.
        split; [lia|]. split; [lia|]. split; [lia|].
        destruct k as [|k]; [lia|]. simpl.
        by rewrite backoff_S, <- app_assoc.
      * destruct fuel as [|fuel]; [|lia]. simpl.
        exists 1%nat. simpl. rewrite app_nil_r. repeat split; lia.
Qed.
End RetryWaits.

Lemma total_wait_app l1 l2 :
  (total_wait (l1 ++ l2) == total_wait l1 + total_wait l2)%Q.
Proof.
  induction l1 as [|x l1 IH]; simpl; [ring|]. rewrite IH. ring.
Qed.

Lemma backoff_snoc delay start n :
  backoff delay start (S n)
  = backoff delay start n ++ [waitTime delay (start + Z.of_nat n)].
Proof. unfold backoff. by rewrite seq_S, fmap_app. Qed.

Lemma total_wait_backoff delay (k : nat) :
  (total_wait (backoff delay 1 k) == 2 * delay * ((3 # 2) ^ Z.of_nat k - 1))%Q.
Proof.
  induction k as [|k IH].
  - simpl. ring.
  - rewrite backoff_snoc, total_wait_app, IH. simpl total_wait.
    unfold waitTime. replace (1 + Z.of_nat k - 1) with (Z.of_nat k) by lia.
    rewrite Nat2Z.inj_succ, <- Z.add_1_r.
    rewrite Qpower_plus by done. ring.
Qed.

(** X5.  Whatever the operation does and whatever [retries] is, [withRetry]
    invokes it at most [retries] times, and the waits it has asked for are
    the backoff sequence [delay * 1.5^0, delay * 1.5^1, ...] of one wait less
    than there were invocations; in all it has waited
    [2 * delay * (1.5^k - 1)] for [k] waits. *)
Theorem withRetry_waits {T} (script : nat -> Outcome T)
    (retries : Z) (delay : Q) (label : string) :
  let after := snd (withRetry (scripted script) retries delay label fresh_probe) in
  let retried := pred (invocations after) in
  (invocations after <= Z.to_nat retries)%nat
  /\ waits after = backoff delay 1 retried
  /\ (total_wait (waits after)
      == 2 * delay * ((3 # 2) ^ Z.of_nat retried - 1))%Q.
Proof.
  intros after retried. subst after retried. unfold withRetry.
  destruct (withRetry_loop_waits script retries delay label (Z.to_nat retries)
              1 None fresh_probe) as (k & Hk & _ & Hinv & Hwaits); [lia|].
  simpl in Hinv, Hwaits. rewrite Hinv, Hwaits.
  split; [done|]. split; [done|]. apply total_wait_backoff.
Qed.

(** ** The upload *)

Ltac upload_catch e :=
  destruct e; cbv beta iota; repeat case_bool_decide;
  repeat match goal with
         | |- context [if ?c then _ else _] => destruct c
         end.

Section Upload.
Variable JSON_stringify : Value -> string.
Variable net : Net.

(** X6.  Every failure of the upload is an [Error] made by the node: an axios
    failure or a failure of a conversion never leaves it as it is. *)
Theorem upload_throws_Error_only (apiEndpoint : string) (fileData : list Byte.byte)
    (timeoutSeconds : Z) (authHeaders : list (string * string)) (w : World)
    (e : JsError) :
  fst (uploadFileAndGetDocumentId JSON_stringify net apiEndpoint fileData
         timeoutSeconds authHeaders w) = Thrown e ->
  exists msg, e = Error msg.
Proof.
  unfold uploadFileAndGetDocumentId, try_async.
  match goal with
  | |- context [match ?body w with _ => _ end] =>
      destruct (body w) as [[documentId|e0] w1]
  end; [done|].
  upload_catch e0; intros [= <-]; eexists; reflexivity.
Qed.

(** X7.  When the upload returns, the service has answered the POST to
    [{base}/upload] and the answer carries an identifier that counts as
    true under [id] or, failing that, under [documentId]; what is returned
    is that identifier as a string, and the POST is the last request made. *)
Theorem upload_returns_identifier (apiEndpoint : string)
    (fileData : list Byte.byte) (timeoutSeconds : Z)
    (authHeaders : list (string * string)) (w w' : World) (documentId : string) :
  uploadFileAndGetDocumentId JSON_stringify net apiEndpoint fileData
    timeoutSeconds authHeaders w = (Returned documentId, w') ->
  let request := upload_request apiEndpoint fileData timeoutSeconds authHeaders in
  exists (w0 : World) (r : Response Value),
    call_api net w0 request = Resolved r
    /\ w' = w0 ++ [Sent request]
    /\ truthy (or_else (Get (data r) "id") (Get (data r) "documentId")) = true
    /\ ToString (or_else (Get (data r) "id") (Get (data r) "documentId"))
       = Some documentId.
Proof.
  intros Hrun request. subst request. unfold upload_request.
  unfold uploadFileAndGetDocumentId in Hrun.
  apply try_async_returned_inv in Hrun.
  2:{ intros e w1. right. upload_catch e; eexists; reflexivity. }
  destruct (String.eqb apiEndpoint ""); [done|].
  apply bind_returned_inv in Hrun as (available & w1 & _ & Hrun).
  apply bind_returned_inv in Hrun as (r & w2 & Hpost & Hrun).
  apply withRetry_returned_inv in Hpost as [w0 Hpost].
  unfold axios_call in Hpost.
  destruct (call_api net w0 _) as [r0|e0] eqn:Hcall; [|done].
  simpl in Hpost. injection Hpost as -> <-.
  exists w0, r. split; [done|].
  destruct (truthy (data r)); [|done]. cbn [negb] in Hrun.
  unfold or_else in *.
  destruct (truthy (Get (data r) "id")) eqn:Hid; cbn [negb andb] in Hrun.
  - unfold lift, interpolate in Hrun.
    destruct (ToString _); [|done]. by injection Hrun as -> <-.
  - destruct (truthy (Get (data r) "documentId")) eqn:Hdoc; [|done].
    unfold lift, interpolate in Hrun.
    destruct (ToString _); [|done]. by injection Hrun as -> <-.
Qed.
End Upload.

Lemma upload_throws_Error_only_witness :
  exists msg,
    Error "Cannot connect to the conversion service at http://localhost:3000/api. Please verify the API URL is correct and the service is running."
    = Error msg.
Proof.
  apply (upload_throws_Error_only JSON_stringify_model (service_without Upload)
           example_base (data (example_file None)) 60 [] []).
  vm_compute. reflexivity.
Defined.

Lemma upload_returns_identifier_witness :
  exists (w0 : World) (r : Response Value),
    call_api (example_service None) w0
      (upload_request example_base (data (example_file None)) 60 [])
    = Resolved r
    /\ [Sent (mkRequest GET "http://localhost:3000/api/health" 10000 [] NoBody);
        Sent (upload_request example_base (data (example_file None)) 60 [])]
       = w0 ++ [Sent (upload_request example_base (data (example_file None)) 60 [])]
    /\ truthy (or_else (Get (data r) "id") (Get (data r) "documentId")) = true
    /\ ToString (or_else (Get (data r) "id") (Get (data r) "documentId"))
       = Some "67cc".
Proof.
  apply (upload_returns_identifier JSON_stringify_model (example_service None)
           example_base (data (example_file None)) 60 [] []).
  vm_compute. reflexivity.
Defined.

(** ** The other client operations *)

Lemma list_of_response_listed key d items :
  list_of_response key d = Some items <-> listed key d items.
Proof.
  unfold list_of_response, listed. destruct d as [| |b|n|s|l|props]; simpl;
    try (split; [done|by intros [?|(? & ? & ?)]]).
  - split; [intros [= ->]; by left|].
    intros [[= ->]|(? & ? & ?)]; done.
  - destruct (own_prop key props) as [v|] eqn:Hv; simpl.
    + split.
      * destruct v; try done. intros [= ->]. right. eauto.
      * intros [?|(props' & [= <-] & Hp)]; [done|].
        rewrite Hv in Hp. by injection Hp as ->.
    + split; [done|]. intros [?|(props' & [= <-] & Hp)]; [done|].
      by rewrite Hv in Hp.
Qed.

Lemma listed_truthy key d items : listed key d items -> truthy d = true.
Proof. by intros [->|(props & -> & _)]. Qed.

Section ClientOperations.
Variable JSON_stringify : Value -> string.
Variable net : Net.

(** X8.  List-sheets and list-fields return a list exactly when the service
    answers with the list in one of two shapes, the array itself or an object
    holding it under [sheets] (under [fields]), and every entry can be
    written into the log line; the request made is then the only event
    added. *)
Theorem list_operations_accept_both_shapes (apiEndpoint documentId : string)
    (sheetIndex headersIndex timeoutSeconds : Z)
    (authHeaders : list (string * string)) (w w' : World) (items : list Value) :
  let sheets := sheets_request apiEndpoint documentId timeoutSeconds authHeaders in
  let fields :=
    fields_request apiEndpoint documentId sheetIndex headersIndex timeoutSeconds
      authHeaders in
  (getSheets JSON_stringify net apiEndpoint documentId timeoutSeconds authHeaders w
   = (Returned items, w')
   <-> exists r,
         call_api net w sheets = Resolved r
         /\ listed "sheets" (data r) items
         /\ is_Some (Array_join ", " items)
         /\ w' = w ++ [Sent sheets])
  /\ (getFields JSON_stringify net apiEndpoint documentId sheetIndex headersIndex
        timeoutSeconds authHeaders w
      = (Returned items, w')
      <-> exists r,
            call_api net w fields = Resolved r
            /\ listed "fields" (data r) items
            /\ is_Some (Array_join ", " (map (fieldDisplay JSON_stringify) items))
            /\ w' = w ++ [Sent fields]).
Proof.
  intros sheets fields. subst sheets fields.
  unfold sheets_request, fields_request. split.
  - unfold getSheets, try_async, bind, axios_call, ret, throw.
    destruct (call_api net w _) as [r|e]; simpl.
    + destruct (truthy (data r)) eqn:Hdata; simpl.
      * destruct (list_of_response "sheets" (data r)) as [l|] eqn:Hl; simpl.
        -- apply list_of_response_listed in Hl.
           destruct (Array_join ", " l) as [s|] eqn:Hjoin; simpl.
           ++ split.
              ** intros [= -> <-]. exists r. by eauto.
              ** intros (r' & [= <-] & Hlisted & _ & ->).
                 apply list_of_response_listed in Hl, Hlisted.
                 rewrite Hl in Hlisted. by injection Hlisted as ->.
           ++ split; [done|]. intros (r' & [= <-] & Hlisted & [s Hs] & _).
              apply list_of_response_listed in Hl, Hlisted.
              rewrite Hl in Hlisted. injection Hlisted as ->. congruence.
        -- split; [done|]. intros (r' & [= <-] & Hlisted & _).
           apply list_of_response_listed in Hlisted. congruence.
      * split; [done|]. intros (r' & [= <-] & Hlisted & _).
        apply listed_truthy in Hlisted. congruence.
    + split; [done|]. by intros (r' & [=] & _).
  - unfold getFields, try_async, bind, axios_call, ret, throw.
    destruct (call_api net w _) as [r|e]; simpl.
    + destruct (truthy (data r)) eqn:Hdata; simpl.
      * destruct (list_of_response "fields" (data r)) as [l|] eqn:Hl; simpl.
        -- apply list_of_response_listed in Hl.
           destruct (Array_join ", " _) as [s|] eqn:Hjoin; simpl.
           ++ split.
              ** intros [= -> <-]. exists r. by eauto.
              ** intros (r' & [= <-] & Hlisted & _ & ->).
                 apply list_of_response_listed in Hl, Hlisted.
                 rewrite Hl in Hlisted. by injection Hlisted as ->.
           ++ split; [done|]. intros (r' & [= <-] & Hlisted & [s Hs] & _).
              apply list_of_response_listed in Hl, Hlisted.
              rewrite Hl in Hlisted. injection Hlisted as ->. congruence.
        -- split; [done|]. intros (r' & [= <-] & Hlisted & _).
           apply list_of_response_listed in Hlisted. congruence.
      * split; [done|]. intros (r' & [= <-] & Hlisted & _).
        apply listed_truthy in Hlisted. congruence.
    + split; [done|]. by intros (r' & [=] & _).
Qed.
End ClientOperations.

Section Parameters.
Variable JSON_stringify : Value -> string.
Variable net : Net.

Lemma mapM_outcome_returns {A B} (f : A -> Outcome B) (g : A -> B) l :
  Forall (fun x => f x = Returned (g x)) l ->
  mapM_outcome f l = Returned (map g l).
Proof.
  induction 1 as [|x l Hx _ IH]; [done|]. simpl. by rewrite Hx, IH.
Qed.

Lemma mapM_outcome_throws {A B} (f : A -> Outcome B) l e :
  Exists (fun x => exists e', f x = Thrown e') l ->
  (forall x e', f x = Thrown e' -> e' = e) ->
  mapM_outcome f l = Thrown e.
Proof.
  intros Hex Hsame. induction Hex as [x l [e' Hx]|x l _ IH]; simpl.
  - rewrite Hx. simpl. by rewrite (Hsame _ _ Hx).
  - destruct (f x) as [y|e'] eqn:Hx; simpl.
    + by rewrite IH.
    + by rewrite (Hsame _ _ Hx).
Qed.

Lemma trimmed_name_string field :
  is_string (fieldName_of JSON_stringify field) = true ->
  trimmed_name JSON_stringify field = Returned (sent_name JSON_stringify field).
Proof.
  unfold trimmed_name, sent_name. by destruct (fieldName_of _ _).
Qed.

Lemma trimmed_name_other field :
  is_string (fieldName_of JSON_stringify field) = false ->
  trimmed_name JSON_stringify field
  = Thrown (TypeError "fieldName.trim is not a function").
Proof.
  unfold trimmed_name. by destruct (fieldName_of _ _).
Qed.

Lemma fieldMapping_of_strings (mapping : gmap string Value) :
  (forall key field, mapping !! key = Some field ->
     is_string (fieldName_of JSON_stringify field) = true) ->
  fieldMapping_of JSON_stringify mapping
  = Returned (sent_name JSON_stringify <$> mapping).
Proof.
  intros Hall. unfold fieldMapping_of.
  rewrite (mapM_outcome_returns _
             (fun kv => (fst kv, sent_name JSON_stringify (snd kv)))).
  - simpl. f_equal.
    rewrite <- (list_to_map_to_list mapping) at 2.
    rewrite <- list_to_map_fmap. f_equal.
  - apply Forall_forall. intros [k v] Hkv%elem_of_map_to_list.
    simpl. by rewrite trimmed_name_string by eauto.
Qed.

Lemma fieldMapping_of_other (mapping : gmap string Value) key field :
  mapping !! key = Some field ->
  is_string (fieldName_of JSON_stringify field) = false ->
  fieldMapping_of JSON_stringify mapping
  = Thrown (TypeError "fieldName.trim is not a function").
Proof.
  intros Hfield Hname. unfold fieldMapping_of.
  rewrite (mapM_outcome_throws _ _ (TypeError "fieldName.trim is not a function")).
  - done.
  - apply Exists_exists. exists (key, field).
    split; [by apply elem_of_map_to_list|].
    simpl. rewrite trimmed_name_other by done. by eexists.
  - intros [k v] e'. unfold trimmed_name. simpl.
    destruct (fieldName_of JSON_stringify v); simpl; by intros [= <-].
Qed.

(** X9.  The mapping sent to the service has the keys of the mapping it is
    made from, each with the name of its field, trimmed, when every name is
    a string; one name that is not a string makes the conversion throw a
    [TypeError]. *)
Theorem fieldMapping_of_names (mapping : gmap string Value) :
  ((forall key field, mapping !! key = Some field ->
      is_string (fieldName_of JSON_stringify field) = true) ->
   fieldMapping_of JSON_stringify mapping
   = Returned (sent_name JSON_stringify <$> mapping))
  /\ (forall key field, mapping !! key = Some field ->
        is_string (fieldName_of JSON_stringify field) = false ->
        fieldMapping_of JSON_stringify mapping
        = Thrown (TypeError "fieldName.trim is not a function")).
Proof.
  split; [apply fieldMapping_of_strings|apply fieldMapping_of_other].
Qed.

(** X10.  Set-parameters returns exactly when the names of the fields are
    strings and the service answers the POST to
    [{base}/documents/{id}/parameters], whose body carries [sheetIndex],
    [headers_index], the mapping and the export indexes in decimal, with a
    value that counts as true under [success]. *)
Theorem setParameters_returns_iff (apiEndpoint documentId : string)
    (sheetIndex headersIndex : Z) (mapping : gmap string Value)
    (exportFieldIndexes : list Z) (timeoutSeconds : Z)
    (authHeaders : list (string * string)) (w w' : World) :
  setParameters JSON_stringify net apiEndpoint documentId sheetIndex headersIndex
    mapping exportFieldIndexes timeoutSeconds authHeaders w = (Returned tt, w')
  <-> exists fieldMapping r,
        let request :=
          parameters_request apiEndpoint documentId sheetIndex headersIndex
            fieldMapping exportFieldIndexes timeoutSeconds authHeaders in
        fieldMapping_of JSON_stringify mapping = Returned fieldMapping
        /\ call_api net w request = Resolved r
        /\ truthy (Get (data r) "success") = true
        /\ w' = w ++ [Sent request].
Proof.
  unfold parameters_request, setParameters, try_async, bind, axios_call, lift,
    ret, throw.
  destruct (fieldMapping_of JSON_stringify mapping) as [fm|e]; simpl.
  - destruct (call_api net w _) as [r|e] eqn:Hcall; simpl.
    + destruct (truthy (data r)) eqn:Hdata; simpl.
      * destruct (truthy (Get (data r) "success")) eqn:Hok; simpl.
        -- split.
           ++ intros [= <-]. exists fm, r. by rewrite Hcall.
           ++ by intros (fm' & r' & [= <-] & _ & _ & ->).
        -- split; [done|]. intros (fm' & r' & [= <-] & Hr & Hs & _).
           rewrite Hcall in Hr. injection Hr as <-. congruence.
      * split; [done|]. intros (fm' & r' & [= <-] & Hr & Hs & _).
        rewrite Hcall in Hr. injection Hr as <-.
        destruct (data r); done.
    + split; [done|]. intros (fm' & r' & [= <-] & Hr & _).
      rewrite Hcall in Hr. done.
  - split; [by destruct e|]. by intros (fm' & r' & [=] & _).
Qed.

(** X11.  Fetch-export returns the payload of the answer as it is, and
    returns exactly when the service answers with a payload that counts as
    true: [null], [false], [0] and the empty string are failures, an empty
    array or object is not. *)
Theorem getExportedData_returns_iff (apiEndpoint documentId : string)
    (timeoutSeconds : Z) (authHeaders : list (string * string))
    (w w' : World) (v : Value) :
  let request := exported_request apiEndpoint documentId timeoutSeconds authHeaders in
  getExportedData JSON_stringify net apiEndpoint documentId timeoutSeconds
    authHeaders w = (Returned v, w')
  <-> exists r, call_api net w request = Resolved r
                /\ data r = v /\ truthy v = true /\ w' = w ++ [Sent request].
Proof.
  intros request. subst request.
  unfold exported_request, getExportedData, try_async, bind, axios_call, ret, throw.
  destruct (call_api net w _) as [r|e]; simpl.
  - destruct (truthy (data r)) eqn:Hdata; simpl.
    + split.
      * intros [= <- <-]. by exists r.
      * by intros (r' & [= <-] & <- & _ & ->).
    + split; [done|]. intros (r' & [= <-] & <- & Hv & _). congruence.
  - split; [done|]. by intros (r' & [=] & _).
Qed.

(** X12.  List-sheets, fetch-export and set-parameters make one request each,
    whatever the service answers; set-parameters makes none when a field
    name is not a string. *)
Theorem client_operations_send_one_request (apiEndpoint documentId : string)
    (sheetIndex headersIndex : Z) (mapping : gmap string Value)
    (exportFieldIndexes : list Z) (timeoutSeconds : Z)
    (authHeaders : list (string * string)) (w : World) :
  snd (getSheets JSON_stringify net apiEndpoint documentId timeoutSeconds
         authHeaders w)
  = w ++ [Sent (sheets_request apiEndpoint documentId timeoutSeconds authHeaders)]
  /\ snd (getExportedData JSON_stringify net apiEndpoint documentId
            timeoutSeconds authHeaders w)
     = w ++ [Sent (exported_request apiEndpoint documentId timeoutSeconds
                     authHeaders)]
  /\ snd (setParameters JSON_stringify net apiEndpoint documentId sheetIndex
            headersIndex mapping exportFieldIndexes timeoutSeconds authHeaders w)
     = match fieldMapping_of JSON_stringify mapping with
       | Returned fieldMapping =>
           w ++ [Sent (parameters_request apiEndpoint documentId sheetIndex
                         headersIndex fieldMapping exportFieldIndexes
                         timeoutSeconds authHeaders)]
       | Thrown _ => w
       end.
Proof.
  split; [|split].
  - unfold getSheets, try_async, bind, axios_call, sheets_request.
    destruct (call_api net w _) as [r|e]; simpl; [|done].
    destruct (truthy (data r)); simpl; [|done].
    destruct (list_of_response "sheets" (data r)); simpl; [|done].
    by destruct (Array_join _ _).
  - unfold getExportedData, try_async, bind, axios_call, exported_request.
    destruct (call_api net w _) as [r|e]; simpl; [|done].
    by destruct (truthy (data r)).
  - unfold setParameters, try_async, bind, axios_call, lift, parameters_request.
    destruct (fieldMapping_of JSON_stringify mapping) as [fm|e]; simpl.
    + destruct (call_api net w _) as [r|e]; simpl; [|done].
      destruct (truthy (data r)); simpl; [|done].
      by destruct (truthy (Get (data r) "success")).
    + by destruct e.
Qed.

End Parameters.

Lemma fieldMapping_of_names_witness :
  fieldMapping_of JSON_stringify_model {["0" := VStr " Model "]}
  = Returned (sent_name JSON_stringify_model <$> {["0" := VStr " Model "]}).
Proof.
  apply (proj1 (fieldMapping_of_names JSON_stringify_model
                  {["0" := VStr " Model "]})).
  intros key field [_ <-]%lookup_singleton_Some. reflexivity.
Defined.

(** ** Field Mapper: the overrides *)

Lemma customMappingsMap_snoc overrides o :
  customMappingsMap (overrides ++ [o])
  = <[index o := name o]> (customMappingsMap overrides).
Proof. unfold customMappingsMap. by rewrite foldl_app. Qed.

Lemma customMappingsMap_lookup overrides i :
  customMappingsMap overrides !! i = name <$> override_for overrides i.
Proof.
  unfold override_for.
  induction overrides as [|o overrides IH] using rev_ind; [done|].
  rewrite customMappingsMap_snoc, filter_app, filter_cons, filter_nil.
  destruct (decide (index o = i)) as [<-|Hne].
  - by rewrite lookup_insert_eq, last_snoc.
  - by rewrite lookup_insert_ne, app_nil_r.
Qed.

Lemma createFieldMappings_dom fields exp overrides :
  let r := createFieldMappings fields exp overrides in
  dom (mapping r) = list_to_set (Number_toString <$> exportFieldIndexes r).
Proof.
  unfold createFieldMappings. destruct exp as [|e exp]; simpl.
  - rewrite dom_map_all_fields, positions_from_0, dom_empty_L. set_solver.
  - rewrite dom_map_selected_fields, dom_empty_L. set_solver.
Qed.

Lemma createFieldMappings_indexes fields exp overrides overrides' :
  exportFieldIndexes (createFieldMappings fields exp overrides)
  = exportFieldIndexes (createFieldMappings fields exp overrides').
Proof. unfold createFieldMappings. by destruct exp. Qed.

Lemma createFieldMappings_ext fields exp overrides overrides' :
  (forall i, i ∈ exportFieldIndexes (createFieldMappings fields exp overrides) ->
     customMappingsMap overrides !! i = customMappingsMap overrides' !! i) ->
  createFieldMappings fields exp overrides
  = createFieldMappings fields exp overrides'.
Proof.
  intros Hsame.
  pose proof (createFieldMappings_indexes fields exp overrides overrides') as Hidx.
  pose proof (createFieldMappings_dom fields exp overrides) as Hdom.
  pose proof (createFieldMappings_dom fields exp overrides') as Hdom'.
  pose proof (createFieldMappings_lookup fields exp overrides) as Hl.
  pose proof (createFieldMappings_lookup fields exp overrides') as Hl'.
  cbv zeta in *.
  destruct (createFieldMappings fields exp overrides) as [m idx].
  destruct (createFieldMappings fields exp overrides') as [m' idx'].
  simpl in *. subst idx'. f_equal.
  apply map_eq. intros key.
  destruct (decide (key ∈ dom m)) as [Hin|Hout].
  - rewrite Hdom in Hin. apply elem_of_list_to_set, list_elem_of_fmap in Hin
      as (i & -> & Hi).
    rewrite Hl, Hl' by done. unfold mapped_field. by rewrite (Hsame i Hi).
  - assert (key ∉ dom m') by (by rewrite Hdom', <- Hdom).
    apply not_elem_of_dom in Hout. apply not_elem_of_dom in H.
    by rewrite Hout, H.
Qed.

(** X13.  An exported index is mapped to the name of the last override given
    for it when that name is not empty, and to the original field when the
    name is empty or there is no override. *)
Theorem createFieldMappings_override (originalFields : list Value)
    (exportIndices : list Z) (customMappings : list CustomFieldOverride) (i : Z) :
  let r := createFieldMappings originalFields exportIndices customMappings in
  i ∈ exportFieldIndexes r ->
  mapping r !! Number_toString i
  = Some match override_for customMappings i with
         | Some o =>
             if String.eqb (name o) "" then array_get originalFields i
             else VStr (name o)
         | None => array_get originalFields i
         end.
Proof.
  intros r Hi. subst r. rewrite createFieldMappings_lookup by done.
  unfold mapped_field. rewrite customMappingsMap_lookup.
  destruct (override_for customMappings i) as [o|]; [|done]. simpl.
  unfold or_else. simpl. by destruct (String.eqb (name o) "").
Qed.

Lemma createFieldMappings_override_witness :
  mapping (createFieldMappings [VStr "name"; VStr "email"] [0; 1]
             [{| index := 1; name := "e-mail" |}; {| index := 1; name := "mail" |}])
    !! Number_toString 1
  = Some (VStr "mail").
Proof.
  apply (createFieldMappings_override [VStr "name"; VStr "email"] [0; 1]
           [{| index := 1; name := "e-mail" |}; {| index := 1; name := "mail" |}] 1).
  apply (bool_decide_unpack _). vm_compute. reflexivity.
Defined.

(** X14.  An override for an index that is not exported changes nothing,
    wherever it stands in the list. *)
Theorem createFieldMappings_ignores_other_overrides
    (originalFields : list Value) (exportIndices : list Z)
    (before after : list CustomFieldOverride) (o : CustomFieldOverride) :
  index o ∉ exportFieldIndexes
              (createFieldMappings originalFields exportIndices (before ++ after)) ->
  createFieldMappings originalFields exportIndices (before ++ o :: after)
  = createFieldMappings originalFields exportIndices (before ++ after).
Proof.
  intros Hout. apply createFieldMappings_ext. intros i Hi.
  rewrite (createFieldMappings_indexes _ _ _ (before ++ after)) in Hi.
  rewrite !customMappingsMap_lookup. unfold override_for.
  rewrite !filter_app, filter_cons.
  destruct (decide (index o = i)) as [<-|Hne]; [done|done].
Qed.

Lemma createFieldMappings_ignores_other_overrides_witness :
  createFieldMappings [VStr "name"; VStr "email"] [0]
    ([] ++ {| index := 1; name := "mail" |} :: [])
  = createFieldMappings [VStr "name"; VStr "email"] [0] ([] ++ []).
Proof.
  apply createFieldMappings_ignores_other_overrides.
  apply (bool_decide_unpack _). vm_compute. reflexivity.
Defined.

(** ** The mapping that is sent *)

Section Payload.
Variable JSON_stringify : Value -> string.

Lemma createFieldMappings_in_range fields exp overrides i :
  i ∈ exportFieldIndexes (createFieldMappings fields exp overrides) ->
  in_range fields i.
Proof.
  unfold createFieldMappings. destruct exp as [|e exp]; simpl.
  - intros Hi. apply list_elem_of_fmap in Hi as (k & -> & Hk).
    apply elem_of_seq in Hk. unfold in_range. lia.
  - intros Hi. by apply list_elem_of_filter in Hi as [Hi _].
Qed.

Lemma array_get_string fields i :
  Forall (fun field => is_string field = true) fields ->
  in_range fields i ->
  array_get fields i = VStr (field_text (array_get fields i)).
Proof.
  intros Hall [Hlo Hhi]. unfold array_get.
  destruct (Z.ltb_spec i 0); [lia|].
  destruct (lookup_lt_is_Some_2 fields (Z.to_nat i)) as [field Hf]; [lia|].
  rewrite Hf. simpl.
  apply (Forall_lookup_1 _ _ _ _ Hall) in Hf. by destruct field.
Qed.

(** X15.  Field mapper and set-parameters together: when every original
    field is a string, the mapping sent to the service has one entry for
    each exported index and no other, and the entry is, trimmed, the name of
    the last override given for the index when that name is not empty, and
    the original field otherwise. *)
Theorem payload_mapping_of_string_fields (originalFields : list Value)
    (exportIndices : list Z) (customMappings : list CustomFieldOverride) :
  Forall (fun field => is_string field = true) originalFields ->
  let r := createFieldMappings originalFields exportIndices customMappings in
  exists fieldMapping : gmap string string,
    fieldMapping_of JSON_stringify (mapping r) = Returned fieldMapping
    /\ dom fieldMapping = list_to_set (Number_toString <$> exportFieldIndexes r)
    /\ forall i, i ∈ exportFieldIndexes r ->
         fieldMapping !! Number_toString i
         = Some (trim match override_for customMappings i with
                      | Some o =>
                          if String.eqb (name o) ""
                          then field_text (array_get originalFields i)
                          else name o
                      | None => field_text (array_get originalFields i)
                      end).
Proof.
  intros Hall r.
  assert (Hvalue : forall i, i ∈ exportFieldIndexes r ->
            mapping r !! Number_toString i
            = Some (VStr match override_for customMappings i with
                         | Some o =>
                             if String.eqb (name o) ""
                             then field_text (array_get originalFields i)
                             else name o
                         | None => field_text (array_get originalFields i)
                         end)).
  { intros i Hi. subst r. rewrite createFieldMappings_lookup by done.
    unfold mapped_field. rewrite customMappingsMap_lookup.
    rewrite (array_get_string originalFields i Hall)
      by (by eapply createFieldMappings_in_range).
    destruct (override_for customMappings i) as [o|]; [|done]. simpl.
    unfold or_else. simpl. by destruct (String.eqb (name o) ""). }
  exists (sent_name JSON_stringify <$> mapping r). split; [|split].
  - apply fieldMapping_of_strings. intros key field Hkey.
    assert (Hin : key ∈ dom (mapping r)) by (apply elem_of_dom; eauto).
    subst r. rewrite createFieldMappings_dom in Hin.
    apply elem_of_list_to_set, list_elem_of_fmap in Hin as (i & -> & Hi).
    rewrite (Hvalue i Hi) in Hkey. by injection Hkey as <-.
  - rewrite dom_fmap_L. apply createFieldMappings_dom.
  - intros i Hi. rewrite lookup_fmap, (Hvalue i Hi). reflexivity.
Qed.
End Payload.

Lemma payload_mapping_of_string_fields_witness :
  exists fieldMapping : gmap string string,
    fieldMapping_of JSON_stringify_model
      (mapping (createFieldMappings [VStr " Model "; VStr "Price"] [0; 1]
                  [{| index := 1; name := " price " |}]))
    = Returned fieldMapping
    /\ dom fieldMapping
       = list_to_set
           (Number_toString
              <$> exportFieldIndexes
                    (createFieldMappings [VStr " Model "; VStr "Price"] [0; 1]
                       [{| index := 1; name := " price " |}]))
    /\ forall i,
         i ∈ exportFieldIndexes
               (createFieldMappings [VStr " Model "; VStr "Price"] [0; 1]
                  [{| index := 1; name := " price " |}]) ->
         fieldMapping !! Number_toString i
         = Some (trim match override_for [{| index := 1; name := " price " |}] i with
                      | Some o =>
                          if String.eqb (name o) ""
                          then field_text (array_get [VStr " Model "; VStr "Price"] i)
                          else name o
                      | None => field_text (array_get [VStr " Model "; VStr "Price"] i)
                      end).
Proof.
  apply (payload_mapping_of_string_fields JSON_stringify_model
           [VStr " Model "; VStr "Price"] [0; 1]
           [{| index := 1; name := " price " |}]).
  repeat constructor.
Defined.

(** ** Workflow Orchestrator: what a run sends and how it fails *)

Section Traces.
Variable P : Event -> Prop.

Lemma behaves_axios_call_rejects net r :
  P (Sent r) -> behaves P own_or_axios (axios_call net r).
Proof.
  intros Hr w. exists [Sent r]. unfold axios_call. simpl.
  repeat split; [by repeat constructor|].
  intros e. destruct (call_api net w r); simpl; [done|]. by intros [= <-].
Qed.

Lemma behaves_axios_arraybuffer_rejects net r :
  P (Sent r) -> behaves P own_or_axios (axios_arraybuffer net r).
Proof.
  intros Hr w. exists [Sent r]. unfold axios_arraybuffer. simpl.
  repeat split; [by repeat constructor|].
  intros e. destruct (fetch_file net w r); simpl; [done|]. by intros [= <-].
Qed.

Lemma own_failure_interpolate v e : interpolate v = Thrown e -> own_failure e.
Proof. unfold interpolate. destruct (ToString v); [done|]. by intros [= <-]. Qed.

Lemma own_is_own_or_axios e : own_failure e -> own_or_axios e.
Proof. by destruct e. Qed.

Lemma own_is_inner e : own_failure e -> inner_failure e.
Proof. by destruct e. Qed.

Lemma own_or_axios_is_inner e : own_or_axios e -> inner_failure e.
Proof. by destruct e. Qed.

Section Stages.
Variable JSON_parse : string -> option Value.
Variable URL_parse : string -> option URL.
Variable JSON_stringify : Value -> string.
Variable net : Net.

Ltac trace_step :=
  first
    [ apply behaves_ret
    | apply behaves_throw; done
    | apply behaves_axios_call_rejects; done
    | apply behaves_lift; intros ? ?%own_failure_interpolate;
      first [done | by apply own_is_own_or_axios]
    | apply behaves_bind; [|intros ?]
    | match goal with
      | |- behaves _ _ (if ?b then _ else _) => destruct b
      | |- behaves _ _ (match ?x with _ => _ end) => destruct x
      end ].

Ltac rethrow_own :=
  let e := fresh "e" in
  intros e ?; destruct e; try done; apply behaves_throw; done.

Lemma trace_verifyApiEndpoint apiEndpoint timeout E :
  P (Sent (mkRequest GET (strip_trailing_slashes apiEndpoint +:+ "/health")
             10000 [] NoBody)) ->
  P (Sent (mkRequest GET (strip_trailing_slashes apiEndpoint) 5000 [] NoBody)) ->
  behaves P E (verifyApiEndpoint net apiEndpoint timeout).
Proof.
  intros Hhealth Hroot. unfold verifyApiEndpoint.
  apply behaves_try with (E1 := own_or_axios).
  - apply behaves_bind; [|intros ?; apply behaves_ret].
    apply behaves_try with (E1 := own_or_axios).
    + by apply behaves_axios_call_rejects.
    + intros _ _. by apply behaves_axios_call_rejects.
  - intros e _. apply behaves_ret.
Qed.

Lemma trace_getSheets apiEndpoint documentId timeoutSeconds authHeaders :
  P (Sent (sheets_request apiEndpoint documentId timeoutSeconds authHeaders)) ->
  behaves P own_failure
    (getSheets JSON_stringify net apiEndpoint documentId timeoutSeconds authHeaders).
Proof.
  intros Hr. unfold getSheets. apply behaves_try with (E1 := own_or_axios).
  - repeat trace_step.
  - rethrow_own.
Qed.

Lemma trace_getFields apiEndpoint documentId sheetIndex headersIndex
    timeoutSeconds authHeaders :
  P (Sent (fields_request apiEndpoint documentId sheetIndex headersIndex
             timeoutSeconds authHeaders)) ->
  behaves P own_failure
    (getFields JSON_stringify net apiEndpoint documentId sheetIndex headersIndex
       timeoutSeconds authHeaders).
Proof.
  intros Hr. unfold getFields. apply behaves_try with (E1 := own_or_axios).
  - repeat trace_step.
  - rethrow_own.
Qed.

Lemma own_failure_mapM {A B} (f : A -> Outcome B) l e :
  (forall x e', f x = Thrown e' -> own_failure e') ->
  mapM_outcome f l = Thrown e -> own_failure e.
Proof.
  intros Hf. induction l as [|x l IH]; [done|]. simpl.
  destruct (f x) as [y|e1] eqn:Hx; simpl.
  - destruct (mapM_outcome f l) as [ys|e2]; simpl; [done|].
    intros [= <-]. by apply IH.
  - intros [= <-]. by apply (Hf x).
Qed.

Lemma own_failure_fieldMapping_of mapping e :
  fieldMapping_of JSON_stringify mapping = Thrown e -> own_failure e.
Proof.
  unfold fieldMapping_of.
  destruct (mapM_outcome _ _) as [kvs|e1] eqn:Hm; simpl; [done|].
  intros [= <-]. apply (own_failure_mapM _ _ _) in Hm; [done|].
  intros [k v] e'. unfold trimmed_name. simpl.
  destruct (fieldName_of JSON_stringify v); simpl; by intros [= <-].
Qed.

Lemma trace_setParameters apiEndpoint documentId sheetIndex headersIndex
    mapping exportFieldIndexes timeoutSeconds authHeaders :
  (forall fieldMapping,
     P (Sent (parameters_request apiEndpoint documentId sheetIndex headersIndex
                fieldMapping exportFieldIndexes timeoutSeconds authHeaders))) ->
  behaves P own_failure
    (setParameters JSON_stringify net apiEndpoint documentId sheetIndex
       headersIndex mapping exportFieldIndexes timeoutSeconds authHeaders).
Proof.
  intros Hr. unfold setParameters. apply behaves_try with (E1 := own_or_axios).
  - apply behaves_bind.
    + apply behaves_lift. intros e He.
      by apply own_is_own_or_axios, (own_failure_fieldMapping_of mapping).
    + intros fieldMapping. specialize (Hr fieldMapping). repeat trace_step.
  - rethrow_own.
Qed.

Lemma trace_getExportedData apiEndpoint documentId timeoutSeconds authHeaders :
  P (Sent (exported_request apiEndpoint documentId timeoutSeconds authHeaders)) ->
  behaves P own_failure
    (getExportedData JSON_stringify net apiEndpoint documentId timeoutSeconds
       authHeaders).
Proof.
  intros Hr. unfold getExportedData. apply behaves_try with (E1 := own_or_axios).
  - repeat trace_step.
  - rethrow_own.
Qed.

Lemma trace_upload apiEndpoint fileData timeoutSeconds authHeaders :
  (forall ms, P (Slept ms)) ->
  P (Sent (mkRequest GET (strip_trailing_slashes apiEndpoint +:+ "/health")
             10000 [] NoBody)) ->
  P (Sent (mkRequest GET (strip_trailing_slashes apiEndpoint) 5000 [] NoBody)) ->
  P (Sent (upload_request apiEndpoint fileData timeoutSeconds authHeaders)) ->
  behaves P own_failure
    (uploadFileAndGetDocumentId JSON_stringify net apiEndpoint fileData
       timeoutSeconds authHeaders).
Proof.
  intros Hsleep Hhealth Hroot Hpost. unfold uploadFileAndGetDocumentId.
  apply behaves_try with (E1 := own_or_axios).
  - destruct (String.eqb apiEndpoint ""); [by apply behaves_throw|].
    apply behaves_bind; [by apply trace_verifyApiEndpoint|].
    intros _. apply behaves_bind.
    + apply behaves_withRetry; [done| |done].
      by apply behaves_axios_call_rejects.
    + intros uploadResult. repeat trace_step.
  - intros e _. destruct e; try (apply behaves_throw; done).
    repeat trace_step.
Qed.

End Stages.
End Traces.

Lemma own_failure_sheet_labels sheets e :
  mapM_outcome (fun x => x) (imap sheet_label sheets) = Thrown e -> own_failure e.
Proof.
  assert (Hall : Forall (fun o => forall e', o = Thrown e' -> own_failure e')
                   (imap sheet_label sheets)).
  { apply Forall_lookup. intros i o. rewrite list_lookup_imap.
    destruct (sheets !! i) as [sheet|]; [|done]. intros [= <-].
    unfold sheet_label.
    destruct sheet; try done; destruct (truthy _); try done;
      apply own_failure_interpolate. }
  revert e. induction Hall as [|o l Ho Hl IH]; [done|]. simpl. intros e.
  destruct o as [y|e1]; simpl.
  - destruct (mapM_outcome _ l) as [ys|e2]; simpl; [done|].
    intros [= <-]. by apply IH.
  - intros [= <-]. by apply Ho.
Qed.

Section Run.
Variable JSON_parse : string -> option Value.
Variable URL_parse : string -> option URL.
Variable JSON_stringify : Value -> string.
Variable net : Net.

Lemma isValidUrl_returns s : exists b, isValidUrl URL_parse s = Returned b.
Proof. rewrite isValidUrl_form. eauto. Qed.

Lemma below_base p path headers m t body :
  headers = authHeaders_of p
  \/ headers = ("Connection", "keep-alive") :: authHeaders_of p ->
  event_of_run p
    (Sent (mkRequest m
             (strip_trailing_slashes
                (strip_trailing_slashes (param_apiEndpoint p))
              +:+ "/" +:+ path) t headers body)).
Proof.
  intros Hh. right. right. rewrite strip_trailing_slashes_idemp. simpl. eauto.
Qed.

Lemma execute_trace p :
  behaves (event_of_run p) run_failure
    (execute JSON_parse URL_parse JSON_stringify net p).
Proof.
  unfold execute. apply behaves_try with (E1 := inner_failure).
  - destruct (String.eqb (param_apiEndpoint p) ""); [by apply behaves_throw|].
    apply behaves_bind.
    { apply behaves_lift. intros e He.
      destruct (isValidUrl_returns (strip_trailing_slashes (param_apiEndpoint p)))
        as [b Hb]. congruence. }
    intros apiOk. destruct (negb apiOk); [by apply behaves_throw|].
    apply behaves_bind.
    { apply behaves_lift. intros e He.
      destruct (isValidUrl_returns (param_fileUrl p)) as [b Hb]. congruence. }
    intros fileOk. destruct (negb fileOk); [by apply behaves_throw|].
    apply behaves_bind.
    { apply behaves_withRetry; [done| |done].
      eapply behaves_weaken; [apply own_or_axios_is_inner|].
      apply behaves_axios_arraybuffer_rejects. by left. }
    intros fileResponse.
    destruct (exceeds_limit _); [by apply behaves_throw|].
    apply behaves_bind.
    { eapply behaves_weaken; [apply own_is_inner|].
      apply trace_upload; [done| | |].
      - right. left. rewrite strip_trailing_slashes_idemp. simpl. auto.
      - right. left. rewrite strip_trailing_slashes_idemp. simpl. auto.
      - apply (below_base p "upload"). by right. }
    intros documentId. apply behaves_bind.
    { apply behaves_withRetry; [done| |done].
      eapply behaves_weaken; [apply own_is_inner|].
      apply trace_getSheets. apply (below_base p). by left. }
    intros sheets.
    destruct (_ =? 0); [by apply behaves_throw|].
    destruct (_ || _); [by apply behaves_throw|].
    apply behaves_bind.
    { apply behaves_lift. intros e He. apply own_is_inner.
      by eapply own_failure_sheet_labels. }
    intros availableSheets. apply behaves_bind.
    { apply behaves_withRetry; [done| |done].
      eapply behaves_weaken; [apply own_is_inner|].
      apply trace_getFields. unfold fields_request, fieldsUrl.
      rewrite <- (string_app_assoc _ "/documents/").
      change "/documents/" with ("/" +:+ "documents/").
      rewrite !string_app_assoc.
      apply (below_base p). by left. }
    intros fields.
    destruct (_ =? 0); [by apply behaves_throw|].
    apply behaves_bind.
    { apply behaves_lift. intros e He.
      destruct (parseFieldMapping_returns JSON_parse (param_fieldMapping p))
        as [l Hl]. congruence. }
    intros customMappings. apply behaves_bind.
    { apply behaves_withRetry; [done| |done].
      eapply behaves_weaken; [apply own_is_inner|].
      apply trace_setParameters. intros fieldMapping.
      apply (below_base p). by left. }
    intros _. apply behaves_bind.
    { apply behaves_withRetry; [done| |done].
      eapply behaves_weaken; [apply own_is_inner|].
      apply trace_getExportedData. apply (below_base p). by left. }
    intros jsonData. apply behaves_ret.
  - intros e He. unfold execute_catch. destruct e; try done;
      try (by apply behaves_throw).
    apply behaves_bind.
    + apply behaves_lift. intros e0 He0%own_failure_interpolate. by destruct e0.
    + intros text. by apply behaves_throw.
Qed.

End Run.

Lemma requests_app l1 l2 : requests (l1 ++ l2) = (requests l1 + requests l2)%nat.
Proof. unfold requests. by rewrite List.filter_app, length_app. Qed.

Lemma sends_ret {A} n (a : A) : sends_at_most n (ret a).
Proof.
  intros w. exists []. simpl. rewrite app_nil_r. split; [done|].
  unfold requests. simpl. lia.
Qed.

Lemma sends_throw {A} n e : sends_at_most (A:=A) n (throw e).
Proof.
  intros w. exists []. simpl. rewrite app_nil_r. split; [done|].
  unfold requests. simpl. lia.
Qed.

Lemma sends_lift {A} n (o : Outcome A) : sends_at_most n (lift o).
Proof.
  intros w. exists []. simpl. rewrite app_nil_r. split; [done|].
  unfold requests. simpl. lia.
Qed.

Lemma sends_weaken {A} n n' (m : Async World A) :
  (n <= n')%nat -> sends_at_most n m -> sends_at_most n' m.
Proof.
  intros Hn Hm w. destruct (Hm w) as (l & Hw & Hl). exists l. split; [done|lia].
Qed.

Lemma sends_bind {A B} n1 n2 n (m : Async World A) (k : A -> Async World B) :
  (n1 + n2 <= n)%nat ->
  sends_at_most n1 m -> (forall a, sends_at_most n2 (k a)) ->
  sends_at_most n (bind m k).
Proof.
  intros Hn Hm Hk w. unfold bind. destruct (Hm w) as (l1 & Hw1 & Hl1).
  destruct (m w) as [[a|e] w1]; simpl in *; subst w1.
  - destruct (Hk a (w ++ l1)) as (l2 & Hw2 & Hl2).
    exists (l1 ++ l2). split.
    + etrans; [exact Hw2|]. by rewrite app_assoc.
    + rewrite requests_app. lia.
  - exists l1. split; [done|lia].
Qed.

Lemma sends_try {A} n1 n2 n (m : Async World A) handler :
  (n1 + n2 <= n)%nat ->
  sends_at_most n1 m -> (forall e, sends_at_most n2 (handler e)) ->
  sends_at_most n (try_async m handler).
Proof.
  intros Hn Hm Hh w. unfold try_async. destruct (Hm w) as (l1 & Hw1 & Hl1).
  destruct (m w) as [[a|e] w1]; simpl in *; subst w1.
  - exists l1. split; [done|lia].
  - destruct (Hh e (w ++ l1)) as (l2 & Hw2 & Hl2).
    exists (l1 ++ l2). split.
    + etrans; [exact Hw2|]. by rewrite app_assoc.
    + rewrite requests_app. lia.
Qed.

Lemma sends_axios_call net r : sends_at_most 1 (axios_call net r).
Proof. intros w. by exists [Sent r]. Qed.

Lemma sends_axios_arraybuffer net r : sends_at_most 1 (axios_arraybuffer net r).
Proof. intros w. by exists [Sent r]. Qed.

Lemma sends_withRetry_loop {A} n (operation : Async World A) retries delay
    label fuel :
  sends_at_most n operation ->
  forall attempt lastError,
    sends_at_most (fuel * n)
      (withRetry_loop operation retries delay label fuel attempt lastError).
Proof.
  intros Hop. induction fuel as [|fuel IH]; intros attempt lastError.
  - apply sends_throw.
  - simpl withRetry_loop. destruct (attempt <=? retries).
    + intros w. destruct (Hop w) as (l1 & Hw1 & Hl1).
      destruct (operation w) as [[a|e] w1]; simpl in *; subst w1.
      * exists l1. split; [done|lia].
      * destruct (attempt <? retries).
        -- destruct (IH (attempt + 1) (Some e)
                       (sleep (waitTime delay attempt) (w ++ l1)))
             as (l2 & Hw2 & Hl2).
           exists (l1 ++ Slept (waitTime delay attempt) :: l2). split.
           ++ etrans; [exact Hw2|]. unfold sleep, World_timer.
              by rewrite <- !app_assoc.
           ++ rewrite requests_app. unfold requests in *. simpl. lia.
        -- destruct (IH (attempt + 1) (Some e) (w ++ l1)) as (l2 & Hw2 & Hl2).
           exists (l1 ++ l2). split.
           ++ etrans; [exact Hw2|]. by rewrite app_assoc.
           ++ rewrite requests_app. lia.
    + apply sends_throw.
Qed.

Lemma sends_withRetry {A} n (operation : Async World A) retries delay label :
  sends_at_most n operation ->
  sends_at_most (Z.to_nat retries * n) (withRetry operation retries delay label).
Proof. intros. unfold withRetry. by apply sends_withRetry_loop. Qed.

Ltac count_step :=
  first
    [ apply sends_ret
    | apply sends_throw
    | apply sends_lift
    | apply sends_axios_call
    | apply (sends_bind 0 0); [lia| |intros ?]
    | match goal with
      | |- sends_at_most _ (if ?b then _ else _) => destruct b
      | |- sends_at_most _ (match ?x with _ => _ end) => destruct x
      end ].

Section Counting.
Variable JSON_parse : string -> option Value.
Variable URL_parse : string -> option URL.
Variable JSON_stringify : Value -> string.
Variable net : Net.

Lemma sends_verifyApiEndpoint apiEndpoint timeout :
  sends_at_most 2 (verifyApiEndpoint net apiEndpoint timeout).
Proof.
  unfold verifyApiEndpoint.
  apply (sends_try 2 0); [lia| |intros; apply sends_ret].
  apply (sends_bind 2 0); [lia| |intros; apply sends_ret].
  apply (sends_try 1 1); [lia| |intros]; apply sends_axios_call.
Qed.

Lemma sends_getSheets apiEndpoint documentId timeoutSeconds authHeaders :
  sends_at_most 1
    (getSheets JSON_stringify net apiEndpoint documentId timeoutSeconds authHeaders).
Proof.
  unfold getSheets. apply (sends_try 1 0); [lia| |].
  - apply (sends_bind 1 0); [lia|apply sends_axios_call|intros ?].
    repeat count_step.
  - intros e. repeat count_step.
Qed.

Lemma sends_getFields apiEndpoint documentId sheetIndex headersIndex
    timeoutSeconds authHeaders :
  sends_at_most 1
    (getFields JSON_stringify net apiEndpoint documentId sheetIndex headersIndex
       timeoutSeconds authHeaders).
Proof.
  unfold getFields. apply (sends_try 1 0); [lia| |].
  - apply (sends_bind 1 0); [lia|apply sends_axios_call|intros ?].
    repeat count_step.
  - intros e. repeat count_step.
Qed.

Lemma sends_setParameters apiEndpoint documentId sheetIndex headersIndex
    mapping exportFieldIndexes timeoutSeconds authHeaders :
  sends_at_most 1
    (setParameters JSON_stringify net apiEndpoint documentId sheetIndex
       headersIndex mapping exportFieldIndexes timeoutSeconds authHeaders).
Proof.
  unfold setParameters. apply (sends_try 1 0); [lia| |].
  - apply (sends_bind 0 1); [lia|apply sends_lift|intros ?].
    apply (sends_bind 1 0); [lia|apply sends_axios_call|intros ?].
    repeat count_step.
  - intros e. repeat count_step.
Qed.

Lemma sends_getExportedData apiEndpoint documentId timeoutSeconds authHeaders :
  sends_at_most 1
    (getExportedData JSON_stringify net apiEndpoint documentId timeoutSeconds
       authHeaders).
Proof.
  unfold getExportedData. apply (sends_try 1 0); [lia| |].
  - apply (sends_bind 1 0); [lia|apply sends_axios_call|intros ?].
    repeat count_step.
  - intros e. repeat count_step.
Qed.

Lemma sends_upload apiEndpoint fileData timeoutSeconds authHeaders :
  sends_at_most 5
    (uploadFileAndGetDocumentId JSON_stringify net apiEndpoint fileData
       timeoutSeconds authHeaders).
Proof.
  unfold uploadFileAndGetDocumentId. apply (sends_try 5 0); [lia| |].
  - destruct (String.eqb apiEndpoint ""); [apply sends_throw|].
    apply (sends_bind 2 3); [lia|apply sends_verifyApiEndpoint|intros _].
    apply (sends_bind 3 0); [lia| |intros ?; repeat count_step].
    apply (sends_withRetry 1 _ 3). apply sends_axios_call.
  - intros e. destruct e; try apply sends_throw.
    repeat case_bool_decide; repeat count_step.
Qed.

Lemma sends_execute_catch e : sends_at_most 0 (execute_catch e).
Proof. unfold execute_catch. destruct e; repeat count_step. Qed.

(** X16.  A run makes at most [5 * retryAttempts + 5] requests: up to
    [retryAttempts] for each of the download, list-sheets, list-fields,
    set-parameters and fetch-export, two probes and three uploads. *)
Theorem execute_request_bound (p : NodeParameters) (w : World) :
  exists l,
    snd (execute JSON_parse URL_parse JSON_stringify net p w) = w ++ l
    /\ (requests l <= 5 * Z.to_nat (retryAttempts_of p) + 5)%nat.
Proof.
  set (n := Z.to_nat (retryAttempts_of p)).
  cut (sends_at_most (5 * n + 5)
         (execute JSON_parse URL_parse JSON_stringify net p)); [by intros H|].
  unfold execute.
  apply (sends_try (5 * n + 5) 0); [lia| |apply sends_execute_catch].
  destruct (String.eqb _ ""); [apply sends_throw|].
  apply (sends_bind 0 (5 * n + 5)); [lia|apply sends_lift|intros apiOk].
  destruct (negb apiOk); [apply sends_throw|].
  apply (sends_bind 0 (5 * n + 5)); [lia|apply sends_lift|intros fileOk].
  destruct (negb fileOk); [apply sends_throw|].
  apply (sends_bind (n * 1) (4 * n + 5)); [lia| |intros fileResponse].
  { apply sends_withRetry, sends_axios_arraybuffer. }
  destruct (exceeds_limit _); [apply sends_throw|].
  apply (sends_bind 5 (4 * n)); [lia|apply sends_upload|intros documentId].
  apply (sends_bind (n * 1) (3 * n)); [lia| |intros sheets].
  { apply sends_withRetry, sends_getSheets. }
  destruct (_ =? 0); [apply sends_throw|].
  destruct (_ || _); [apply sends_throw|].
  apply (sends_bind 0 (3 * n)); [lia|apply sends_lift|intros availableSheets].
  apply (sends_bind (n * 1) (2 * n)); [lia| |intros fields].
  { apply sends_withRetry, sends_getFields. }
  destruct (_ =? 0); [apply sends_throw|].
  apply (sends_bind 0 (2 * n)); [lia|apply sends_lift|intros customMappings].
  apply (sends_bind (n * 1) n); [lia| |intros _].
  { apply sends_withRetry, sends_setParameters. }
  apply (sends_bind (n * 1) 0); [lia| |intros jsonData; apply sends_ret].
  apply sends_withRetry, sends_getExportedData.
Qed.

End Counting.

Lemma strip_trailing_slashes_slash s :
  strip_trailing_slashes (s +:+ "/") = strip_trailing_slashes s.
Proof.
  induction s as [|c r IH]; [done|]. rewrite append_cons. simpl. by rewrite IH.
Qed.

Lemma append_nonempty (s t : string) : s <> "" -> s +:+ t <> "".
Proof. by destruct s. Qed.

Lemma withRetry_returned_positive {W A} `{Timer W} (operation : Async W A)
    retries delay label w v w' :
  withRetry operation retries delay label w = (Returned v, w') -> 1 <= retries.
Proof.
  unfold withRetry. destruct (Z.to_nat retries) as [|fuel] eqn:Hfuel; [done|lia].
Qed.

Lemma withRetry_no_attempts {W A} `{Timer W} (operation : Async W A)
    retries delay label w :
  retries <= 0 ->
  withRetry operation retries delay label w
  = (Thrown (Error ("All " +:+ Number_toString retries +:+ " retry attempts for "
                    +:+ label +:+ " failed")), w).
Proof.
  intros Hr. unfold withRetry. by replace (Z.to_nat retries) with 0%nat by lia.
Qed.

Section Orchestrator.
Variable JSON_parse : string -> option Value.
Variable URL_parse : string -> option URL.
Variable JSON_stringify : Value -> string.
Variable net : Net.

(** X17.  A run that fails ends with a [NodeOperationError], a [NodeApiError],
    an [Error] or a [TypeError]: an axios failure or a [SyntaxError] never
    leaves [execute]. *)
Theorem execute_failure_kinds (p : NodeParameters) (w : World) (e : JsError) :
  fst (execute JSON_parse URL_parse JSON_stringify net p w) = Thrown e ->
  run_failure e.
Proof.
  intros He.
  destruct (execute_trace JSON_parse URL_parse JSON_stringify net p w)
    as (l & _ & _ & Hfail).
  by apply Hfail.
Qed.

(** X18.  A run only adds to what has happened, and every request it makes
    is the download of the file with the authentication headers, one of the
    two probes without them, or a call below the base URL of the service
    with the authentication headers (and [Connection: keep-alive] for the
    upload). *)
Theorem execute_requests (p : NodeParameters) (w : World) :
  exists l,
    snd (execute JSON_parse URL_parse JSON_stringify net p w) = w ++ l
    /\ Forall (event_of_run p) l.
Proof.
  destruct (execute_trace JSON_parse URL_parse JSON_stringify net p w)
    as (l & Hw & Hl & _).
  by exists l.
Qed.

(** X19.  [execute] validates before it sends anything: an empty service URL,
    a service URL that is not valid once its trailing slashes are gone, or a
    file URL that is not valid ends the run with the [NodeOperationError]
    for it and no request made. *)
Theorem execute_validates_first (p : NodeParameters) (w : World) :
  let apiEndpoint := strip_trailing_slashes (param_apiEndpoint p) in
  let result := execute JSON_parse URL_parse JSON_stringify net p w in
  (param_apiEndpoint p = "" ->
   result = (Thrown (NodeOperationError "XLS Service URL is required"), w))
  /\ (param_apiEndpoint p <> "" ->
      isValidUrl URL_parse apiEndpoint = Returned false ->
      result
      = (Thrown (NodeOperationError
                   ("Invalid XLS Service URL: " +:+ apiEndpoint)), w))
  /\ (param_apiEndpoint p <> "" ->
      isValidUrl URL_parse apiEndpoint = Returned true ->
      isValidUrl URL_parse (param_fileUrl p) = Returned false ->
      result
      = (Thrown (NodeOperationError
                   ("Invalid File URL: " +:+ param_fileUrl p)), w)).
Proof.
  intros apiEndpoint result. subst result. unfold execute. fold apiEndpoint.
  split; [|split].
  - by intros ->.
  - intros Hne Hapi. destruct (String.eqb_spec (param_apiEndpoint p) ""); [done|].
    unfold try_async, bind, lift. by rewrite Hapi.
  - intros Hne Hapi Hfile.
    destruct (String.eqb_spec (param_apiEndpoint p) ""); [done|].
    unfold try_async, bind, lift. by rewrite Hapi, Hfile.
Qed.

(** X20.  With a valid configuration and [retryAttempts] zero or less, the
    run fails at the download without a single request, with the failure
    [withRetry] makes when it has nothing to rethrow. *)
Theorem execute_without_attempts (p : NodeParameters) (w : World) :
  param_apiEndpoint p <> "" ->
  isValidUrl URL_parse (strip_trailing_slashes (param_apiEndpoint p))
  = Returned true ->
  isValidUrl URL_parse (param_fileUrl p) = Returned true ->
  retryAttempts_of p <= 0 ->
  execute JSON_parse URL_parse JSON_stringify net p w
  = (Thrown (Error ("All " +:+ Number_toString (retryAttempts_of p)
                    +:+ " retry attempts for file download failed")), w).
Proof.
  intros Hne Hapi Hfile Hretries. unfold execute.
  destruct (String.eqb_spec (param_apiEndpoint p) ""); [done|].
  erewrite try_async_thrown.
  2:{ erewrite bind_returned by (unfold lift; rewrite Hapi; reflexivity).
      cbn [negb].
      erewrite bind_returned by (unfold lift; rewrite Hfile; reflexivity).
      cbn [negb].
      apply bind_thrown. by apply withRetry_no_attempts. }
  reflexivity.
Qed.

(** X21.  A trailing slash after a service URL that is not empty makes no
    difference to a run. *)
Theorem execute_ignores_trailing_slash (p : NodeParameters)
    (apiEndpoint : string) (w : World) :
  apiEndpoint <> "" ->
  execute JSON_parse URL_parse JSON_stringify net
    (with_apiEndpoint p (apiEndpoint +:+ "/")) w
  = execute JSON_parse URL_parse JSON_stringify net
      (with_apiEndpoint p apiEndpoint) w.
Proof.
  intros Hne. unfold execute, retryAttempts_of, authHeaders_of.
  cbn [with_apiEndpoint param_apiEndpoint param_fileUrl param_exportFields
       param_fieldMapping param_headersIndex param_sheetIndex
       param_authentication param_apiKey param_apiKeyHeaderName
       param_advancedOptions param_timeout param_retryAttempts param_debugMode].
  rewrite strip_trailing_slashes_slash.
  destruct (String.eqb_spec (apiEndpoint +:+ "/") "") as [He|_].
  { by apply append_nonempty in He. }
  by destruct (String.eqb_spec apiEndpoint "").
Qed.

Ltac invert_returned :=
  repeat match goal with
    | H : throw _ _ = (Returned _, _) |- _ => discriminate H
    | H : bind _ _ _ = (Returned _, _) |- _ =>
        let a := fresh "a" in let w := fresh "w" in let Ha := fresh "Hstage" in
        apply bind_returned_inv in H as (a & w & Ha & H)
    | H : (if ?b then _ else _) _ = (Returned _, _) |- _ =>
        let Hb := fresh "Hcond" in destruct b eqn:Hb
    end.

(** X22.  A run returns only if the service URL is not empty, both URLs are
    valid, at least one attempt is configured, list-sheets has returned a
    list in which the sheet index lies, and list-fields has returned a list
    that is not empty. *)
Theorem execute_returns_only_if (p : NodeParameters) (w w' : World)
    (out : list (list INodeExecutionData)) :
  execute JSON_parse URL_parse JSON_stringify net p w = (Returned out, w') ->
  let apiEndpoint := strip_trailing_slashes (param_apiEndpoint p) in
  param_apiEndpoint p <> ""
  /\ isValidUrl URL_parse apiEndpoint = Returned true
  /\ isValidUrl URL_parse (param_fileUrl p) = Returned true
  /\ 1 <= retryAttempts_of p
  /\ exists (documentId : string) (sheets fields : list Value)
            (w1 w1' w2 w2' : World),
       getSheets JSON_stringify net apiEndpoint documentId (param_timeout p)
         (authHeaders_of p) w1 = (Returned sheets, w1')
       /\ 0 <= param_sheetIndex p < Z.of_nat (length sheets)
       /\ getFields JSON_stringify net apiEndpoint documentId
            (param_sheetIndex p) (param_headersIndex p) (param_timeout p)
            (authHeaders_of p) w2 = (Returned fields, w2')
       /\ fields <> [].
Proof.
  intros Hrun apiEndpoint. unfold execute in Hrun. fold apiEndpoint in Hrun.
  apply try_async_returned_inv in Hrun.
  2:{ intros e w1. right. apply execute_catch_throws. }
  invert_returned.
  unfold lift in *.
  match goal with
  | H : withRetry (axios_arraybuffer _ _) _ _ _ _ = _ |- _ =>
      apply withRetry_returned_positive in H
  end.
  repeat match goal with
         | H : withRetry (getSheets _ _ _ _ _ _) _ _ _ _ = _ |- _ =>
             apply withRetry_returned_inv in H as [? H]
         | H : withRetry (getFields _ _ _ _ _ _ _ _) _ _ _ _ = _ |- _ =>
             apply withRetry_returned_inv in H as [? H]
         end.
  apply negb_false_iff in Hcond0, Hcond1. simplify_eq.
  apply String.eqb_neq in Hcond.
  apply orb_false_elim in Hcond4 as [Hlow Hhigh].
  apply Z.ltb_ge in Hlow. apply Z.leb_gt in Hhigh.
  apply Z.eqb_neq in Hcond5.
  split; [done|]. split; [done|]. split; [done|]. split; [done|].
  do 7 eexists. split; [eassumption|]. split; [lia|].
  split; [eassumption|]. intros ->. done.
Qed.

End Orchestrator.

Lemma execute_failure_kinds_witness :
  run_failure (NodeApiError "connect ECONNREFUSED" 0 "Unknown Error").
Proof.
  apply (execute_failure_kinds JSON_parse_model URL_parse_model
           JSON_stringify_model (service_without Download)
           (example_parameters 2) []).
  vm_compute. reflexivity.
Defined.

Lemma execute_validates_first_witness :
  execute JSON_parse_model URL_parse_model JSON_stringify_model
    (example_service None) (with_apiEndpoint (example_parameters 3) "") []
  = (Thrown (NodeOperationError "XLS Service URL is required"), [])
  /\ execute JSON_parse_model URL_parse_model JSON_stringify_model
       (example_service None) (with_apiEndpoint (example_parameters 3) "/") []
     = (Thrown (NodeOperationError ("Invalid XLS Service URL: " +:+ "")), []).
Proof.
  split.
  - apply (proj1 (execute_validates_first JSON_parse_model URL_parse_model
                    JSON_stringify_model (example_service None)
                    (with_apiEndpoint (example_parameters 3) "") [])).
    reflexivity.
  - apply (proj1 (proj2 (execute_validates_first JSON_parse_model URL_parse_model
                           JSON_stringify_model (example_service None)
                           (with_apiEndpoint (example_parameters 3) "/") []))).
    + discriminate.
    + reflexivity.
Defined.

Lemma execute_without_attempts_witness :
  run (example_service None) (example_parameters 0)
  = (Thrown (Error "All 0 retry attempts for file download failed"), []).
Proof.
  apply (execute_without_attempts JSON_parse_model URL_parse_model
           JSON_stringify_model (example_service None) (example_parameters 0) []).
  - discriminate.
  - vm_compute. reflexivity.
  - vm_compute. reflexivity.
  - vm_compute. discriminate.
Defined.

Lemma execute_ignores_trailing_slash_witness :
  execute JSON_parse_model URL_parse_model JSON_stringify_model
    (example_service None)
    (with_apiEndpoint (example_parameters 3) (example_base +:+ "/")) []
  = execute JSON_parse_model URL_parse_model JSON_stringify_model
      (example_service None)
      (with_apiEndpoint (example_parameters 3) example_base) [].
Proof.
  apply execute_ignores_trailing_slash. discriminate.
Defined.

Lemma execute_returns_only_if_witness :
  param_apiEndpoint (example_parameters 3) <> ""
  /\ isValidUrl URL_parse_model
       (strip_trailing_slashes (param_apiEndpoint (example_parameters 3)))
     = Returned true.
Proof.
  pose proof (execute_returns_only_if JSON_parse_model URL_parse_model
                JSON_stringify_model (example_service None)
                (example_parameters 3) []
                (snd (run (example_service None) (example_parameters 3)))
                [mkItem <$> example_records]) as H.
  cbv zeta in H. destruct H as (H1 & H2 & _).
  - vm_compute. reflexivity.
  - split; [exact H1|exact H2].
Defined.

(** ** The upload after the probes, and a download that fails *)

Lemma withRetry_starts_with {A} (operation : Async World A) retries delay label ev :
  1 <= retries ->
  starts_with ev operation ->
  behaves anything any_failure operation ->
  starts_with ev (withRetry operation retries delay label).
Proof.
  intros Hretries Hstart Hop w. unfold withRetry.
  destruct (Z.to_nat retries) as [|fuel] eqn:Hfuel; [lia|].
  simpl. destruct (Z.leb_spec 1 retries); [|lia].
  destruct (Hstart w) as [l1 Hw1].
  destruct (operation w) as [[a|e] w1]; simpl in *; subst w1; [by exists l1|].
  pose proof (behaves_withRetry_loop anything any_failure operation retries
                delay label fuel (fun _ => I) Hop (fun _ => I) (1 + 1) (Some e)
                (fun _ _ => I)) as Hloop.
  destruct (1 <? retries).
  - destruct (Hloop (sleep (waitTime delay 1) (w ++ ev :: l1))) as (l2 & Hw2 & _).
    exists (l1 ++ Slept (waitTime delay 1) :: l2).
    etrans; [exact Hw2|]. unfold sleep, World_timer. by rewrite <- !app_assoc.
  - destruct (Hloop (w ++ ev :: l1)) as (l2 & Hw2 & _).
    exists (l1 ++ l2). etrans; [exact Hw2|]. by rewrite <- app_assoc.
Qed.

Section UploadProceeds.
Variable JSON_stringify : Value -> string.
Variable net : Net.

Lemma verifyApiEndpoint_world apiEndpoint timeout w :
  let base := strip_trailing_slashes apiEndpoint in
  let health := mkRequest GET (base +:+ "/health") 10000 [] NoBody in
  let root := mkRequest GET base 5000 [] NoBody in
  exists available probes,
    verifyApiEndpoint net apiEndpoint timeout w = (Returned available, w ++ probes)
    /\ (probes = [Sent health] \/ probes = [Sent health; Sent root]).
Proof.
  intros base health root.
  unfold verifyApiEndpoint, try_async, bind, axios_call. fold base health root.
  destruct (call_api net w health) as [r|e]; simpl.
  - exists true, [Sent health]. auto.
  - destruct (call_api net (w ++ [Sent health]) root) as [r|e']; simpl;
      rewrite <- app_assoc; simpl; eauto.
Qed.

(** X23.  For a service URL that is not empty, the upload posts the file
    whatever the two probes have answered: after one probe, or after both
    when the first has failed, the next request is the POST to
    [{base}/upload]. *)
Theorem upload_proceeds_whatever_the_probes (apiEndpoint : string)
    (fileData : list Byte.byte) (timeoutSeconds : Z)
    (authHeaders : list (string * string)) (w : World) :
  apiEndpoint <> "" ->
  let base := strip_trailing_slashes apiEndpoint in
  let health := mkRequest GET (base +:+ "/health") 10000 [] NoBody in
  let root := mkRequest GET base 5000 [] NoBody in
  exists probes rest,
    snd (uploadFileAndGetDocumentId JSON_stringify net apiEndpoint fileData
           timeoutSeconds authHeaders w)
    = w ++ probes
        ++ Sent (upload_request apiEndpoint fileData timeoutSeconds authHeaders)
        :: rest
    /\ (probes = [Sent health] \/ probes = [Sent health; Sent root]).
Proof.
  intros Hne base health root.
  destruct (verifyApiEndpoint_world apiEndpoint timeoutSeconds w)
    as (available & probes & Hverify & Hprobes).
  exists probes.
  cut (exists rest,
         snd (uploadFileAndGetDocumentId JSON_stringify net apiEndpoint fileData
                timeoutSeconds authHeaders w)
         = (w ++ probes)
             ++ Sent (upload_request apiEndpoint fileData timeoutSeconds
                        authHeaders) :: rest).
  { intros [rest Hrest]. exists rest. split; [|exact Hprobes].
    by rewrite Hrest, <- app_assoc. }
  unfold uploadFileAndGetDocumentId.
  destruct (String.eqb_spec apiEndpoint ""); [done|].
  unfold try_async. rewrite (bind_returned _ _ _ _ _ Hverify).
  match goal with
  | |- context [bind (withRetry ?op ?n ?d ?l) ?k _] =>
      assert (Hpost : starts_with
                        (Sent (upload_request apiEndpoint fileData
                                 timeoutSeconds authHeaders))
                        (bind (withRetry op n d l) k))
  end.
  { apply starts_with_bind.
    - apply withRetry_starts_with; [lia|apply starts_with_axios_call|].
      apply (behaves_any anything plain_or_axios). by apply behaves_axios_call.
    - intros uploadResult. apply (behaves_any anything plain_or_axios).
      destruct (negb _); [by apply behaves_throw|].
      destruct (_ && _); [by apply behaves_throw|].
      apply behaves_lift. intros e He%throws_plain_interpolate.
      by apply plain_is_plain_or_axios. }
  destruct (Hpost (w ++ probes)) as [l Hl].
  match goal with
  | |- context [match ?body with _ => _ end] =>
      destruct body as [[documentId|e] w1]
  end; simpl in Hl; subst w1.
  - by exists l.
  - exists l. upload_catch e; reflexivity.
Qed.
End UploadProceeds.

Lemma upload_proceeds_whatever_the_probes_witness :
  exists probes rest,
    snd (uploadFileAndGetDocumentId JSON_stringify_model
           (service_without Download) example_base (data (example_file None))
           60 [] [])
    = [] ++ probes
         ++ Sent (upload_request example_base (data (example_file None)) 60 [])
         :: rest
    /\ (probes
        = [Sent (mkRequest GET (strip_trailing_slashes example_base +:+ "/health")
                   10000 [] NoBody)]
        \/ probes
           = [Sent (mkRequest GET (strip_trailing_slashes example_base +:+ "/health")
                      10000 [] NoBody);
              Sent (mkRequest GET (strip_trailing_slashes example_base)
                      5000 [] NoBody)]).
Proof.
  apply (upload_proceeds_whatever_the_probes JSON_stringify_model
           (service_without Download) example_base (data (example_file None))
           60 [] []).
  discriminate.
Defined.

Section DownloadFailure.
Variable JSON_parse : string -> option Value.
Variable URL_parse : string -> option URL.
Variable JSON_stringify : Value -> string.
Variable net : Net.

(** X24.  With a valid configuration and at least one attempt, when the
    file server rejects the download every time with the same axios failure,
    whose response, if there is one, has bytes for a body, the run makes the
    download request [retryAttempts] times, waiting in between, and ends
    with a [NodeApiError] that carries the message of the axios failure, its
    HTTP status, or 0 without a response, and its status text, or
    [Unknown Error] without one. *)
Theorem execute_reports_failed_download (p : NodeParameters) (e : AxiosErr)
    (w : World) :
  param_apiEndpoint p <> "" ->
  isValidUrl URL_parse (strip_trailing_slashes (param_apiEndpoint p))
  = Returned true ->
  isValidUrl URL_parse (param_fileUrl p) = Returned true ->
  1 <= retryAttempts_of p ->
  (forall w, fetch_file net w (download_request p) = Rejected e) ->
  (forall r, response e = Some r -> exists bytes, data r = Buffer bytes) ->
  execute JSON_parse URL_parse JSON_stringify net p w
  = (Thrown (download_failure e),
     w ++ attempts_trace (Sent (download_request p)) 5000%Q 1
            (Z.to_nat (retryAttempts_of p))).
Proof.
  intros Hne Hapi Hfile Hretries Hrejected Hbytes. unfold execute.
  destruct (String.eqb_spec (param_apiEndpoint p) ""); [done|].
  erewrite try_async_thrown.
  2:{ erewrite bind_returned by (unfold lift; rewrite Hapi; reflexivity).
      cbn [negb].
      erewrite bind_returned by (unfold lift; rewrite Hfile; reflexivity).
      cbn [negb].
      apply bind_thrown. apply withRetry_always_thrown; [|done].
      intros w'. unfold axios_arraybuffer.
      change (mkRequest GET (param_fileUrl p) (param_timeout p * 1000)
                (authHeaders_of p) NoBody) with (download_request p).
      by rewrite Hrejected. }
  unfold execute_catch, download_failure, bind, lift, interpolate, or_else.
  destruct (response e) as [r|]; [|reflexivity].
  destruct (Hbytes r eq_refl) as [bytes ->]. reflexivity.
Qed.
End DownloadFailure.

Lemma execute_reports_failed_download_witness :
  run (service_without Download) (example_parameters 2)
  = (Thrown (download_failure refused),
     [] ++ attempts_trace (Sent (download_request (example_parameters 2)))
             5000%Q 1 (Z.to_nat (retryAttempts_of (example_parameters 2)))).
Proof.
  apply (execute_reports_failed_download JSON_parse_model URL_parse_model
           JSON_stringify_model (service_without Download)
           (example_parameters 2) refused []).
  - discriminate.
  - vm_compute. reflexivity.
  - vm_compute. reflexivity.
  - vm_compute. discriminate.
  - intros w. vm_compute. reflexivity.
  - intros r. vm_compute. discriminate.
Defined.
